(** * Customer lifetime analysis: RFM engine and CLV estimator

    A shallow embedding of [src/features/rfm_metrics.py] and
    [src/features/clv_calculator.py], of the preprocessing of
    [src/data/customer_data.py], of the cohort table of
    [src/visualization/segment_plots.py] and of the analysis steps of
    [main.py].

    - A pandas cell is a [Value]; floats are exact rationals, [VNaN] is
      the missing value.
    - A [Series] carries its index labels, because assigning a Series to
      a DataFrame column aligns on those labels.
    - A [DataFrame] is an index and a dictionary of columns; DataFrames
      live in a store and are passed by reference, because the scoring
      methods assign columns on the object they are given.
    - Timestamps are nanoseconds since the epoch, held in an int64 as
      pandas holds them: a sum or difference that does not fit raises.
      [Timedelta.days] is the floor of the difference divided by one
      day. *)

From Stdlib Require Import ZArith QArith Qround String List Lia.
From stdpp Require Import base option list sorting gmap strings fin_maps pretty.

Local Open Scope string_scope.
Local Open Scope Z_scope.

(** ** Values, exceptions, series and frames *)

Inductive Value :=
  | VInt (z : Z)
  | VFloat (q : Q)
  | VNaN
  | VStr (s : string).

Inductive Exception :=
  | ValueError (msg : string)
  | KeyError (key : string)
  | TypeError (msg : string)
  | OverflowError (msg : string).

Inductive Outcome (A : Type) :=
  | Return (a : A)
  | Raise (e : Exception).
Arguments Return {A} a.
Arguments Raise {A} e.

#[global] Instance Outcome_ret : MRet Outcome := λ A a, Return a.

#[global] Instance Outcome_bind : MBind Outcome := λ A B f o,
  match o with
  | Return a => f a
  | Raise e => Raise e
  end.

Record Series := mkSeries { s_index : list Z; s_values : list Value }.

Record DataFrame := mkDataFrame {
  df_index : list Z;
  df_columns : gmap string (list Value)
}.

(** [RangeIndex(n)]: the labels 0 .. n-1. *)
Definition RangeIndex (n : nat) : list Z := Z.of_nat <$> seq 0 n.

(** Numeric reading of a cell; [None] for NaN and for non-numbers. *)
Definition to_num (v : Value) : option Q :=
  match v with
  | VInt z => Some (inject_Z z)
  | VFloat q => Some q
  | _ => None
  end.

(** Python's [a <= b] on two cells: false as soon as one side is NaN. *)
Definition value_le (a b : Value) : bool :=
  match to_num a, to_num b with
  | Some x, Some y => Qle_bool x y
  | _, _ => false
  end.

(** Python's [v == q] for a number [q]. *)
Definition value_eq_num (v : Value) (q : Q) : bool :=
  match to_num v with
  | Some x => Qeq_bool x q
  | None => false
  end.

(** int64 becomes float64 when a reindex has to introduce NaN. *)
Definition upcast_float (v : Value) : Value :=
  match v with
  | VInt z => VFloat (inject_Z z)
  | _ => v
  end.

(** [s.reindex(labels)] for a numeric series: label lookup, NaN for the
    labels the series does not have. *)
Definition series_map (s : Series) : gmap Z Value :=
  list_to_map (zip (s_index s) (s_values s)).

Definition reindex_values (s : Series) (labels : list Z) : list Value :=
  let m := series_map s in
  if forallb (λ l, bool_decide (is_Some (m !! l))) labels
  then (λ l, default VNaN (m !! l)) <$> labels
  else (λ l, default VNaN (upcast_float <$> m !! l)) <$> labels.

(** [df[col]]: the column with the frame's index, or KeyError. *)
Definition getitem (df : DataFrame) (col : string) : Outcome Series :=
  match df_columns df !! col with
  | Some vs => Return (mkSeries (df_index df) vs)
  | None => Raise (KeyError col)
  end.

(** [df[col] = s] for a Series [s]: taken as it is when the two indexes
    are equal, reindexed on the frame's labels otherwise (a frame without
    rows is only assigned series without rows here). *)
Definition setitem (df : DataFrame) (col : string) (s : Series)
  : Outcome DataFrame :=
  if bool_decide (s_index s = df_index df) then
    Return (mkDataFrame (df_index df) (<[col := s_values s]> (df_columns df)))
  else if bool_decide (NoDup (s_index s)) then
    Return (mkDataFrame (df_index df)
              (<[col := reindex_values s (df_index df)]> (df_columns df)))
  else Raise (ValueError "cannot reindex on an axis with duplicate labels").

(** ** Module rfm_metrics: calculate_rfm *)

Record Transaction := mkTransaction {
  customer_id : Z;
  transaction_date : Z;
  amount : Q
}.

Definition ns_per_day : Z := 86400000000000.

(** Timestamps and Timedeltas hold their nanoseconds in an int64, whose
    least value stands for NaT: arithmetic on them raises when the result
    does not fit. *)
Definition int64_max : Z := 9223372036854775807.

Definition fits_int64 (z : Z) : bool :=
  (- int64_max <=? z) && (z <=? int64_max).

Definition int64_overflow : Exception :=
  OverflowError "Overflow in int64 addition".

(** [Timedelta.days] *)
Definition days (delta : Z) : Z := delta / ns_per_day.

(** [Series.max()] / [Series.min()] of timestamps; [None] is NaT. *)
Definition Series_max (l : list Z) : option Z :=
  match l with
  | [] => None
  | x :: xs => Some (foldr Z.max x xs)
  end.

Definition Series_min (l : list Z) : option Z :=
  match l with
  | [] => None
  | x :: xs => Some (foldr Z.min x xs)
  end.

(** Sums and means of floats are taken in exact arithmetic: the rounding
    of float64 is not modelled. *)
Definition Series_sum (l : list Q) : Q := foldr Qplus 0%Q l.

Definition Series_mean (l : list Q) : Value :=
  match l with
  | [] => VNaN
  | _ => VFloat (Series_sum l / inject_Z (Z.of_nat (length l)))
  end.

(** [groupby('customer_id')]: one group per distinct key, keys ascending. *)
Fixpoint insert_key (k : Z) (ks : list Z) : list Z :=
  match ks with
  | [] => [k]
  | k' :: ks' =>
      if k <? k' then k :: ks
      else if k =? k' then ks
      else k' :: insert_key k ks'
  end.

Definition group_keys (transactions : list Transaction) : list Z :=
  foldr insert_key [] (customer_id <$> transactions).

Definition get_group (transactions : list Transaction) (k : Z)
  : list Transaction :=
  filter (λ t, customer_id t = k) transactions.

(** [(analysis_date - ts).days]; NaT on either side gives NaN, and a
    difference that does not fit a Timedelta raises. *)
Definition days_between (analysis_date ts : option Z) : Outcome Value :=
  match analysis_date, ts with
  | Some a, Some t =>
      if fits_int64 (a - t) then Return (VInt (days (a - t)))
      else Raise int64_overflow
  | _, _ => Return VNaN
  end.

(** [transactions['transaction_date'].max() + pd.Timedelta(days=1)] *)
Definition default_analysis_date (transactions : list Transaction)
  : Outcome (option Z) :=
  match Series_max (transaction_date <$> transactions) with
  | Some m =>
      if fits_int64 (m + 1 * ns_per_day) then Return (Some (m + 1 * ns_per_day))
      else Raise int64_overflow
  | None => Return None
  end.

Definition agg_recency (analysis_date : option Z) (g : list Transaction)
  : Outcome Value :=
  days_between analysis_date (Series_max (transaction_date <$> g)).

Definition agg_frequency (g : list Transaction) : Value :=
  VInt (Z.of_nat (length g)).

Definition agg_monetary_sum (g : list Transaction) : Value :=
  VFloat (Series_sum (amount <$> g)).

Definition agg_monetary_avg (g : list Transaction) : Value :=
  Series_mean (amount <$> g).

Definition agg_T (analysis_date : option Z) (g : list Transaction)
  : Outcome Value :=
  days_between analysis_date (Series_min (transaction_date <$> g)).

(** [if analysis_date is None: analysis_date = ...] *)
Definition analysis_date_or_default (transactions : list Transaction)
    (analysis_date : option Z) : Outcome (option Z) :=
  match analysis_date with
  | None => default_analysis_date transactions
  | Some d => Return (Some d)
  end.

Definition calculate_rfm (transactions : list Transaction)
    (analysis_date : option Z) : Outcome DataFrame :=
  analysis_date ← analysis_date_or_default transactions analysis_date;
  let keys := group_keys transactions in
  let groups := get_group transactions <$> keys in
  (* agg, flattened column names, reset_index *)
  recency ← mapM (agg_recency analysis_date) groups;
  let rfm :=
    mkDataFrame (RangeIndex (length keys))
      (<["monetary_avg" := agg_monetary_avg <$> groups]>
       (<["monetary_sum" := agg_monetary_sum <$> groups]>
        (<["frequency" := agg_frequency <$> groups]>
         (<["recency" := recency]>
          (<["customer_id" := VInt <$> keys]> ∅))))) in
  (* first_purchase keeps customer_id as its index *)
  first_purchase ← mapM (agg_T analysis_date) groups;
  setitem rfm "T" (mkSeries keys first_purchase).

(** The row of a frame at position [i], as the dictionary column -> cell. *)
Definition row_at (df : DataFrame) (i : nat) : gmap string Value :=
  omap (λ vs, vs !! i) (df_columns df).

Definition cell (df : DataFrame) (col : string) (i : nat) : option Value :=
  df_columns df !! col ≫= (.!! i).

(** [df[col].iloc[i] == q] *)
Definition cell_eq_num (df : DataFrame) (col : string) (i : nat) (q : Q)
  : bool :=
  from_option (λ v, value_eq_num v q) false (cell df col i).

(** *** The scenario of tests/test_rfm_metrics.py, days counted from
    2024-01-01. *)
Definition day (n : Z) : Z := n * ns_per_day.

Definition sample_transactions : list Transaction :=
  [ mkTransaction 1 (day 0) 100;
    mkTransaction 1 (day 14) 200;
    mkTransaction 2 (day 19) 150;
    mkTransaction 3 (day 0) 300;
    mkTransaction 3 (day 9) 400;
    mkTransaction 3 (day 31) 500 ].

(** ** Binning: pandas [cut] and [qcut] *)

(** A bin edge: a finite number or [float('inf')]. *)
Inductive Edge :=
  | Fin (q : Q)
  | Inf.

Definition edge_lt (e : Edge) (x : Q) : bool :=
  match e with
  | Fin b => negb (Qle_bool x b)
  | Inf => false
  end.

Definition edge_eqb (e1 e2 : Edge) : bool :=
  match e1, e2 with
  | Fin a, Fin b => Qeq_bool a b
  | Inf, Inf => true
  | _, _ => false
  end.

(** [bins.searchsorted(x, side='left')] on increasing edges: the number
    of edges strictly below [x]. *)
Fixpoint searchsorted_left (bins : list Edge) (x : Q) : nat :=
  match bins with
  | [] => O
  | b :: bs => if edge_lt b x then S (searchsorted_left bs x) else O
  end.

Fixpoint has_duplicates (bins : list Edge) : bool :=
  match bins with
  | [] => false
  | b :: bs => existsb (edge_eqb b) bs || has_duplicates bs
  end.

(** The bin number of one value: 0 and [len(bins)] are out of range. *)
Definition bin_id (bins : list Edge) (include_lowest : bool) (x : Q) : nat :=
  if include_lowest && from_option (λ b, edge_eqb b (Fin x)) false (head bins)
  then 1%nat
  else searchsorted_left bins x.

Definition assign_label {A} (bins : list Edge) (labels : list A)
    (include_lowest : bool) (x : option Q) : option A :=
  match x with
  | None => None
  | Some v =>
      let id := bin_id bins include_lowest v in
      if bool_decide (id = O ∨ id = length bins) then None
      else labels !! (id - 1)%nat
  end.

(** [_bins_to_cuts] with [right=True], [duplicates='raise']. *)
Definition bins_to_cuts {A} (x : list (option Q)) (bins : list Edge)
    (labels : list A) (include_lowest : bool) : Outcome (list (option A)) :=
  if has_duplicates bins && negb (bool_decide (length bins = 2%nat)) then
    Raise (ValueError "Bin edges must be unique")
  else if negb (bool_decide (length labels = (length bins - 1)%nat)) then
    Raise (ValueError
      "Bin labels must be one fewer than the number of bin edges")
  else Return (assign_label bins labels include_lowest <$> x).

(** The numeric content of a column handed to [cut] / [qcut]. *)
Fixpoint to_numeric (vs : list Value) : Outcome (list (option Q)) :=
  match vs with
  | [] => Return []
  | VStr _ :: _ => Raise (TypeError "non-numeric data")
  | v :: vs' =>
      match to_numeric vs' with
      | Return xs => Return (to_num v :: xs)
      | Raise e => Raise e
      end
  end.

(** [pd.cut(x, bins, labels)]: right-closed bins, lowest edge excluded. *)
Definition cut {A} (x : Series) (bins : list Edge) (labels : list A)
  : Outcome (list (option A)) :=
  match to_numeric (s_values x) with
  | Return xs => bins_to_cuts xs bins labels false
  | Raise e => Raise e
  end.

Fixpoint insert_sorted (x : Q) (l : list Q) : list Q :=
  match l with
  | [] => [x]
  | y :: l' => if Qle_bool x y then x :: l else y :: insert_sorted x l'
  end.

Definition sort_values (l : list Q) : list Q := foldr insert_sorted [] l.

(** The [k]-th of the [q] quantile edges of sorted data [a], by linear
    interpolation at position [k/q * (n-1)]. *)
Definition quantile (a : list Q) (q k : Z) : Q :=
  let n1 := Z.of_nat (length a) - 1 in
  let j := Z.to_nat (k * n1 / q) in
  let g := (inject_Z ((k * n1) mod q) / inject_Z q)%Q in
  let lo := nth j a 0%Q in
  let hi := nth (Nat.min (S j) (length a - 1)) a 0%Q in
  (lo + (hi - lo) * g)%Q.

(** [pd.qcut(x, q, labels)]: edges at the quantiles of the non-missing
    values, lowest edge included, duplicate edges raise. *)
Definition qcut {A} (x : Series) (q : nat) (labels : list A)
  : Outcome (list (option A)) :=
  match to_numeric (s_values x) with
  | Return xs =>
      let a := sort_values (omap id xs) in
      match a with
      | [] => Raise (ValueError "Bin edges must be unique")
      | _ =>
          let bins :=
            (λ k, Fin (quantile a (Z.of_nat q) (Z.of_nat k))) <$> seq 0 (S q) in
          bins_to_cuts xs bins labels true
      end
  | Raise e => Raise e
  end.

(** ** The store of frames and the monad of Python methods *)

Abbreviation loc := positive.
Abbreviation Heap := (gmap positive DataFrame).

(** A method run from state [S]: a result or an exception, and the
    state it leaves (mutations made before a raise stay). *)
Definition Py (S A : Type) : Type := S → Outcome A * S.

#[global] Instance Py_ret {S} : MRet (Py S) := λ A a s, (Return a, s).

#[global] Instance Py_bind {S} : MBind (Py S) := λ A B f m s,
  match m s with
  | (Return a, s') => f a s'
  | (Raise e, s') => (Raise e, s')
  end.

Definition raise {S A} (e : Exception) : Py S A := λ s, (Raise e, s).

Definition lift_outcome {S A} (o : Outcome A) : Py S A := λ s, (o, s).

(** [rfm[col]] through a reference. A reference always designates a live
    frame; the failure on a dangling one is there to make the function
    total. *)
Definition py_getitem (rfm : loc) (col : string) : Py Heap Series := λ h,
  match h !! rfm with
  | Some df => (getitem df col, h)
  | None => (Raise (KeyError "<no such object>"), h)
  end.

(** [rfm[col] = s] through a reference: the frame is updated in place. *)
Definition py_setitem (rfm : loc) (col : string) (s : Series)
  : Py Heap unit := λ h,
  match h !! rfm with
  | Some df =>
      match setitem df col s with
      | Return df' => (Return (), <[rfm := df']> h)
      | Raise e => (Raise e, h)
      end
  | None => (Raise (KeyError "<no such object>"), h)
  end.

(** A computed column keeps the index of the series it was computed from. *)
Definition with_index (x : Series) (vs : list Value) : Series :=
  mkSeries (s_index x) vs.

Definition label_value (l : option Z) : Value :=
  match l with
  | Some z => VInt z
  | None => VNaN
  end.

Definition str_label_value (l : option string) : Value :=
  match l with
  | Some s => VStr s
  | None => VNaN
  end.

(** [astype(str)] of a categorical cell with integer categories. *)
Definition label_str (l : option Z) : string :=
  match l with
  | Some z => pretty z
  | None => "nan"
  end.

(** ** Module rfm_metrics: add_rfm_scores *)

Definition r_labels : list Z := [4; 3; 2; 1].
Definition f_labels : list Z := [1; 2; 3; 4].
Definition m_labels : list Z := [1; 2; 3; 4].

Definition recency_bins : list Edge := [Fin 0; Fin 7; Fin 30; Fin 90; Inf].
Definition frequency_bins : list Edge := [Fin 0; Fin 2; Fin 5; Fin 10; Inf].
Definition monetary_bins : list Edge := [Fin 0; Fin 100; Fin 250; Fin 500; Inf].

(** [R.astype(str) + F.astype(str) + M.astype(str)], cell by cell. *)
Definition rfm_score_str (r f m : option Z) : Value :=
  VStr (label_str r +:+ label_str f +:+ label_str m).

Definition concat_scores (r f m : list (option Z)) : list Value :=
  zip_with (λ rf m, rfm_score_str rf.1 rf.2 m) (zip r f) m.

Definition add_rfm_scores (rfm : loc) (quartiles : bool) : Py Heap loc :=
  '(r, f, m) ←
    (if quartiles then
       recency ← py_getitem rfm "recency";
       r_quartiles ← lift_outcome (qcut recency 4 r_labels);
       frequency ← py_getitem rfm "frequency";
       f_quartiles ← lift_outcome (qcut frequency 4 f_labels);
       monetary_avg ← py_getitem rfm "monetary_avg";
       m_quartiles ← lift_outcome (qcut monetary_avg 4 m_labels);
       py_setitem rfm "R_score" (with_index recency (label_value <$> r_quartiles));;
       py_setitem rfm "F_score" (with_index frequency (label_value <$> f_quartiles));;
       py_setitem rfm "M_score" (with_index monetary_avg (label_value <$> m_quartiles));;
       mret (r_quartiles, f_quartiles, m_quartiles)
     else
       recency ← py_getitem rfm "recency";
       r ← lift_outcome (cut recency recency_bins [4; 3; 2; 1]);
       py_setitem rfm "R_score" (with_index recency (label_value <$> r));;
       frequency ← py_getitem rfm "frequency";
       f ← lift_outcome (cut frequency frequency_bins [1; 2; 3; 4]);
       py_setitem rfm "F_score" (with_index frequency (label_value <$> f));;
       monetary_avg ← py_getitem rfm "monetary_avg";
       m ← lift_outcome (cut monetary_avg monetary_bins [1; 2; 3; 4]);
       py_setitem rfm "M_score" (with_index monetary_avg (label_value <$> m));;
       mret (r, f, m));
  (* the three score columns read back are the ones just assigned *)
  R_score ← py_getitem rfm "R_score";
  py_setitem rfm "RFM_Score" (with_index R_score (concat_scores r f m));;
  mret rfm.

(** ** Module rfm_metrics: get_customer_segment *)

Abbreviation Row := (gmap string Value).

Definition row_getitem (row : Row) (col : string) : Outcome Value :=
  match row !! col with
  | Some v => Return v
  | None => Raise (KeyError col)
  end.

(** Python's [v in [s1, ..., sn]] for a list of strings. *)
Definition value_in (v : Value) (l : list string) : bool :=
  match v with
  | VStr s => bool_decide (s ∈ l)
  | _ => false
  end.

Definition segment_customer (row : Row) : Outcome string :=
  score ← row_getitem row "RFM_Score";
  if value_in score ["444"; "434"; "443"; "433"] then mret "Best Customers"
  else
    r ← row_getitem row "R_score";
    if value_eq_num r 4 then mret "Recent Customers"
    else
      f ← row_getitem row "F_score";
      if value_eq_num f 4 then mret "Loyal Customers"
      else
        m ← row_getitem row "M_score";
        if value_eq_num m 4 then mret "Big Spenders"
        else
          r' ← row_getitem row "R_score";
          if value_eq_num r' 1 then mret "Lost Customers"
          else mret "Average Customers".

Definition rows (df : DataFrame) : list Row :=
  row_at df <$> seq 0 (length (df_index df)).

Definition deref (rfm : loc) : Py Heap DataFrame := λ h,
  match h !! rfm with
  | Some df => (Return df, h)
  | None => (Raise (KeyError "<no such object>"), h)
  end.

(** [rfm['Customer_Segment'] = rfm.apply(segment_customer, axis=1)].
    On a frame without rows [apply] calls the function on no row and
    returns a copy of the frame; a frame assigned to one column gives its
    only column, and raises ValueError when it has none or several. *)
Definition get_customer_segment (rfm : loc) : Py Heap loc :=
  df ← deref rfm;
  match df_index df with
  | [] =>
      match map_to_list (df_columns df) with
      | [(_, vs)] => py_setitem rfm "Customer_Segment" (mkSeries [] vs)
      | cols =>
          if bool_decide (is_Some (df_columns df !! "Customer_Segment")) then
            raise (ValueError "Columns must be same length as key")
          else if bool_decide (cols = []) then
            raise (ValueError
              "Cannot set a DataFrame without columns to the column Customer_Segment")
          else
            raise (ValueError
              "Cannot set a DataFrame with multiple columns to the single column Customer_Segment")
      end
  | _ =>
      segments ← lift_outcome (mapM segment_customer (rows df));
      py_setitem rfm "Customer_Segment"
        (mkSeries (df_index df) (VStr <$> segments))
  end;;
  mret rfm.

(** ** Module clv_calculator *)

(** The [lifetimes] package is outside the repository: its fitters are an
    interface. A fitter object holds its penalizer and, once fitted, its
    parameters; every call may raise. *)
Record Fitter (P : Type) := mkFitter {
  penalizer_coef : Q;
  params_ : option P
}.
Arguments mkFitter {P} _ _.
Arguments penalizer_coef {P} _.
Arguments params_ {P} _.

Class Lifetimes := {
  BGParams : Type;
  GGParams : Type;
  (** [BetaGeoFitter.fit(frequency, recency, T)] *)
  BetaGeoFitter_fit : Q → Series → Series → Series → Outcome BGParams;
  (** [GammaGammaFitter.fit(frequency, monetary_value)] *)
  GammaGammaFitter_fit : Q → Series → Series → Outcome GGParams;
  (** [BetaGeoFitter.predict(t, frequency, recency, T)] *)
  BetaGeoFitter_predict :
    Fitter BGParams → Q → Series → Series → Series → Outcome Series;
  (** [GammaGammaFitter.customer_lifetime_value(bgf, frequency, recency,
      T, monetary_value, time, discount_rate)] *)
  GammaGammaFitter_customer_lifetime_value :
    Fitter GGParams → Fitter BGParams →
    Series → Series → Series → Series → Q → Q → Outcome Series
}.

(** The [clv_calculation] entries of config/config.yaml. *)
Record Config := mkConfig {
  cfg_penalizer_coef : Q;
  cfg_time_period : Q;
  cfg_discount_rate : Q
}.

Definition clv_labels : list string :=
  ["Low Value"; "Medium Value"; "High Value"; "Top Value"].

(** [rfm[col] > 0], cell by cell. *)
Definition gt_zero (x : option Q) : bool :=
  match x with
  | Some v => negb (Qle_bool v 0)
  | None => false
  end.

(** [rfm.loc[mask, col]]: the rows whose mask is true, with their labels. *)
Fixpoint select {A} (mask : list bool) (l : list A) : list A :=
  match mask, l with
  | b :: mask', x :: l' => if b then x :: select mask' l' else select mask' l'
  | _, _ => []
  end.

Definition loc_mask (mask : list bool) (s : Series) : Series :=
  mkSeries (select mask (s_index s)) (select mask (s_values s)).

Section CLV.
Context `{Lifetimes}.

Record CLVCalculator := mkCLVCalculator {
  config : Config;
  bgf_model : option (Fitter BGParams);
  ggf_model : option (Fitter GGParams)
}.

(** The calculator object and the store of frames. *)
Record World := mkWorld {
  self : CLVCalculator;
  frames : gmap positive DataFrame
}.

(** [CLVCalculator.__init__] *)
Definition CLVCalculator_init (cfg : Config) : CLVCalculator :=
  mkCLVCalculator cfg None None.

Definition on_frames {A} (m : Py Heap A) : Py World A := λ w,
  let '(o, h) := m (frames w) in (o, mkWorld (self w) h).

Definition get_self : Py World CLVCalculator := λ w, (Return (self w), w).

Definition set_bgf_model (m : Fitter BGParams) : Py World unit := λ w,
  (Return (),
   mkWorld (mkCLVCalculator (config (self w)) (Some m) (ggf_model (self w)))
           (frames w)).

Definition set_ggf_model (m : Fitter GGParams) : Py World unit := λ w,
  (Return (),
   mkWorld (mkCLVCalculator (config (self w)) (bgf_model (self w)) (Some m))
           (frames w)).

Definition fit_models (rfm : loc) : Py World unit :=
  c ← get_self;
  let penalizer := cfg_penalizer_coef (config c) in
  set_bgf_model (mkFitter penalizer None);;
  frequency ← on_frames (py_getitem rfm "frequency");
  recency ← on_frames (py_getitem rfm "recency");
  T ← on_frames (py_getitem rfm "T");
  bg ← lift_outcome (BetaGeoFitter_fit penalizer frequency recency T);
  set_bgf_model (mkFitter penalizer (Some bg));;
  (* only fit Gamma-Gamma model for customers with purchases *)
  frequency ← on_frames (py_getitem rfm "frequency");
  xs ← lift_outcome (to_numeric (s_values frequency));
  let mask := gt_zero <$> xs in
  set_ggf_model (mkFitter penalizer None);;
  frequency ← on_frames (py_getitem rfm "frequency");
  monetary_avg ← on_frames (py_getitem rfm "monetary_avg");
  gg ← lift_outcome
    (GammaGammaFitter_fit penalizer (loc_mask mask frequency)
       (loc_mask mask monetary_avg));
  set_ggf_model (mkFitter penalizer (Some gg)).

Definition models_not_fit : Exception :=
  ValueError "Models must be fit before predicting CLV".

Definition predict_clv (rfm : loc) : Py World loc :=
  c ← get_self;
  match bgf_model c, ggf_model c with
  | Some bgf, Some ggf =>
      let time_period := cfg_time_period (config c) in
      frequency ← on_frames (py_getitem rfm "frequency");
      recency ← on_frames (py_getitem rfm "recency");
      T ← on_frames (py_getitem rfm "T");
      predicted_transactions ← lift_outcome
        (BetaGeoFitter_predict bgf time_period frequency recency T);
      frequency ← on_frames (py_getitem rfm "frequency");
      recency ← on_frames (py_getitem rfm "recency");
      T ← on_frames (py_getitem rfm "T");
      monetary_avg ← on_frames (py_getitem rfm "monetary_avg");
      clv ← lift_outcome
        (GammaGammaFitter_customer_lifetime_value ggf bgf
           frequency recency T monetary_avg
           time_period (cfg_discount_rate (config c)));
      on_frames (py_setitem rfm "predicted_transactions" predicted_transactions);;
      on_frames (py_setitem rfm "clv" clv);;
      mret rfm
  | _, _ => raise models_not_fit
  end.

Definition get_clv_segments (rfm : loc) : Py World loc :=
  clv ← on_frames (py_getitem rfm "clv");
  segments ← lift_outcome (qcut clv 4 clv_labels);
  on_frames (py_setitem rfm "clv_segment"
               (with_index clv (str_label_value <$> segments)));;
  mret rfm.


(** The guard of predict_clv fires when a model attribute is unset. *)
Definition models_unset (c : CLVCalculator) : Prop :=
  bgf_model c = None ∨ ggf_model c = None.

(** fit_models with the frequency > 0 filter taken out: the Gamma-Gamma
    model is fitted on the whole frequency and monetary_avg columns. The
    program fit_models is compared with. *)
Definition fit_models_unfiltered (rfm : loc) : Py World unit :=
  c ← get_self;
  let penalizer := cfg_penalizer_coef (config c) in
  set_bgf_model (mkFitter penalizer None);;
  frequency ← on_frames (py_getitem rfm "frequency");
  recency ← on_frames (py_getitem rfm "recency");
  T ← on_frames (py_getitem rfm "T");
  bg ← lift_outcome (BetaGeoFitter_fit penalizer frequency recency T);
  set_bgf_model (mkFitter penalizer (Some bg));;
  set_ggf_model (mkFitter penalizer None);;
  frequency ← on_frames (py_getitem rfm "frequency");
  monetary_avg ← on_frames (py_getitem rfm "monetary_avg");
  gg ← lift_outcome (GammaGammaFitter_fit penalizer frequency monetary_avg);
  set_ggf_model (mkFitter penalizer (Some gg)).

(** The states of a calculator on which no call of fit_models has
    returned: a new calculator, and what calls of fit_models that raise,
    calls of predict_clv and get_clv_segments, and changes to the tables
    make of such a state. *)
Inductive no_successful_fit : World → Prop :=
  | nsf_init cfg h :
      no_successful_fit (mkWorld (CLVCalculator_init cfg) h)
  | nsf_fit_models rfm w e w' :
      no_successful_fit w → fit_models rfm w = (Raise e, w') →
      no_successful_fit w'
  | nsf_predict_clv rfm w o w' :
      no_successful_fit w → predict_clv rfm w = (o, w') →
      no_successful_fit w'
  | nsf_get_clv_segments rfm w o w' :
      no_successful_fit w → get_clv_segments rfm w = (o, w') →
      no_successful_fit w'
  | nsf_frames w h :
      no_successful_fit w → no_successful_fit (mkWorld (self w) h).

End CLV.

(** *** get_clv_summary *)

(** Float division: a zero divisor gives a non-finite result (nan or
    inf), which [VNaN] stands for here. *)
Definition float_div (a b : Q) : Value :=
  if Qeq_bool b 0 then VNaN else VFloat (a / b).

Definition float_mul (a : Value) (b : Q) : Value :=
  match a with
  | VFloat x => VFloat (x * b)
  | VInt z => VFloat (inject_Z z * b)
  | _ => VNaN
  end.

Definition Qmin_list (l : list Q) : Value :=
  match l with
  | [] => VNaN
  | x :: xs => VFloat (foldr (λ a b, if Qle_bool a b then a else b) x xs)
  end.

Definition Qmax_list (l : list Q) : Value :=
  match l with
  | [] => VNaN
  | x :: xs => VFloat (foldr (λ a b, if Qle_bool a b then b else a) x xs)
  end.

(** One row of the aggregate, before the percentage is added. *)
Record SegmentStats := mkSegmentStats {
  segment : string;
  clv_count : Z;
  clv_mean : Value;
  clv_min : Value;
  clv_max : Value;
  clv_sum : Q;
  frequency_mean : Value;
  monetary_avg_mean : Value
}.

Record SummaryRow := mkSummaryRow {
  stats : SegmentStats;
  clv_percentage : Value
}.

Definition is_label (label : string) (v : Value) : bool :=
  match v with
  | VStr s => bool_decide (s = label)
  | _ => false
  end.

(** The aggregate of one group; missing cells are skipped. *)
Definition agg_segment (segments : list Value) (clv frequency monetary : list (option Q))
    (label : string) : SegmentStats :=
  let mask := is_label label <$> segments in
  let c := omap id (select mask clv) in
  mkSegmentStats label
    (Z.of_nat (length c)) (Series_mean c) (Qmin_list c) (Qmax_list c)
    (Series_sum c)
    (Series_mean (omap id (select mask frequency)))
    (Series_mean (omap id (select mask monetary))).

(** [summary[('clv','sum')] / summary[('clv','sum')].sum() * 100] *)
Definition add_percentage (summary : list SegmentStats) : list SummaryRow :=
  let total := Series_sum (clv_sum <$> summary) in
  (λ s, mkSummaryRow s (float_mul (float_div (clv_sum s) total) 100)) <$> summary.

(** [clv_segment] is the categorical column written by get_clv_segments:
    grouping on it gives one group per category, in category order. *)
Definition get_clv_summary (rfm : DataFrame) : Outcome (list SummaryRow) :=
  segments ← getitem rfm "clv_segment";
  clv ← getitem rfm "clv";
  frequency ← getitem rfm "frequency";
  monetary_avg ← getitem rfm "monetary_avg";
  c ← to_numeric (s_values clv);
  f ← to_numeric (s_values frequency);
  m ← to_numeric (s_values monetary_avg);
  mret (add_percentage (agg_segment (s_values segments) c f m <$> clv_labels)).

(** ** A stand-in for the fitting library

    Used to run the methods on concrete data. Inputs are validated as
    [lifetimes] validates them (a non-positive monetary value makes the
    Gamma-Gamma fit raise); the fitted parameters are left opaque, the
    predicted number of transactions is the observed frequency and the
    value is frequency times average spend. Calls on an unfitted object
    raise. *)
Definition not_fit_yet : Exception :=
  ValueError "Model has not been fit yet. Please call the .fit method first.".

Definition non_positive_monetary : Exception :=
  ValueError
    "There exist non-positive (<= 0) values in the monetary_value vector.".

Definition times (a b : Value) : Value :=
  match to_num a, to_num b with
  | Some x, Some y => VFloat (x * y)
  | _, _ => VNaN
  end.

Definition stand_in : Lifetimes := {|
  BGParams := unit;
  GGParams := unit;
  BetaGeoFitter_fit := λ _ _ _ _, Return ();
  GammaGammaFitter_fit := λ _ _ monetary,
    xs ← to_numeric (s_values monetary);
    if forallb gt_zero xs then Return () else Raise non_positive_monetary;
  BetaGeoFitter_predict := λ bgf _ frequency _ _,
    match params_ bgf with
    | Some _ => Return frequency
    | None => Raise not_fit_yet
    end;
  GammaGammaFitter_customer_lifetime_value :=
    λ ggf bgf frequency _ _ monetary _ _,
    match params_ ggf, params_ bgf with
    | Some _, Some _ =>
        Return (with_index frequency
                  (zip_with times (s_values frequency) (s_values monetary)))
    | _, _ => Raise not_fit_yet
    end
|}.

(** ** Concrete data used in the examples *)

(** Five customers numbered from 0, so that the positional index of the
    RFM table coincides with customer_id. *)
Definition five_customers : list Transaction :=
  [ mkTransaction 0 (day 0) 50;
    mkTransaction 1 (day 10) 100; mkTransaction 1 (day 20) 140;
    mkTransaction 2 (day 5) 200; mkTransaction 2 (day 30) 300;
    mkTransaction 2 (day 40) 400;
    mkTransaction 3 (day 1) 500; mkTransaction 3 (day 2) 600;
    mkTransaction 3 (day 3) 700; mkTransaction 3 (day 50) 600;
    mkTransaction 4 (day 7) 900; mkTransaction 4 (day 8) 900;
    mkTransaction 4 (day 9) 900; mkTransaction 4 (day 60) 900;
    mkTransaction 4 (day 61) 900 ].

(** Two customers numbered 1 and 2: the early buyer has the larger id. *)
Definition two_customers : list Transaction :=
  [ mkTransaction 1 (day 40) 100;
    mkTransaction 2 (day 0) 100 ].

Definition frame_of (o : Outcome DataFrame) : DataFrame :=
  match o with
  | Return df => df
  | Raise _ => mkDataFrame [] ∅
  end.

(** A store holding one frame, at reference 1. *)
Definition store1 (df : DataFrame) : gmap positive DataFrame :=
  {[ 1%positive := df ]}.

Definition five_rfm : DataFrame := frame_of (calculate_rfm five_customers None).

Definition sample_config : Config := mkConfig (1 # 1000) 12 (1 # 100).

(** What lands in column T when the per-customer values are [Ts]: those
    values when customer ids are exactly 0 .. n-1, their realignment on
    0 .. n-1 otherwise. *)
Definition T_column (keys : list Z) (Ts : list Value) : list Value :=
  if bool_decide (keys = RangeIndex (length keys)) then Ts
  else reindex_values (mkSeries keys Ts) (RangeIndex (length keys)).

(** [rfm.recency[i] <= rfm.T[i]] *)
Definition recency_le_T (rfm : DataFrame) (i : nat) : bool :=
  match cell rfm "recency" i, cell rfm "T" i with
  | Some r, Some t => value_le r t
  | _, _ => false
  end.

(** ** Predicates used in the statements *)

(** The priority rule as the specification words it: an ordered list of
    (predicate, label) pairs read in sequence, the first match wins, and
    "Average Customers" when none matches. *)
Record Scores := mkScores {
  RFM_Score : Value;
  R_score : Value;
  F_score : Value;
  M_score : Value
}.

Definition segment_rules : list ((Scores → bool) * string) :=
  [ (λ s, value_in (RFM_Score s) ["444"; "434"; "443"; "433"],
     "Best Customers");
    (λ s, value_eq_num (R_score s) 4, "Recent Customers");
    (λ s, value_eq_num (F_score s) 4, "Loyal Customers");
    (λ s, value_eq_num (M_score s) 4, "Big Spenders");
    (λ s, value_eq_num (R_score s) 1, "Lost Customers") ].

Fixpoint first_match (rules : list ((Scores → bool) * string)) (s : Scores)
  : option string :=
  match rules with
  | [] => None
  | (p, label) :: rules' => if p s then Some label else first_match rules' s
  end.

Definition segment_of (s : Scores) : string :=
  default "Average Customers" (first_match segment_rules s).

Definition segment_names : list string :=
  [ "Best Customers"; "Recent Customers"; "Loyal Customers"; "Big Spenders";
    "Lost Customers"; "Average Customers" ].

(** The four cells of a row the rule reads (NaN for an absent one). *)
Definition row_scores (row : Row) : Scores :=
  mkScores (default VNaN (row !! "RFM_Score")) (default VNaN (row !! "R_score"))
    (default VNaN (row !! "F_score")) (default VNaN (row !! "M_score")).

(** A column is full when it has a cell on every row of the frame. *)
Definition full_column (df : DataFrame) (col : string) : Prop :=
  ∃ vs, df_columns df !! col = Some vs ∧ length vs = length (df_index df).

(** The effect on the store of a method that assigns the columns [cols]
    of the frame at [rfm]: the same object, the same index, every other
    column as it was, the assigned columns present, every other object
    untouched. *)
Definition assigns (cols : list string) (rfm : loc)
    (h h' : gmap positive DataFrame) : Prop :=
  ∃ df df', h !! rfm = Some df ∧ h' = <[rfm := df']> h ∧
    df_index df' = df_index df ∧
    (∀ c, c ∉ cols → df_columns df' !! c = df_columns df !! c) ∧
    (∀ c, c ∈ cols → is_Some (df_columns df' !! c)).

Definition score_columns : list string :=
  ["R_score"; "F_score"; "M_score"; "RFM_Score"].


(** ** The pipeline of main.py on concrete data, with the stand-in library *)

Definition frame_at (h : gmap positive DataFrame) (l : loc) : DataFrame :=
  default (mkDataFrame [] ∅) (h !! l).

(** A calculator fresh from [__init__] and a store holding [df]. *)
Definition fresh_world (df : DataFrame) : @World stand_in :=
  @mkWorld stand_in (@CLVCalculator_init stand_in sample_config) (store1 df).

Definition five_scored : gmap positive DataFrame :=
  (add_rfm_scores 1%positive true (store1 five_rfm)).2.

Definition five_segmented : gmap positive DataFrame :=
  (get_customer_segment 1%positive five_scored).2.

Definition five_fitted : @World stand_in :=
  (@fit_models stand_in 1%positive
     (@mkWorld stand_in (@CLVCalculator_init stand_in sample_config)
        five_segmented)).2.

Definition five_predicted : @World stand_in :=
  (@predict_clv stand_in 1%positive five_fitted).2.

Definition five_valued : @World stand_in :=
  (@get_clv_segments stand_in 1%positive five_predicted).2.

Definition summary_of (o : Outcome (list SummaryRow)) : list SummaryRow :=
  match o with
  | Return s => s
  | Raise _ => []
  end.

(** A table that already carries a clv column (as one read back from a
    saved result would), on a calculator fresh from [__init__]. *)
Definition clv_frame : DataFrame :=
  mkDataFrame (df_index five_rfm)
    (<["clv" := [VFloat 10; VFloat 20; VFloat 30; VFloat 40; VFloat 50]]>
       (df_columns five_rfm)).

(** The metric each score column of add_rfm_scores is computed from. *)
Definition metric_scores : list (string * string) :=
  [("recency", "R_score"); ("frequency", "F_score");
   ("monetary_avg", "M_score")].

(** The columns of the table calculate_rfm returns. *)
Definition rfm_columns : list string :=
  ["customer_id"; "recency"; "frequency"; "monetary_sum"; "monetary_avg"; "T"].

(** The segment as a decision on three integer scores. *)
Definition segment_by_scores (r f m : Z) : string :=
  if bool_decide (r = 4 ∧ 3 ≤ f ∧ 3 ≤ m) then "Best Customers"
  else if bool_decide (r = 4) then "Recent Customers"
  else if bool_decide (f = 4) then "Loyal Customers"
  else if bool_decide (m = 4) then "Big Spenders"
  else if bool_decide (r = 1) then "Lost Customers"
  else "Average Customers".

(** ** Module customer_data: CustomerDataLoader.preprocess_data *)

(** A row of the transactions file: the three columns calculate_rfm
    reads, and the category column. *)
Record TransactionRow := mkTransactionRow {
  fields :> Transaction;
  category : string
}.

(** A row of the customers file. *)
Module Customer.
Record t := mk {
  customer_id : Z;
  first_purchase : Z;
  age : Q;
  gender : string;
  income_segment : string
}.
End Customer.

(** Two rows are equal when they agree on every column. *)
Definition same_row (a b : TransactionRow) : bool :=
  (customer_id a =? customer_id b) && (transaction_date a =? transaction_date b)
  && Qeq_bool (amount a) (amount b) && bool_decide (category a = category b).

(** [DataFrame.duplicated()]: a row is marked when an earlier row equals
    it. *)
Fixpoint duplicated_after (seen l : list TransactionRow) : list bool :=
  match l with
  | [] => []
  | x :: l' => existsb (same_row x) seen :: duplicated_after (x :: seen) l'
  end.

Definition duplicated (l : list TransactionRow) : list bool :=
  duplicated_after [] l.

Definition drop_duplicates (l : list TransactionRow) : list TransactionRow :=
  select (negb <$> duplicated l) l.

(** [Series.isin(values)] *)
Definition isin (s values : list Z) : list bool :=
  (λ k, bool_decide (k ∈ values)) <$> s.

Definition date_le (a b : TransactionRow) : Prop :=
  transaction_date a ≤ transaction_date b.

#[global] Instance date_le_dec (a b : TransactionRow) : Decision (date_le a b) :=
  Z_le_dec (transaction_date a) (transaction_date b).

Section Preprocess.
(** [sort_values('transaction_date')] uses an unstable sort, so the order
    it leaves among rows of the same date is not fixed: the sort is a
    parameter, known only to permute its argument into date order. *)
Variable sort_values_by_date : list TransactionRow → list TransactionRow.

Definition preprocess_data (customers : list Customer.t)
    (transactions : list TransactionRow)
  : list Customer.t * list TransactionRow :=
  (* Remove duplicates *)
  let transactions := drop_duplicates transactions in
  (* Sort transactions by date *)
  let transactions := sort_values_by_date transactions in
  (* Ensure all transactions have valid customer IDs *)
  let transactions :=
    select (isin ((λ t : TransactionRow, customer_id t) <$> transactions)
                 (Customer.customer_id <$> customers))
           transactions in
  (customers, transactions).

End Preprocess.

(** What a sort by date is known to do. *)
Definition sorts_by_date
    (sort : list TransactionRow → list TransactionRow) : Prop :=
  ∀ l, sort l ≡ₚ l ∧ StronglySorted date_le (sort l).

(** The columns of a row on which equality is decided, the amount in
    lowest terms. *)
Definition row_key (r : TransactionRow) : Z * Z * Q * string :=
  (customer_id r, transaction_date r, Qred (amount r), category r).

(** ** Module segment_plots: the table behind plot_retention_matrix *)

Record CohortRow := mkCohortRow {
  purchase :> TransactionRow;
  cohort : Z;
  purchase_month : Z
}.

Section Cohorts.
(** [Timestamp.to_period('M')]: the month a timestamp falls in, months
    being numbered consecutively. *)
Variable to_period_M : Z → Z.

Definition _prepare_cohort_data (transactions : list TransactionRow)
  : list CohortRow :=
  (λ t : TransactionRow,
     mkCohortRow t (to_period_M (transaction_date t))
                   (to_period_M (transaction_date t))) <$> transactions.

End Cohorts.

(** [groupby(['cohort', 'purchase_month'])]: one group per distinct pair,
    pairs in lexicographic order. *)
Definition pair_lt (a b : Z * Z) : bool :=
  (a.1 <? b.1) || ((a.1 =? b.1) && (a.2 <? b.2)).

Definition pair_eqb (a b : Z * Z) : bool :=
  (a.1 =? b.1) && (a.2 =? b.2).

Fixpoint insert_pair (k : Z * Z) (ks : list (Z * Z)) : list (Z * Z) :=
  match ks with
  | [] => [k]
  | k' :: ks' =>
      if pair_lt k k' then k :: ks
      else if pair_eqb k k' then ks
      else k' :: insert_pair k ks'
  end.

Definition cohort_keys (cohort_data : list CohortRow) : list (Z * Z) :=
  foldr insert_pair [] ((λ r, (cohort r, purchase_month r)) <$> cohort_data).

(** [Series.nunique()] *)
Definition nunique (l : list Z) : Z :=
  Z.of_nat (length (foldr insert_key [] l)).

(** A row of [grouping.reset_index()]; the count of customers keeps the
    column name customer_id. *)
Record CohortCount := mkCohortCount {
  cc_cohort : Z;
  cc_purchase_month : Z;
  cc_customer_id : Z
}.

(** [(purchase_month - cohort).apply(lambda x: x.n)] *)
Definition period_number (r : CohortCount) : Z :=
  cc_purchase_month r - cc_cohort r.

Definition count_customers (cohort_data : list CohortRow) (k : Z * Z)
  : CohortCount :=
  mkCohortCount k.1 k.2
    (nunique ((λ r : CohortRow, customer_id r) <$>
              filter (λ r, cohort r = k.1 ∧ purchase_month r = k.2) cohort_data)).

(** A cell of [pivot_table(..., aggfunc='sum')]: the sum over the rows of
    that cohort and period, missing when there is none. *)
Definition pivot_sum (data : list CohortCount) (c p : Z) : option Z :=
  match filter (λ r, cc_cohort r = c ∧ period_number r = p) data with
  | [] => None
  | rs => Some (foldr Z.add 0 (cc_customer_id <$> rs))
  end.

Record Matrix := mkMatrix {
  m_index : list Z;
  m_columns : list Z;
  m_values : list (list Value)
}.

(** One cell of [DataFrame.divide]: true division, missing if either
    side is. *)
Definition divide_cell (x d : option Z) : Value :=
  match x, d with
  | Some a, Some b => float_div (inject_Z a) (inject_Z b)
  | _, _ => VNaN
  end.

Definition _calculate_retention_matrix (cohort_data : list CohortRow)
  : Outcome Matrix :=
  (* Count unique customers by cohort and purchase month *)
  let grouping := count_customers cohort_data <$> cohort_keys cohort_data in
  (* Create retention matrix *)
  let index := foldr insert_key [] (cc_cohort <$> grouping) in
  let columns := foldr insert_key [] (period_number <$> grouping) in
  let retention_matrix :=
    (λ c, pivot_sum grouping c <$> columns) <$> index in
  (* Calculate retention rates: retention_matrix[0] is the column
     labelled 0 *)
  match list_find (λ p, p = 0) columns with
  | None => Raise (KeyError "0")
  | Some (j, _) =>
      Return (mkMatrix index columns
                ((λ row, (λ x, divide_cell x (default None (row !! j))) <$> row)
                 <$> retention_matrix))
  end.

(** ** Concrete files used in the examples *)

Definition sort_by_date : list TransactionRow → list TransactionRow :=
  merge_sort date_le.

Definition sample_customers : list Customer.t :=
  [ Customer.mk 0 (day 0) 30 "F" "Low";
    Customer.mk 1 (day 1) 45 "M" "High" ].

Definition sample_rows : list TransactionRow :=
  [ mkTransactionRow (mkTransaction 1 (day 20) 140) "Food";
    mkTransactionRow (mkTransaction 0 (day 3) 50) "Home";
    mkTransactionRow (mkTransaction 7 (day 5) 10) "Other";
    mkTransactionRow (mkTransaction 1 (day 20) 140) "Food";
    mkTransactionRow (mkTransaction 1 (day 10) 100) "Food";
    mkTransactionRow (mkTransaction 0 (day 45) 60) "Food" ].

(** The customer of a transaction row is in the customers table. *)
Definition known_customer (customers : list Customer.t) (r : TransactionRow)
  : Prop :=
  customer_id r ∈ Customer.customer_id <$> customers.

(** ** main.py: the analysis steps of [main] *)

Section Main.
Context `{Lifetimes}.

(** A frame returned by a call is a new object of the store. *)
Definition new_frame (df : DataFrame) : Py World loc := λ w,
  let l := fresh (dom (frames w)) in
  (Return l, mkWorld (self w) (<[l := df]> (frames w))).

(** [clv_calculator = CLVCalculator()] *)
Definition new_CLVCalculator (cfg : Config) : Py World unit := λ w,
  (Return (), mkWorld (CLVCalculator_init cfg) (frames w)).

(** The steps of [main] between loading the data and plotting: RFM
    metrics, scores (quartiles, the default), segments, the two models,
    predicted value and value tiers. *)
Definition main_analysis (cfg : Config) (transactions : list Transaction)
  : Py World loc :=
  df ← lift_outcome (calculate_rfm transactions None);
  rfm_data ← new_frame df;
  rfm_data ← on_frames (add_rfm_scores rfm_data true);
  rfm_data ← on_frames (get_customer_segment rfm_data);
  new_CLVCalculator cfg;;
  fit_models rfm_data;;
  rfm_data ← predict_clv rfm_data;
  get_clv_segments rfm_data.

End Main.

(** The columns the analysis adds to the table of calculate_rfm. *)
Definition analysis_columns : list string :=
  score_columns ++ ["Customer_Segment"] ++ ["predicted_transactions"; "clv"]
  ++ ["clv_segment"].

(** A world with no frame yet. *)
Definition empty_world : @World stand_in :=
  @mkWorld stand_in (@CLVCalculator_init stand_in sample_config) ∅.

(** ** Further concrete data *)

Definition two_rfm : DataFrame := frame_of (calculate_rfm two_customers None).

(** Two customers, the first with a refund as only transaction. *)
Definition refund_customers : list Transaction :=
  [ mkTransaction 0 (day 0) (-20); mkTransaction 1 (day 3) 50 ].

Definition refund_rfm : DataFrame :=
  frame_of (calculate_rfm refund_customers None).

(** The table of the five customers with the same clv on every row. *)
Definition flat_clv_frame : DataFrame :=
  mkDataFrame (df_index five_rfm)
    (<["clv" := replicate 5 (VFloat 10)]> (df_columns five_rfm)).

Definition scored_row : Row :=
  <["R_score" := VInt 4]> (<["F_score" := VInt 3]> (<["M_score" := VInt 3]>
    (<["RFM_Score" := VStr "433"]> ∅))).

(** Periods of thirty days, standing for months. *)
Definition thirty_days (ts : Z) : Z := ts / (30 * ns_per_day).

(** The calculator after a fit_models call that failed in the
    Gamma-Gamma fit (the first customer's average spend is negative). *)
Definition half_fitted : @World stand_in :=
  (@fit_models stand_in 1%positive (fresh_world refund_rfm)).2.

(** A new calculator and the segmented table of the five customers. *)
Definition five_segmented_world : @World stand_in :=
  @mkWorld stand_in (@CLVCalculator_init stand_in sample_config) five_segmented.

(** A scored table without rows. *)
Definition no_rows_scored : DataFrame :=
  mkDataFrame []
    (<["RFM_Score" := []]> (<["M_score" := []]> (<["F_score" := []]>
       (<["R_score" := []]> ∅)))).

(** * Properties *)

(** ** calculate_rfm on the test scenario *)

(** C1 (as the code behaves). On the three-customer scenario with the
    analysis date on day 45, calculate_rfm gives customer 1 frequency 2,
    monetary_sum 300, monetary_avg 150 and recency 31, and customer 3
    frequency 3, monetary_sum 1200 and monetary_avg 400; but T of
    customer 1 is NaN, not 45: the first-purchase series is indexed by
    customer_id and is aligned on the table's positional index 0,1,2, so
    the 45 of customer 1 lands on the row of customer 2. *)
Theorem C1_scenario_T_misaligned :
  ∃ rfm, calculate_rfm sample_transactions (Some (day 45)) = Return rfm ∧
    df_index rfm = [0; 1; 2] ∧
    df_columns rfm !! "customer_id" = Some [VInt 1; VInt 2; VInt 3] ∧
    cell rfm "frequency" 0 = Some (VInt 2) ∧
    cell_eq_num rfm "monetary_sum" 0 300 = true ∧
    cell_eq_num rfm "monetary_avg" 0 150 = true ∧
    cell rfm "recency" 0 = Some (VInt 31) ∧
    cell rfm "T" 0 = Some VNaN ∧
    cell rfm "frequency" 2 = Some (VInt 3) ∧
    cell_eq_num rfm "monetary_sum" 2 1200 = true ∧
    cell_eq_num rfm "monetary_avg" 2 400 = true ∧
    df_columns rfm !! "T" = Some [VNaN; VFloat 45; VFloat 26] ∧
    agg_T (Some (day 45)) (get_group sample_transactions 1) = Return (VInt 45).
Proof.
  eexists. split; [vm_compute; reflexivity |].
  repeat split; vm_compute; reflexivity.
Qed.

(** ** Grouping and aggregation *)

Section GroupBy.
Implicit Types (k : Z) (ks : list Z) (t : Transaction)
  (transactions g : list Transaction).

Lemma insert_key_elem k x ks : x ∈ insert_key k ks ↔ x = k ∨ x ∈ ks.
Proof.
  induction ks as [|k' ks IH]; simpl.
  - by rewrite list_elem_of_singleton, elem_of_nil; intuition.
  - destruct (Z.ltb_spec k k').
    + by rewrite elem_of_cons.
    + destruct (Z.eqb_spec k k') as [-> | Hne].
      * rewrite elem_of_cons. tauto.
      * rewrite !elem_of_cons, IH. tauto.
Qed.

Lemma group_keys_elem k transactions :
  k ∈ group_keys transactions ↔ ∃ t, t ∈ transactions ∧ customer_id t = k.
Proof.
  unfold group_keys. induction transactions as [|t ts IH]; simpl.
  - split; [intros Hk; inversion Hk | intros (t & Ht & _); inversion Ht].
  - rewrite insert_key_elem, IH. split.
    + intros [-> | (t' & Ht' & <-)].
      * exists t. split; [left | done].
      * exists t'. split; [by right | done].
    + intros (t' & Ht' & <-). apply elem_of_cons in Ht' as [-> | Ht'].
      * by left.
      * right. by exists t'.
Qed.

Lemma insert_key_sorted k ks :
  StronglySorted Z.lt ks → StronglySorted Z.lt (insert_key k ks).
Proof.
  induction 1 as [|k' ks Hs IH Hall]; simpl.
  - repeat constructor.
  - destruct (Z.ltb_spec k k').
    + constructor; [by constructor |].
      constructor; [done |].
      eapply Forall_impl; [exact Hall | intros; simpl in *; lia].
    + destruct (Z.eqb_spec k k'); [by constructor |].
      constructor; [done |].
      apply Forall_forall. intros x Hx.
      apply insert_key_elem in Hx as [-> | Hx]; [lia |].
      by eapply Forall_forall in Hall.
Qed.

Lemma group_keys_sorted transactions :
  StronglySorted Z.lt (group_keys transactions).
Proof.
  unfold group_keys. induction (customer_id <$> transactions); simpl.
  - constructor.
  - by apply insert_key_sorted.
Qed.

Lemma sorted_lt_NoDup ks : StronglySorted Z.lt ks → NoDup ks.
Proof.
  induction 1 as [|k ks Hs IH Hall]; constructor; [| done].
  intros Hin. eapply Forall_forall in Hall; [| exact Hin]. lia.
Qed.

Lemma group_keys_NoDup transactions : NoDup (group_keys transactions).
Proof. apply sorted_lt_NoDup, group_keys_sorted. Qed.

Lemma get_group_elem t k transactions :
  t ∈ get_group transactions k ↔ t ∈ transactions ∧ customer_id t = k.
Proof. unfold get_group. by rewrite list_elem_of_filter, (comm and). Qed.

(** A key of the grouping has at least one transaction. *)
Lemma get_group_nonempty k transactions :
  k ∈ group_keys transactions → get_group transactions k ≠ [].
Proof.
  intros (t & Ht & Hk)%group_keys_elem Hnil.
  assert (t ∈ get_group transactions k) as Hin by by apply get_group_elem.
  rewrite Hnil in Hin. inversion Hin.
Qed.

Lemma Series_max_spec (l : list Z) :
  l ≠ [] → ∃ m, Series_max l = Some m ∧ m ∈ l ∧ ∀ x, x ∈ l → x ≤ m.
Proof.
  destruct l as [|x xs]; [done | intros _]. simpl. eexists. split; [done |].
  induction xs as [|y ys [IH1 IH2]]; simpl.
  - split; [left |]. intros z ->%list_elem_of_singleton. lia.
  - split.
    + destruct (Z.max_spec y (foldr Z.max x ys)) as [[_ ->] | [_ ->]].
      * apply elem_of_cons in IH1 as [-> | ?]; [left | right; by right].
      * right; left.
    + intros z Hz. apply elem_of_cons in Hz as [-> | Hz].
      * specialize (IH2 x ltac:(left)). lia.
      * apply elem_of_cons in Hz as [-> | Hz]; [lia |].
        specialize (IH2 z ltac:(by right)). lia.
Qed.

Lemma Series_min_spec (l : list Z) :
  l ≠ [] → ∃ m, Series_min l = Some m ∧ m ∈ l ∧ ∀ x, x ∈ l → m ≤ x.
Proof.
  destruct l as [|x xs]; [done | intros _]. simpl. eexists. split; [done |].
  induction xs as [|y ys [IH1 IH2]]; simpl.
  - split; [left |]. intros z ->%list_elem_of_singleton. lia.
  - split.
    + destruct (Z.min_spec y (foldr Z.min x ys)) as [[_ ->] | [_ ->]].
      * right; left.
      * apply elem_of_cons in IH1 as [-> | ?]; [left | right; by right].
    + intros z Hz. apply elem_of_cons in Hz as [-> | Hz].
      * specialize (IH2 x ltac:(left)). lia.
      * apply elem_of_cons in Hz as [-> | Hz]; [lia |].
        specialize (IH2 z ltac:(by right)). lia.
Qed.

Lemma days_mono a b : a ≤ b → days a ≤ days b.
Proof. intros. unfold days, ns_per_day. by apply Z.div_le_mono. Qed.

(** What the two date aggregates return on a customer's group. *)
Lemma agg_recency_Return a g v :
  g ≠ [] → agg_recency (Some a) g = Return v →
  ∃ last, Series_max (transaction_date <$> g) = Some last ∧
    fits_int64 (a - last) = true ∧ v = VInt (days (a - last)).
Proof.
  intros Hg. unfold agg_recency, days_between.
  assert (transaction_date <$> g ≠ []) as Hd by by destruct g.
  destruct (Series_max_spec _ Hd) as (M & -> & _).
  destruct (fits_int64 (a - M)) eqn:Hfit; [| done].
  intros [= <-]. by exists M.
Qed.

Lemma agg_T_Return a g v :
  g ≠ [] → agg_T (Some a) g = Return v →
  ∃ first, Series_min (transaction_date <$> g) = Some first ∧
    fits_int64 (a - first) = true ∧ v = VInt (days (a - first)).
Proof.
  intros Hg. unfold agg_T, days_between.
  assert (transaction_date <$> g ≠ []) as Hd by by destruct g.
  destruct (Series_min_spec _ Hd) as (m & -> & _).
  destruct (fits_int64 (a - m)) eqn:Hfit; [| done].
  intros [= <-]. by exists m.
Qed.

(** Within one customer's own group the intended invariant holds:
    days since the last purchase are at most days since the first. *)
Lemma group_recency_le_T a g vr vT :
  g ≠ [] →
  agg_recency (Some a) g = Return vr → agg_T (Some a) g = Return vT →
  ∃ r T, vr = VInt r ∧ vT = VInt T ∧ r ≤ T.
Proof.
  intros Hg Hr HT.
  apply agg_recency_Return in Hr as (M & HM & _ & ->); [| done].
  apply agg_T_Return in HT as (m & Hm & _ & ->); [| done].
  assert (transaction_date <$> g ≠ []) as Hd by by destruct g.
  destruct (Series_max_spec _ Hd) as (M' & HM' & HMin & _).
  destruct (Series_min_spec _ Hd) as (m' & Hm' & _ & Hmle).
  simplify_eq. do 2 eexists. repeat split. apply days_mono.
  specialize (Hmle M HMin). lia.
Qed.

End GroupBy.

(** ** Traversals that may raise *)

Lemma mapM_Return_inv {A B} (f : A → Outcome B) (l : list A) (ys : list B) :
  mapM f l = Return ys → Forall2 (λ x y, f x = Return y) l ys.
Proof.
  revert ys. induction l as [|x l IH]; intros ys; simpl.
  - intros [= <-]. constructor.
  - destruct (f x) as [y|] eqn:Hx; [| done]. cbn [mbind Outcome_bind].
    destruct (mapM f l) as [ys'|]; [| done]. cbn [mbind Outcome_bind].
    intros [= <-]. constructor; [done | by apply IH].
Qed.

Lemma mapM_ext {A B} (f g : A → Outcome B) (l : list A) :
  (∀ x, x ∈ l → f x = g x) → mapM f l = mapM g l.
Proof.
  induction l as [|x l IH]; intros Hfg; [done |].
  simpl. rewrite (Hfg x) by left.
  by rewrite IH by (intros y Hy; apply Hfg; by right).
Qed.

(** ** The table built by calculate_rfm *)

Section CalculateRFM.
Variables (transactions : list Transaction) (analysis_date : option Z).

Let keys := group_keys transactions.
Let groups := get_group transactions <$> keys.

(** What a call of calculate_rfm that returns has computed. *)
Lemma calculate_rfm_columns rfm :
  calculate_rfm transactions analysis_date = Return rfm →
  ∃ a recency Ts,
    analysis_date_or_default transactions analysis_date = Return a ∧
    mapM (agg_recency a) groups = Return recency ∧
    mapM (agg_T a) groups = Return Ts ∧
    df_index rfm = RangeIndex (length keys) ∧
    df_columns rfm !! "customer_id" = Some (VInt <$> keys) ∧
    df_columns rfm !! "recency" = Some recency ∧
    df_columns rfm !! "frequency" = Some (agg_frequency <$> groups) ∧
    df_columns rfm !! "monetary_sum" = Some (agg_monetary_sum <$> groups) ∧
    df_columns rfm !! "monetary_avg" = Some (agg_monetary_avg <$> groups) ∧
    df_columns rfm !! "T" = Some (T_column keys Ts).
Proof.
  unfold calculate_rfm. fold keys groups.
  destruct (analysis_date_or_default _ _) as [a|]; [| done].
  cbn [mbind Outcome_bind].
  destruct (mapM (agg_recency a) groups) as [recency|] eqn:Hrec; [| done].
  cbn [mbind Outcome_bind].
  destruct (mapM (agg_T a) groups) as [Ts|] eqn:HT; [| done].
  cbn [mbind Outcome_bind].
  unfold setitem, T_column. cbn [s_index s_values df_index].
  rewrite (bool_decide_true (NoDup _)) by apply group_keys_NoDup.
  case_bool_decide; intros [= <-]; exists a, recency, Ts;
    repeat (split; [done |]); cbn [df_index df_columns];
    repeat split; by simplify_map_eq.
Qed.

Lemma groups_lookup i g :
  groups !! i = Some g → ∃ k, keys !! i = Some k ∧ k ∈ keys ∧
    g = get_group transactions k ∧ g ≠ [].
Proof.
  unfold groups. rewrite list_lookup_fmap.
  destruct (keys !! i) as [k|] eqn:Hk; [| done]. intros [= <-].
  assert (k ∈ keys) by by eapply list_elem_of_lookup_2.
  exists k. repeat split; [done |]. by apply get_group_nonempty.
Qed.

End CalculateRFM.

Lemma select_all_true {A} (mask : list bool) (l : list A) :
  Forall (λ b, b = true) mask → length mask = length l → select mask l = l.
Proof.
  intros Hall. revert l.
  induction Hall as [|b mask -> _ IH]; intros [|x l] Hlen; simplify_eq/=;
    [done |]. by rewrite IH.
Qed.

Lemma to_numeric_ints (zs : list Z) :
  to_numeric (VInt <$> zs) = Return ((λ z, Some (inject_Z z)) <$> zs).
Proof.
  induction zs as [|z zs IH]; [done |].
  rewrite !fmap_cons. cbn [to_numeric]. by rewrite IH.
Qed.

Lemma gt_zero_pos (z : Z) : 0 < z → gt_zero (Some (inject_Z z)) = true.
Proof.
  intros Hz. unfold gt_zero. apply negb_true_iff.
  destruct (Qle_bool (inject_Z z) 0) eqn:Hle; [| done].
  apply Qle_bool_iff in Hle. change 0%Q with (inject_Z 0) in Hle.
  rewrite <- Zle_Qle in Hle. lia.
Qed.

Lemma value_le_ints (x y : Z) : value_le (VInt x) (VInt y) = true ↔ x ≤ y.
Proof. unfold value_le; simpl. by rewrite Qle_bool_iff, <- Zle_Qle. Qed.

Lemma Series_max_dates (transactions : list Transaction) m :
  Series_max (transaction_date <$> transactions) = Some m →
  (∃ t, t ∈ transactions ∧ transaction_date t = m) ∧
  ∀ t, t ∈ transactions → transaction_date t ≤ m.
Proof.
  intros Hm.
  destruct (Series_max_spec (transaction_date <$> transactions))
    as (m' & Hm' & Hin & Hle); [by destruct transactions |].
  rewrite Hm in Hm'. injection Hm' as <-. split.
  - apply list_elem_of_fmap in Hin as (t & -> & Ht). eauto.
  - intros t Ht. apply Hle, list_elem_of_fmap. eauto.
Qed.

(** The default analysis date of a non-empty input. *)
Lemma default_analysis_date_Return (transactions : list Transaction) a :
  transactions ≠ [] → default_analysis_date transactions = Return a →
  ∃ m, Series_max (transaction_date <$> transactions) = Some m ∧
       a = Some (m + 1 * ns_per_day).
Proof.
  intros Hne. unfold default_analysis_date.
  destruct (Series_max_spec (transaction_date <$> transactions))
    as (m & -> & _); [by destruct transactions |].
  destruct (fits_int64 _); [| done]. intros [= <-]. eauto.
Qed.

(** With the default analysis date, the recency of any non-empty part of
    the input is at least one day. *)
Lemma recency_default_positive (transactions g : list Transaction) m v :
  g ≠ [] → (∀ t, t ∈ g → t ∈ transactions) →
  Series_max (transaction_date <$> transactions) = Some m →
  agg_recency (Some (m + 1 * ns_per_day)) g = Return v →
  ∃ last, Series_max (transaction_date <$> g) = Some last ∧
    v = VInt ((m + 1 * ns_per_day - last) / ns_per_day) ∧
    1 ≤ (m + 1 * ns_per_day - last) / ns_per_day.
Proof.
  intros Hg Hsub Hm Hv.
  apply agg_recency_Return in Hv as (last & Hlast & _ & ->); [| done].
  exists last. split; [done |]. split; [done |].
  destruct (Series_max_spec (transaction_date <$> g))
    as (last' & Hlast' & Hin & _); [by destruct g |].
  rewrite Hlast in Hlast'. injection Hlast' as <-.
  apply list_elem_of_fmap in Hin as (t & -> & Ht).
  destruct (Series_max_dates _ _ Hm) as [_ Hle].
  specialize (Hle t (Hsub t Ht)).
  replace (m + 1 * ns_per_day - transaction_date t)
    with ((m - transaction_date t) + 1 * ns_per_day) by lia.
  rewrite Z.div_add by done.
  assert (0 ≤ (m - transaction_date t) / ns_per_day); [| lia].
  apply Z.div_pos; [lia | done].
Qed.

Lemma group_keys_nonempty (transactions : list Transaction) :
  transactions ≠ [] → group_keys transactions ≠ [].
Proof.
  destruct transactions as [|t ts]; [done | intros _ Hnil].
  assert (customer_id t ∈ group_keys (t :: ts)) as Hin
    by (apply group_keys_elem; exists t; split; [left | done]).
  rewrite Hnil in Hin. inversion Hin.
Qed.

(** The cell of a column computed group by group. *)
Lemma Forall2_groups_lookup {B} (transactions : list Transaction)
    (f : list Transaction → Outcome B) (vs : list B) i k :
  Forall2 (λ g v, f g = Return v)
    (get_group transactions <$> group_keys transactions) vs →
  group_keys transactions !! i = Some k →
  ∃ v, vs !! i = Some v ∧ f (get_group transactions k) = Return v.
Proof.
  intros Hall Hk.
  destruct (Forall2_lookup_l _ _ _ i (get_group transactions k) Hall)
    as (v & Hv & Hf); [by rewrite list_lookup_fmap, Hk |].
  eauto.
Qed.

(** C7. A call of calculate_rfm with analysis_date omitted that returns
    returns what the call with analysis_date set to the maximum
    transaction_date of the whole input plus one day returns; its table
    has one row per customer of the input, and on the row of each
    customer recency is the whole number of days from that customer's
    last purchase to that date, which is >= 0. *)
Theorem C7_default_date_recency_nonneg
    (transactions : list Transaction) (rfm : DataFrame) :
  transactions ≠ [] →
  calculate_rfm transactions None = Return rfm →
  ∃ m ids,
    (∃ t, t ∈ transactions ∧ transaction_date t = m) ∧
    (∀ t, t ∈ transactions → transaction_date t ≤ m) ∧
    calculate_rfm transactions (Some (m + 1 * ns_per_day)) = Return rfm ∧
    df_index rfm = RangeIndex (length ids) ∧
    df_columns rfm !! "customer_id" = Some (VInt <$> ids) ∧
    ids ≠ [] ∧
    (∀ c, c ∈ ids ↔ ∃ t, t ∈ transactions ∧ customer_id t = c) ∧
    ∀ i c, ids !! i = Some c →
      ∃ last r,
        Series_max (transaction_date <$> get_group transactions c)
        = Some last ∧
        r = (m + 1 * ns_per_day - last) / ns_per_day ∧
        cell rfm "recency" i = Some (VInt r) ∧ 0 ≤ r.
Proof.
  intros Hne Hrun.
  destruct (calculate_rfm_columns _ _ _ Hrun)
    as (a & recency & Ts & Ha & Hrec & _ & Hidx & Hid & Hcol & _).
  simpl in Ha.
  destruct (default_analysis_date_Return _ _ Hne Ha) as (m & Hm & ->).
  destruct (Series_max_dates _ _ Hm) as [Hin Hle].
  exists m, (group_keys transactions).
  split; [done |]. split; [done |]. split.
  { unfold calculate_rfm in *. simpl in *. by rewrite Ha in Hrun. }
  split; [done |]. split; [done |].
  split; [by apply group_keys_nonempty |].
  split; [intros c; apply group_keys_elem |].
  intros i c Hc. apply mapM_Return_inv in Hrec.
  destruct (Forall2_groups_lookup _ _ _ _ _ Hrec Hc) as (v & Hv & Hagg).
  assert (c ∈ group_keys transactions) as Hcin
    by by eapply list_elem_of_lookup_2.
  destruct (recency_default_positive transactions (get_group transactions c)
              m v) as (last & Hlast & -> & Hpos); try done.
  { by apply get_group_nonempty. }
  { by intros t [? _]%get_group_elem. }
  exists last, ((m + 1 * ns_per_day - last) / ns_per_day).
  split; [done |]. split; [done |]. split; [| lia].
  unfold cell. rewrite Hcol. simpl. exact Hv.
Qed.

Lemma analysis_date_is_Some (transactions : list Transaction) ad a :
  transactions ≠ [] →
  analysis_date_or_default transactions ad = Return a → ∃ d, a = Some d.
Proof.
  intros Hne. destruct ad as [d|]; simpl; [intros [= <-]; eauto |].
  intros Ha. destruct (default_analysis_date_Return _ _ Hne Ha) as (m & _ & ->).
  eauto.
Qed.

(** When the customer ids are exactly 0 .. n-1 the T series lines up with
    the rows, and every row of a returned table has recency <= T. *)
Lemma recency_le_T_aligned (transactions : list Transaction) ad rfm :
  group_keys transactions = RangeIndex (length (group_keys transactions)) →
  calculate_rfm transactions ad = Return rfm →
  ∀ i, (i < length (df_index rfm))%nat → recency_le_T rfm i = true.
Proof.
  intros Hal Hrun i Hi.
  destruct (calculate_rfm_columns _ _ _ Hrun)
    as (a & recency & Ts & Ha & Hrec & HTs & Hidx & _ & Hcol & _ & _ & _ & HT).
  unfold T_column in HT. rewrite bool_decide_true in HT by done.
  unfold recency_le_T, cell. rewrite Hcol, HT. simpl.
  rewrite Hidx in Hi. unfold RangeIndex in Hi.
  rewrite length_fmap, length_seq in Hi.
  destruct (lookup_lt_is_Some_2 (group_keys transactions) i Hi) as [k Hk].
  assert (k ∈ group_keys transactions) as Hin
    by by eapply list_elem_of_lookup_2.
  pose proof (get_group_nonempty _ _ Hin) as Hne.
  apply mapM_Return_inv in Hrec, HTs.
  destruct (Forall2_groups_lookup _ _ _ _ _ Hrec Hk) as (vr & -> & Hvr).
  destruct (Forall2_groups_lookup _ _ _ _ _ HTs Hk) as (vT & -> & HvT).
  destruct (analysis_date_is_Some transactions ad a) as [d ->]; [| done |].
  { apply group_keys_elem in Hin as (t & Ht & _). by destruct transactions;
      [inversion Ht |]. }
  destruct (group_recency_le_T d _ _ _ Hne Hvr HvT) as (r & T & -> & -> & Hle).
  by apply value_le_ints.
Qed.

(** An analysis date more than 2^63 - 1 nanoseconds (about 292 years)
    after a purchase: the difference does not fit a Timedelta and
    calculate_rfm raises. *)
Example calculate_rfm_overflow :
  calculate_rfm [mkTransaction 1 (day 0) 100] (Some (day 182622))
  = Raise int64_overflow.
Proof. vm_compute; reflexivity. Qed.

(** C3 (as the code behaves). With customers numbered 1 and 2, customer
    1 buying on day 40 and customer 2 on day 0, and the analysis date on
    day 45, the row of customer 2 has recency 45 and T 5 (the T of
    customer 1), and the row of customer 1 has T NaN: recency <= T fails
    on both rows. *)
Theorem C3_recency_exceeds_T_when_ids_not_positional :
  ∃ rfm, calculate_rfm two_customers (Some (day 45)) = Return rfm ∧
    df_columns rfm !! "customer_id" = Some [VInt 1; VInt 2] ∧
    df_columns rfm !! "frequency" = Some [VInt 1; VInt 1] ∧
    df_columns rfm !! "recency" = Some [VInt 5; VInt 45] ∧
    df_columns rfm !! "T" = Some [VNaN; VFloat 5] ∧
    recency_le_T rfm 0 = false ∧
    recency_le_T rfm 1 = false.
Proof.
  eexists. split; [vm_compute; reflexivity |].
  repeat split; vm_compute; reflexivity.
Qed.

(** The same input with the customers numbered 0 and 1 is aligned. *)
Example recency_le_T_aligned_example :
  ∃ rfm,
    calculate_rfm [mkTransaction 0 (day 40) 100; mkTransaction 1 (day 0) 100]
      (Some (day 45)) = Return rfm ∧
    df_columns rfm !! "recency" = Some [VInt 5; VInt 45] ∧
    df_columns rfm !! "T" = Some [VInt 5; VInt 45].
Proof.
  eexists. split; [vm_compute; reflexivity |].
  repeat split; vm_compute; reflexivity.
Qed.

(** ** Customer segments *)

Lemma segment_of_name (s : Scores) : segment_of s ∈ segment_names.
Proof.
  unfold segment_of, segment_names. simpl.
  repeat (match goal with |- context [if ?b then _ else _] => destruct b end;
          simpl; [set_solver |]).
  set_solver.
Qed.

(** segment_customer on a row that has the four score cells. *)
Lemma segment_customer_total (row : Row) :
  is_Some (row !! "RFM_Score") → is_Some (row !! "R_score") →
  is_Some (row !! "F_score") → is_Some (row !! "M_score") →
  segment_customer row = Return (segment_of (row_scores row)).
Proof.
  intros [s Hs] [r Hr] [f Hf] [m Hm].
  unfold segment_customer, row_getitem, segment_of, row_scores.
  rewrite Hs, Hr, Hf, Hm. simpl.
  unfold mbind, Outcome_bind, mret, Outcome_ret.
  repeat (match goal with |- context [if ?b then _ else _] => destruct b end;
          simpl; try done).
Qed.

Lemma mapM_Return {A B} (f : A → Outcome B) (g : A → B) (l : list A) :
  (∀ x, x ∈ l → f x = Return (g x)) → mapM f l = Return (g <$> l).
Proof.
  induction l as [|x l IH]; intros Hf; [done |].
  simpl. rewrite (Hf x) by left. simpl.
  rewrite IH by (intros y Hy; apply Hf; by right). done.
Qed.

Lemma row_at_lookup (df : DataFrame) (i : nat) (col : string) :
  row_at df i !! col = cell df col i.
Proof. unfold row_at, cell. by rewrite lookup_omap. Qed.

Lemma full_column_cell (df : DataFrame) col i :
  full_column df col → (i < length (df_index df))%nat →
  is_Some (cell df col i).
Proof.
  intros (vs & Hvs & Hlen) Hi. unfold cell. rewrite Hvs. simpl.
  apply lookup_lt_is_Some_2. lia.
Qed.

(** C2. On a table with at least one row whose four score columns are
    full, get_customer_segment returns the table it was given with a
    Customer_Segment column holding, on every row, the one label that the
    first-match priority list gives for that row's (RFM_Score, R_score,
    F_score, M_score); the label is one of the six segment names, and any
    row with the same four cells gets the same label. *)
Theorem C2_segment_first_match_total
    (h : gmap positive DataFrame) (rfm : loc) (df : DataFrame) :
  h !! rfm = Some df → df_index df ≠ [] →
  full_column df "RFM_Score" → full_column df "R_score" →
  full_column df "F_score" → full_column df "M_score" →
  ∃ segments,
    get_customer_segment rfm h =
      (Return rfm,
       <[rfm := mkDataFrame (df_index df)
                  (<["Customer_Segment" := VStr <$> segments]>
                     (df_columns df))]> h) ∧
    length segments = length (df_index df) ∧
    ∀ i, (i < length (df_index df))%nat →
      ∃ label, segments !! i = Some label ∧
        segment_customer (row_at df i) = Return label ∧
        label = segment_of (row_scores (row_at df i)) ∧
        label ∈ segment_names ∧
        ∀ row' : Row,
          (∀ c, c ∈ score_columns → row' !! c = row_at df i !! c) →
          segment_customer row' = Return label.
Proof.
  intros Hdf Hrows Hs Hr Hf Hm.
  assert (∀ i, (i < length (df_index df))%nat →
            segment_customer (row_at df i)
            = Return (segment_of (row_scores (row_at df i)))) as Hrow.
  { intros i Hi. apply segment_customer_total;
      rewrite row_at_lookup; by apply full_column_cell. }
  exists ((segment_of ∘ row_scores) <$> rows df). split; [| split].
  - unfold get_customer_segment, deref, py_setitem, lift_outcome, setitem.
    unfold mbind, Py_bind, mret, Py_ret. rewrite Hdf.
    destruct (df_index df) as [|x l] eqn:Hidx; [done |].
    rewrite <- Hidx in Hrow |- *.
    rewrite (mapM_Return _ (segment_of ∘ row_scores)).
    + rewrite Hdf. cbn [s_index s_values].
      by rewrite bool_decide_true.
    + intros row (i & -> & Hi%elem_of_seq)%list_elem_of_fmap.
      apply Hrow. lia.
  - unfold rows. by rewrite !length_fmap, length_seq.
  - intros i Hi. eexists. unfold rows.
    rewrite !list_lookup_fmap, lookup_seq_lt by done. simpl.
    split; [done |]. split; [by apply Hrow |]. split; [done |].
    split; [apply segment_of_name |]. intros row' Hsame.
    assert (∀ c, c ∈ score_columns → is_Some (row' !! c)) as Hsome.
    { intros c Hc. rewrite (Hsame c Hc), row_at_lookup.
      unfold score_columns in Hc.
      repeat (apply elem_of_cons in Hc as [-> | Hc]);
        [.. | by apply elem_of_nil in Hc]; by apply full_column_cell. }
    rewrite segment_customer_total by (apply Hsome; unfold score_columns;
      set_solver).
    do 2 f_equal. unfold row_scores.
    by rewrite !Hsame by (unfold score_columns; set_solver).
Qed.

(** ** Running a method: inversion of the monad's operations *)

Lemma bind_Return_inv {S A B} (m : Py S A) (f : A → Py S B) s b s' :
  (m ≫= f) s = (Return b, s') →
  ∃ a s1, m s = (Return a, s1) ∧ f a s1 = (Return b, s').
Proof.
  unfold mbind, Py_bind. destruct (m s) as [[a | e] s1]; [eauto | done].
Qed.

Lemma mret_inv {S A} (a b : A) (s s' : S) :
  (mret a : Py S A) s = (Return b, s') → b = a ∧ s' = s.
Proof. by intros [= -> ->]. Qed.

Lemma lift_outcome_inv {S A} (o : Outcome A) (s s' : S) a :
  lift_outcome o s = (Return a, s') → s' = s ∧ o = Return a.
Proof. by intros [= -> ->]. Qed.

Lemma py_getitem_inv rfm col (h h' : gmap positive DataFrame) ser :
  py_getitem rfm col h = (Return ser, h') →
  h' = h ∧ ∃ df, h !! rfm = Some df ∧ getitem df col = Return ser.
Proof.
  unfold py_getitem. destruct (h !! rfm) as [df|]; [| done].
  intros [= Hg ->]. eauto.
Qed.

Lemma setitem_inv df col ser df' :
  setitem df col ser = Return df' →
  ∃ vs, df' = mkDataFrame (df_index df) (<[col := vs]> (df_columns df)).
Proof.
  unfold setitem. repeat case_bool_decide; intros [= <-]; eauto.
Qed.

Lemma py_setitem_inv rfm col ser (h h' : gmap positive DataFrame) u :
  py_setitem rfm col ser h = (Return u, h') →
  ∃ df vs, h !! rfm = Some df ∧
    h' = <[rfm := mkDataFrame (df_index df)
                    (<[col := vs]> (df_columns df))]> h.
Proof.
  unfold py_setitem. destruct (h !! rfm) as [df|]; [| done].
  destruct (setitem df col ser) as [df' | e] eqn:Hset; [| done].
  intros [= _ <-]. apply setitem_inv in Hset as [vs ->]. eauto.
Qed.

Lemma deref_inv rfm (h h' : gmap positive DataFrame) df :
  deref rfm h = (Return df, h') → h' = h ∧ h !! rfm = Some df.
Proof.
  unfold deref. destruct (h !! rfm); [| done]. by intros [= -> ->].
Qed.

Lemma assigns_one col rfm (h : gmap positive DataFrame) df vs :
  h !! rfm = Some df →
  assigns [col] rfm h
    (<[rfm := mkDataFrame (df_index df) (<[col := vs]> (df_columns df))]> h).
Proof.
  intros Hdf. exists df. eexists. repeat split; [done |..]; simpl.
  - intros c Hc. rewrite lookup_insert_ne; [done |].
    intros ->. apply Hc. left.
  - intros c ->%list_elem_of_singleton. rewrite lookup_insert_eq. eauto.
Qed.

Lemma assigns_trans cols1 cols2 rfm (h1 h2 h3 : gmap positive DataFrame) :
  assigns cols1 rfm h1 h2 → assigns cols2 rfm h2 h3 →
  assigns (cols1 ++ cols2) rfm h1 h3.
Proof.
  intros (d1 & d2 & H1 & -> & Hi12 & Ho12 & Hn12)
         (d2' & d3 & H2 & -> & Hi23 & Ho23 & Hn23).
  rewrite lookup_insert_eq in H2. injection H2 as <-.
  exists d1, d3. repeat split.
  - done.
  - by rewrite insert_insert_eq.
  - congruence.
  - intros c Hc. rewrite not_elem_of_app in Hc. destruct Hc.
    rewrite Ho23, Ho12; done.
  - intros c Hc.
    destruct (decide (c ∈ cols2)) as [Hc2 | Hc2]; [by apply Hn23 |].
    rewrite Ho23 by done. apply Hn12. apply elem_of_app in Hc. tauto.
Qed.

Lemma py_setitem_assigns rfm col ser (h h' : gmap positive DataFrame) u :
  py_setitem rfm col ser h = (Return u, h') → assigns [col] rfm h h'.
Proof.
  intros (df & vs & Hdf & ->)%py_setitem_inv. by apply assigns_one.
Qed.

Ltac py_inv :=
  repeat match goal with
  | H : mbind _ _ _ = (Return _, _) |- _ =>
      apply bind_Return_inv in H as (? & ? & ? & ?)
  | H : py_getitem _ _ _ = (Return _, _) |- _ =>
      apply py_getitem_inv in H as (-> & ? & ? & ?)
  | H : lift_outcome _ _ = (Return _, _) |- _ =>
      apply lift_outcome_inv in H as (-> & ?)
  | H : deref _ _ = (Return _, _) |- _ =>
      apply deref_inv in H as (-> & ?)
  | H : py_setitem _ _ _ _ = (Return _, _) |- _ =>
      apply py_setitem_assigns in H
  | H : mret _ _ = (Return _, _) |- _ =>
      apply mret_inv in H as (-> & ->)
  | H : (let '(_, _) := ?p in _) _ = _ |- _ => destruct p
  end.

Ltac assigns_chain :=
  repeat match goal with
  | H1 : assigns ?c1 ?r ?h1 ?h2, H2 : assigns ?c2 ?r ?h2 ?h3 |- _ =>
      pose proof (assigns_trans _ _ _ _ _ _ H1 H2); clear H1 H2
  end.

Lemma add_rfm_scores_assigns rfm quartiles (h h' : gmap positive DataFrame) r :
  add_rfm_scores rfm quartiles h = (Return r, h') →
  r = rfm ∧ assigns score_columns rfm h h'.
Proof.
  unfold add_rfm_scores. intros Hrun. destruct quartiles; py_inv.
  all: assigns_chain; by split.
Qed.

Lemma get_customer_segment_assigns rfm (h h' : gmap positive DataFrame) r :
  get_customer_segment rfm h = (Return r, h') →
  r = rfm ∧ assigns ["Customer_Segment"] rfm h h'.
Proof.
  unfold get_customer_segment. intros Hrun.
  apply bind_Return_inv in Hrun as (df & h1 & Hd & Hrun).
  apply deref_inv in Hd as (-> & Hdf).
  apply bind_Return_inv in Hrun as (u & h2 & Hset & Hret).
  apply mret_inv in Hret as (-> & ->). split; [done |].
  destruct (df_index df).
  - destruct (map_to_list (df_columns df)) as [|[c vs] [|]];
      unfold raise in Hset; repeat case_bool_decide; try done.
    by apply py_setitem_assigns in Hset.
  - by py_inv.
Qed.

(** On a scored table without rows get_customer_segment raises: apply
    returns a frame, which cannot be assigned to one column. *)
Example get_customer_segment_no_rows :
  ∃ msg, get_customer_segment 1%positive (store1 no_rows_scored)
         = (Raise (ValueError msg), store1 no_rows_scored).
Proof. eexists. vm_compute; reflexivity. Qed.

(** ** The CLV calculator *)

Section CLVProperties.
Context `{Lifetimes}.

Lemma on_frames_inv {A} (m : Py Heap A) (w w' : World) a :
  on_frames m w = (Return a, w') →
  ∃ h', m (frames w) = (Return a, h') ∧ w' = mkWorld (self w) h'.
Proof.
  unfold on_frames. destruct (m (frames w)) as [o h'].
  intros [= -> <-]. eauto.
Qed.

Lemma get_self_inv (w w' : World) c :
  get_self w = (Return c, w') → c = self w ∧ w' = w.
Proof. by intros [= <- <-]. Qed.

Lemma init_models_unset cfg : models_unset (CLVCalculator_init cfg).
Proof. by left. Qed.

(** The guard of predict_clv: when a model attribute is unset it raises
    ValueError("Models must be fit before predicting CLV"), and the
    calculator and every frame of the store are as they were. *)
Lemma predict_clv_guard (w : World) (rfm : loc) :
  models_unset (self w) → predict_clv rfm w = (Raise models_not_fit, w).
Proof.
  intros Hunset. unfold predict_clv, get_self. unfold mbind, Py_bind.
  destruct Hunset as [-> | Hgg]; [done |]. rewrite Hgg.
  by destruct (bgf_model (self w)).
Qed.

Lemma predict_clv_self (w : World) (rfm : loc) :
  self (predict_clv rfm w).2 = self w.
Proof.
  destruct w as [c fs].
  unfold predict_clv, get_self, on_frames, py_getitem, py_setitem,
    lift_outcome.
  unfold mbind, Py_bind, mret, Py_ret. simpl.
  repeat (case_match; simplify_eq/=; try done).
Qed.

Lemma get_clv_segments_self (w : World) (rfm : loc) :
  self (get_clv_segments rfm w).2 = self w.
Proof.
  destruct w as [c fs].
  unfold get_clv_segments, on_frames, py_getitem, py_setitem, lift_outcome.
  unfold mbind, Py_bind, mret, Py_ret. simpl.
  repeat (case_match; simplify_eq/=; try done).
Qed.

(** A result of predict_clv means both attributes were set. *)
Lemma predict_clv_assigns rfm (w w' : World) r :
  predict_clv rfm w = (Return r, w') →
  r = rfm ∧ self w' = self w ∧
  is_Some (bgf_model (self w)) ∧ is_Some (ggf_model (self w)) ∧
  assigns ["predicted_transactions"; "clv"] rfm (frames w) (frames w').
Proof.
  unfold predict_clv. intros Hrun.
  apply bind_Return_inv in Hrun as (c & w1 & [-> ->]%get_self_inv & Hrun).
  destruct (bgf_model (self w)) as [bgf|]; [| done].
  destruct (ggf_model (self w)) as [ggf|]; [| done].
  repeat match goal with
  | H : mbind _ _ _ = (Return _, _) |- _ =>
      apply bind_Return_inv in H as (? & ? & ? & ?)
  | H : lift_outcome _ _ = (Return _, _) |- _ =>
      apply lift_outcome_inv in H as (-> & ?)
  | H : mret _ _ = (Return _, _) |- _ =>
      apply mret_inv in H as (-> & ->)
  | H : on_frames _ _ = (Return _, _) |- _ =>
      apply on_frames_inv in H as (? & ? & ->)
  end.
  py_inv. simpl in *. assigns_chain. eauto 10.
Qed.

(** get_clv_segments, step by step: the lookup of the clv column, the
    quartile binning, the assignment; the calculator is not consulted. *)
Lemma get_clv_segments_run rfm (w : World) df :
  frames w !! rfm = Some df →
  get_clv_segments rfm w =
    match df_columns df !! "clv" with
    | None => (Raise (KeyError "clv"), w)
    | Some vs =>
        match qcut (mkSeries (df_index df) vs) 4 clv_labels with
        | Raise e => (Raise e, w)
        | Return segments =>
            (Return rfm,
             mkWorld (self w)
               (<[rfm := mkDataFrame (df_index df)
                   (<["clv_segment" := str_label_value <$> segments]>
                      (df_columns df))]> (frames w)))
        end
    end.
Proof.
  intros Hdf. destruct w as [c h]. simpl in Hdf.
  unfold get_clv_segments, on_frames, py_getitem, py_setitem, getitem,
    lift_outcome, with_index, setitem.
  unfold mbind, Py_bind, mret, Py_ret. simpl. rewrite Hdf.
  destruct (df_columns df !! "clv") as [vs|]; [| done].
  destruct (qcut _ 4 clv_labels) as [segments | e]; [| done].
  simpl. rewrite Hdf. simpl. by rewrite bool_decide_true.
Qed.

Lemma get_clv_segments_assigns rfm (w w' : World) r :
  get_clv_segments rfm w = (Return r, w') →
  r = rfm ∧ self w' = self w ∧
  assigns ["clv_segment"] rfm (frames w) (frames w').
Proof.
  unfold get_clv_segments. intros Hrun.
  repeat match goal with
  | H : mbind _ _ _ = (Return _, _) |- _ =>
      apply bind_Return_inv in H as (? & ? & ? & ?)
  | H : lift_outcome _ _ = (Return _, _) |- _ =>
      apply lift_outcome_inv in H as (-> & ?)
  | H : mret _ _ = (Return _, _) |- _ =>
      apply mret_inv in H as (-> & ->)
  | H : on_frames _ _ = (Return _, _) |- _ =>
      apply on_frames_inv in H as (? & ? & ->)
  end.
  py_inv. simpl in *. eauto.
Qed.

End CLVProperties.

(** C5 (as the code behaves). get_clv_segments has no sequencing check
    and does not consult the calculator: on a table without a clv column
    it fails with the KeyError of the column lookup and changes nothing;
    otherwise its outcome and the frames it leaves are the same whatever
    the state of the calculator. *)
Theorem C5_get_clv_segments_reads_clv_column `{Lifetimes}
    (w : World) (rfm : loc) (df : DataFrame) :
  frames w !! rfm = Some df →
  (df_columns df !! "clv" = None →
     get_clv_segments rfm w = (Raise (KeyError "clv"), w)) ∧
  (∀ c' : CLVCalculator,
     (get_clv_segments rfm (mkWorld c' (frames w))).1
       = (get_clv_segments rfm w).1 ∧
     frames (get_clv_segments rfm (mkWorld c' (frames w))).2
       = frames (get_clv_segments rfm w).2) ∧
  self (get_clv_segments rfm w).2 = self w.
Proof.
  intros Hdf. split; [| split].
  - intros Hclv. by rewrite (get_clv_segments_run _ _ _ Hdf), Hclv.
  - intros c'.
    rewrite (get_clv_segments_run _ _ _ Hdf),
      (get_clv_segments_run rfm (mkWorld c' (frames w)) df Hdf).
    destruct (df_columns df !! "clv"); [| done].
    by destruct (qcut _ 4 clv_labels).
  - rewrite (get_clv_segments_run _ _ _ Hdf).
    destruct (df_columns df !! "clv"); [| done].
    by destruct (qcut _ 4 clv_labels).
Qed.

(** C10. add_rfm_scores, get_customer_segment, predict_clv and
    get_clv_segments each return the reference they were given; the frame
    behind it keeps its index and every column other than the ones the
    method assigns, has the assigned columns, and no other object of the
    store is touched. *)
Theorem C10_methods_assign_in_place `{Lifetimes} :
  (∀ rfm quartiles (h h' : gmap positive DataFrame) r,
     add_rfm_scores rfm quartiles h = (Return r, h') →
     r = rfm ∧ assigns ["R_score"; "F_score"; "M_score"; "RFM_Score"] rfm h h') ∧
  (∀ rfm (h h' : gmap positive DataFrame) r,
     get_customer_segment rfm h = (Return r, h') →
     r = rfm ∧ assigns ["Customer_Segment"] rfm h h') ∧
  (∀ rfm (w w' : World) r,
     predict_clv rfm w = (Return r, w') →
     r = rfm ∧ self w' = self w ∧
     assigns ["predicted_transactions"; "clv"] rfm (frames w) (frames w')) ∧
  (∀ rfm (w w' : World) r,
     get_clv_segments rfm w = (Return r, w') →
     r = rfm ∧ self w' = self w ∧
     assigns ["clv_segment"] rfm (frames w) (frames w')).
Proof.
  repeat split.
  all: try (by eapply add_rfm_scores_assigns).
  all: try (by eapply get_customer_segment_assigns).
  all: try (by eapply predict_clv_assigns).
  all: by eapply get_clv_segments_assigns.
Qed.

(** ** Fixed-break scores *)

Lemma Qle_bool_false_lt (x y : Q) : (y < x)%Q → Qle_bool x y = false.
Proof.
  intros Hlt. destruct (Qle_bool x y) eqn:Hle; [| done].
  apply Qle_bool_iff in Hle. by apply Qlt_not_le in Hlt.
Qed.

(** The score of a metric value above the lowest edge [b0], for edges
    [b0 < b1 < b2 < b3 < inf] and labels [l1 .. l4]: the bins are
    (b0,b1], (b1,b2], (b2,b3], (b3,inf). *)
Lemma fixed_break_positive (b0 b1 b2 b3 : Q) (l1 l2 l3 l4 : Z) (x : Q) :
  (b0 < x)%Q →
  assign_label [Fin b0; Fin b1; Fin b2; Fin b3; Inf] [l1; l2; l3; l4]
    false (Some x)
  = Some (if Qle_bool x b1 then l1
          else if Qle_bool x b2 then l2
          else if Qle_bool x b3 then l3
          else l4).
Proof.
  intros Hx. unfold assign_label, bin_id. simpl.
  rewrite (Qle_bool_false_lt _ _ Hx). simpl.
  destruct (Qle_bool x b1); [done |]. simpl.
  destruct (Qle_bool x b2); [done |]. simpl.
  by destruct (Qle_bool x b3).
Qed.

(** A value on or below the lowest edge gets no score. *)
Lemma fixed_break_lowest (bins : list Edge) (labels : list Z) (b0 x : Q) :
  (x <= b0)%Q → assign_label (Fin b0 :: bins) labels false (Some x) = None.
Proof.
  intros Hx. unfold assign_label, bin_id. simpl.
  apply Qle_bool_iff in Hx. by rewrite Hx.
Qed.

(** Above the lowest edge every fixed-break score is one of 1, 2, 3, 4. *)
Lemma fixed_break_scores_in_range (x : Q) :
  (0 < x)%Q →
  (∃ s, assign_label recency_bins [4; 3; 2; 1] false (Some x) = Some s
        ∧ 1 ≤ s ≤ 4) ∧
  (∃ s, assign_label frequency_bins [1; 2; 3; 4] false (Some x) = Some s
        ∧ 1 ≤ s ≤ 4) ∧
  (∃ s, assign_label monetary_bins [1; 2; 3; 4] false (Some x) = Some s
        ∧ 1 ≤ s ≤ 4).
Proof.
  intros Hx. unfold recency_bins, frequency_bins, monetary_bins.
  rewrite !fixed_break_positive by done.
  repeat split; eexists; (split; [reflexivity |]);
    repeat (match goal with |- context [if ?b then _ else _] => destruct b end);
    lia.
Qed.

(** C6 (as the code behaves). In fixed-break mode a customer whose
    recency is 0 gets no R_score: on the test scenario with the analysis
    date on day 31, the day of the last purchase of customer 3, the
    recency column is 17, 12, 0 and the R_score column is 3, 3, NaN; the
    RFM_Score of that row is "nan23". The bins of [cut] are closed on the
    right and open on the left, so the lowest edge 0 belongs to no bin. *)
Theorem C6_fixed_breaks_recency_zero_unscored :
  ∃ rfm h',
    calculate_rfm sample_transactions (Some (day 31)) = Return rfm ∧
    add_rfm_scores 1%positive false (store1 rfm) = (Return 1%positive, h') ∧
    (h' !! 1%positive) ≫= (λ df, df_columns df !! "recency")
      = Some [VInt 17; VInt 12; VInt 0] ∧
    (h' !! 1%positive) ≫= (λ df, df_columns df !! "R_score")
      = Some [VInt 3; VInt 3; VNaN] ∧
    (h' !! 1%positive) ≫= (λ df, df_columns df !! "F_score")
      = Some [VInt 1; VInt 1; VInt 2] ∧
    (h' !! 1%positive) ≫= (λ df, df_columns df !! "M_score")
      = Some [VInt 2; VInt 2; VInt 3] ∧
    (h' !! 1%positive) ≫= (λ df, df_columns df !! "RFM_Score")
      = Some [VStr "312"; VStr "312"; VStr "nan23"] ∧
    assign_label recency_bins [4; 3; 2; 1] false (Some 0%Q) = None.
Proof.
  do 2 eexists. split; [vm_compute; reflexivity |].
  split; [vm_compute; reflexivity |].
  repeat split; vm_compute; reflexivity.
Qed.

(** ** Shares of total CLV *)



Lemma add_percentage_stats (summary : list SegmentStats) :
  stats <$> add_percentage summary = summary.
Proof.
  unfold add_percentage. rewrite <- list_fmap_compose.
  transitivity (id <$> summary); [by apply list_fmap_ext | apply list_fmap_id].
Qed.

(** The sum of a table's clv over the rows of one segment. *)
Lemma clv_sum_agg_segment segs c f m label :
  clv_sum (agg_segment segs c f m label)
  = Series_sum (omap id (select (is_label label <$> segs) c)).
Proof. done. Qed.

(** When every row with a clv value carries one of the four segment
    labels, the total of the per-segment sums is the sum of clv over the
    whole table (missing values skipped). *)
Lemma segment_sums_total (segs : list Value) (clv : list (option Q)) :
  Forall2 (λ s x, x = None ∨ ∃ l, l ∈ clv_labels ∧ s = VStr l) segs clv →
  (Series_sum
     ((λ l, Series_sum (omap id (select (is_label l <$> segs) clv)))
        <$> clv_labels)
   == Series_sum (omap id clv))%Q.
Proof.
  induction 1 as [|s x segs clv Hrow _ IH]; [simpl; ring |].
  unfold clv_labels in *. destruct Hrow as [-> | (l & Hl & ->)].
  - simpl in *. unfold omap, fmap in *.
    repeat (match goal with |- context [if ?b then _ else _] =>
              destruct b end; cbn [list_omap id]).
    all: rewrite <- IH; ring.
  - repeat (apply elem_of_cons in Hl as [-> | Hl]);
      [.. | by apply elem_of_nil in Hl];
      destruct x as [q|]; simpl in *; unfold omap, fmap in *;
      rewrite <- IH; ring.
Qed.

Lemma get_clv_summary_inv (rfm : DataFrame) (summary : list SummaryRow) :
  get_clv_summary rfm = Return summary →
  ∃ segs clv c f m,
    getitem rfm "clv_segment" = Return segs ∧
    getitem rfm "clv" = Return clv ∧
    to_numeric (s_values clv) = Return c ∧
    summary = add_percentage (agg_segment (s_values segs) c f m <$> clv_labels).
Proof.
  unfold get_clv_summary. intros Hrun.
  destruct (getitem rfm "clv_segment") as [segs|]; [| done].
  destruct (getitem rfm "clv") as [clv|]; [| done].
  destruct (getitem rfm "frequency") as [freq|]; [| done].
  destruct (getitem rfm "monetary_avg") as [mon|]; [| done].
  cbn [mbind Outcome_bind] in Hrun.
  destruct (to_numeric (s_values clv)) as [c|] eqn:Hc; [| done].
  destruct (to_numeric (s_values freq)) as [f|]; [| done].
  destruct (to_numeric (s_values mon)) as [m|]; [| done].
  injection Hrun as <-. by exists segs, clv, c, f, m.
Qed.


Lemma to_numeric_Return (vs : list Value) xs :
  to_numeric vs = Return xs → xs = to_num <$> vs.
Proof.
  revert xs. induction vs as [|v vs IH]; intros xs; simpl.
  - by intros [= <-].
  - destruct v; try done;
      (destruct (to_numeric vs) as [ys|]; [| done]);
      intros [= <-]; by rewrite (IH ys).
Qed.

Section FitModels.
Context `{Lifetimes}.

Ltac world_inv :=
  repeat match goal with
  | H : mbind _ _ _ = (Return _, _) |- _ =>
      apply bind_Return_inv in H as (? & ? & ? & ?)
  | H : lift_outcome _ _ = (Return _, _) |- _ =>
      apply lift_outcome_inv in H as (-> & ?)
  | H : get_self _ = (Return _, _) |- _ =>
      apply get_self_inv in H as (-> & ->)
  | H : set_bgf_model _ _ = (Return _, _) |- _ =>
      injection H as _ <-
  | H : set_ggf_model _ _ = (Return _, _) |- _ =>
      injection H as _ <-
  | H : on_frames _ _ = (Return _, _) |- _ =>
      apply on_frames_inv in H as (? & ? & ->)
  | H : py_getitem _ _ _ = (Return _, _) |- _ =>
      apply py_getitem_inv in H as (-> & ? & ? & ?)
  end.

(** A fit_models call that returns leaves both attributes set to fitted
    models, and the frames as they were. *)
Lemma fit_models_Return rfm (w w' : World) u :
  fit_models rfm w = (Return u, w') →
  frames w' = frames w ∧
  ∃ bg gg,
    bgf_model (self w')
      = Some (mkFitter (cfg_penalizer_coef (config (self w))) (Some bg)) ∧
    ggf_model (self w')
      = Some (mkFitter (cfg_penalizer_coef (config (self w))) (Some gg)).
Proof.
  unfold fit_models. intros Hrun. world_inv. simpl. eauto.
Qed.

(** After a fit_models call that returned, the guard of predict_clv
    does not fire. *)
Lemma fit_models_sets_models rfm (w w' : World) u :
  fit_models rfm w = (Return u, w') → ¬ models_unset (self w').
Proof.
  intros (_ & bg & gg & Hbg & Hgg)%fit_models_Return [Hn | Hn];
    congruence.
Qed.

(** A fit_models call that raised leaves the frames as they were, and
    the models in one of two states: the Gamma-Gamma attribute untouched
    (the failure came no later than the BG/NBD fit), or set to an
    unfitted object (the failure came after it was constructed). *)
Lemma fit_models_Raise rfm (w w' : World) e :
  fit_models rfm w = (Raise e, w') →
  frames w' = frames w ∧
  (ggf_model (self w') = ggf_model (self w) ∨
   ∃ pen, ggf_model (self w') = Some (mkFitter pen None)).
Proof.
  destruct w as [c h]. unfold fit_models, get_self, set_bgf_model,
    set_ggf_model, on_frames, py_getitem, lift_outcome.
  unfold mbind, Py_bind, mret, Py_ret. simpl.
  repeat (case_match; simplify_eq/=; try done); intros; simplify_eq/=;
    eauto.
Qed.

(** With a library whose value prediction raises on an unfitted
    Gamma-Gamma object (as lifetimes does), predict_clv raises and
    changes nothing whenever that object is unfitted. *)
Lemma predict_clv_gamma_unfitted rfm (w : World) ggf :
  (∀ g b f r T m t d, params_ g = None →
     ∃ e, GammaGammaFitter_customer_lifetime_value g b f r T m t d = Raise e) →
  ggf_model (self w) = Some ggf → params_ ggf = None →
  ∃ e, predict_clv rfm w = (Raise e, w).
Proof.
  intros Hlaw Hgg Hnone. destruct w as [c h]. simpl in Hgg.
  unfold predict_clv, get_self, on_frames, py_getitem, lift_outcome.
  unfold mbind, Py_bind, mret, Py_ret. simpl. rewrite Hgg.
  repeat (case_match; simplify_eq/=; eauto).
  all: match goal with
       | Hc : GammaGammaFitter_customer_lifetime_value ?g ?b ?f ?r ?T ?m ?t ?d
              = Return _ |- _ =>
           destruct (Hlaw g b f r T m t d Hnone) as [? ?]; congruence
       end.
Qed.

(** As long as no call of fit_models has returned, the Gamma-Gamma
    attribute is unset or holds an unfitted object. *)
Lemma no_successful_fit_gamma (w : World) :
  no_successful_fit w →
  ggf_model (self w) = None ∨
  ∃ pen, ggf_model (self w) = Some (mkFitter pen None).
Proof.
  induction 1 as [cfg h | rfm w e w' _ IH Hrun | rfm w o w' _ IH Hrun
                 | rfm w o w' _ IH Hrun | w h _ IH].
  - by left.
  - destruct (fit_models_Raise _ _ _ _ Hrun) as (_ & [-> | ?]);
      [done | by right].
  - pose proof (predict_clv_self w rfm) as Hs. rewrite Hrun in Hs.
    simpl in Hs. by rewrite Hs.
  - pose proof (get_clv_segments_self w rfm) as Hs. rewrite Hrun in Hs.
    simpl in Hs. by rewrite Hs.
  - done.
Qed.

(** C4 (amended). With a library whose value prediction raises on an
    unfitted Gamma-Gamma object (as lifetimes does), a call of
    predict_clv made when no call of fit_models has returned raises,
    returns no result, and leaves the calculator and every frame of the
    store as they were; the exception is ValueError("Models must be fit
    before predicting CLV") when a model attribute is still unset. *)
Theorem C4_predict_clv_without_successful_fit (w : World) (rfm : loc) :
  (∀ g b f r T m t d, params_ g = None →
     ∃ e, GammaGammaFitter_customer_lifetime_value g b f r T m t d = Raise e) →
  no_successful_fit w →
  (∃ e, predict_clv rfm w = (Raise e, w)) ∧
  (∀ r w', predict_clv rfm w ≠ (Return r, w')) ∧
  (models_unset (self w) → predict_clv rfm w = (Raise models_not_fit, w)).
Proof.
  intros Hlaw Hw.
  assert (∃ e, predict_clv rfm w = (Raise e, w)) as [e He].
  { destruct (no_successful_fit_gamma w Hw) as [Hgg | [pen Hgg]].
    - exists models_not_fit. apply predict_clv_guard. by right.
    - by eapply predict_clv_gamma_unfitted. }
  split; [by exists e |]. split; [intros r w'; by rewrite He |].
  apply predict_clv_guard.
Qed.

(** On a table all of whose frequencies are positive, and whose columns
    are as long as its index, the filter of fit_models keeps every row. *)
Lemma fit_models_filter_total rfm (w : World) df fv xs :
  frames w !! rfm = Some df →
  df_columns df !! "frequency" = Some fv →
  to_numeric fv = Return xs →
  Forall (λ b, b = true) (gt_zero <$> xs) →
  length fv = length (df_index df) →
  (∀ mv, df_columns df !! "monetary_avg" = Some mv →
         length mv = length (df_index df)) →
  fit_models rfm w = fit_models_unfiltered rfm w.
Proof.
  intros Hdf Hfv Hnum Hall Hlen Hmlen. destruct w as [c h]. simpl in Hdf.
  assert (length (gt_zero <$> xs) = length fv) as Hxs.
  { apply to_numeric_Return in Hnum as ->. by rewrite !length_fmap. }
  assert (loc_mask (gt_zero <$> xs) (mkSeries (df_index df) fv)
          = mkSeries (df_index df) fv) as Hmf.
  { unfold loc_mask. cbn [s_index s_values].
    f_equal; apply select_all_true; try done; congruence. }
  unfold fit_models, fit_models_unfiltered, get_self, set_bgf_model,
    set_ggf_model, on_frames, py_getitem, lift_outcome, getitem.
  unfold mbind, Py_bind, mret, Py_ret.
  repeat first [rewrite Hdf | rewrite Hfv | rewrite Hnum
               | progress cbn -[loc_mask]].
  destruct (df_columns df !! "recency") as [rv|]; [| done].
  repeat first [rewrite Hdf | rewrite Hfv | rewrite Hnum
               | progress cbn -[loc_mask]].
  destruct (df_columns df !! "T") as [Tv|]; [| done].
  repeat first [rewrite Hdf | rewrite Hfv | rewrite Hnum
               | progress cbn -[loc_mask]].
  destruct (BetaGeoFitter_fit _ _ _ _) as [bg|]; [| done].
  repeat first [rewrite Hdf | rewrite Hfv | rewrite Hnum
               | progress cbn -[loc_mask]].
  destruct (df_columns df !! "monetary_avg") as [mv|] eqn:Hmv; [| done].
  repeat first [rewrite Hdf | rewrite Hfv | rewrite Hnum
               | progress cbn -[loc_mask]].
  assert (loc_mask (gt_zero <$> xs) (mkSeries (df_index df) mv)
          = mkSeries (df_index df) mv) as Hmm.
  { unfold loc_mask. cbn [s_index s_values].
    f_equal; apply select_all_true; try done;
      rewrite Hxs, ?(Hmlen mv eq_refl); congruence. }
  by rewrite Hmf, Hmm.
Qed.

(** C9. In a table calculate_rfm returns, the customers are exactly
    those with a transaction in the input and the frequency of each is
    the number of its transactions, at least 1; and on a table with that
    index and those frequency and monetary_avg columns fit_models does
    what it would do without its frequency > 0 filter: the Gamma-Gamma
    model is fitted on every customer. *)
Theorem C9_frequency_positive_mask_total
    (transactions : list Transaction) (analysis_date : option Z)
    (rfm_df : DataFrame) (rfm : loc) (w : World) (df : DataFrame) :
  calculate_rfm transactions analysis_date = Return rfm_df →
  frames w !! rfm = Some df →
  df_index df = df_index rfm_df →
  df_columns df !! "frequency" = df_columns rfm_df !! "frequency" →
  df_columns df !! "monetary_avg" = df_columns rfm_df !! "monetary_avg" →
  (∃ ids,
     df_columns rfm_df !! "customer_id" = Some (VInt <$> ids) ∧
     df_index rfm_df = RangeIndex (length ids) ∧
     NoDup ids ∧
     (∀ c, c ∈ ids ↔ ∃ t, t ∈ transactions ∧ customer_id t = c) ∧
     ∀ i c, ids !! i = Some c →
       ∃ n, cell rfm_df "frequency" i = Some (VInt n) ∧
            n = Z.of_nat (length (get_group transactions c)) ∧ 1 ≤ n) ∧
  fit_models rfm w = fit_models_unfiltered rfm w.
Proof.
  intros Hrun Hdf Hidx Hfreq Havg.
  destruct (calculate_rfm_columns _ _ _ Hrun)
    as (a & recency & Ts & _ & _ & _ & Hri & Hid & _ & Hf & _ & Hm & _).
  set (keys := group_keys transactions) in *.
  set (groups := get_group transactions <$> keys) in *.
  set (counts := (λ g : list Transaction, Z.of_nat (length g)) <$> groups).
  assert (agg_frequency <$> groups = VInt <$> counts) as Hcounts.
  { unfold counts. by rewrite <- list_fmap_compose. }
  assert (Forall (λ z, 0 < z) counts) as Hpos.
  { apply Forall_fmap, Forall_lookup. intros i g Hg.
    apply groups_lookup in Hg as (k & _ & _ & -> & Hne). simpl.
    destruct (get_group transactions k); [done | simpl; lia]. }
  split.
  - exists keys. split; [done |]. split; [done |].
    split; [apply group_keys_NoDup |].
    split; [intros c; apply group_keys_elem |].
    intros i c Hc. eexists. split; [| split; [reflexivity |]].
    + unfold cell. rewrite Hf. simpl. unfold groups.
      by rewrite !list_lookup_fmap, Hc.
    + assert (c ∈ keys) as Hin by by eapply list_elem_of_lookup_2.
      pose proof (get_group_nonempty _ _ Hin).
      destruct (get_group transactions c); [done | simpl; lia].
  - apply (fit_models_filter_total rfm w df (VInt <$> counts)
             ((λ z, Some (inject_Z z)) <$> counts)); try done.
    + by rewrite Hfreq, Hf, Hcounts.
    + apply to_numeric_ints.
    + rewrite <- list_fmap_compose. apply Forall_fmap.
      eapply Forall_impl; [exact Hpos |]. intros z Hz. by apply gt_zero_pos.
    + rewrite Hidx, Hri. unfold counts, groups, RangeIndex.
      by rewrite !length_fmap, length_seq.
    + intros mv Hmv. rewrite Havg, Hm in Hmv. injection Hmv as <-.
      rewrite Hidx, Hri. unfold groups, RangeIndex.
      by rewrite !length_fmap, length_seq.
Qed.

End FitModels.

(** ** Instances on concrete data *)

Lemma C2_witness :
  ∃ segments,
    get_customer_segment 1%positive five_scored =
      (Return 1%positive,
       <[1%positive :=
           mkDataFrame (df_index (frame_at five_scored 1))
             (<["Customer_Segment" := VStr <$> segments]>
                (df_columns (frame_at five_scored 1)))]> five_scored) ∧
    length segments = length (df_index (frame_at five_scored 1)) ∧
    ∀ i, (i < length (df_index (frame_at five_scored 1)))%nat →
      ∃ label, segments !! i = Some label ∧
        segment_customer (row_at (frame_at five_scored 1) i) = Return label ∧
        label = segment_of (row_scores (row_at (frame_at five_scored 1) i)) ∧
        label ∈ segment_names ∧
        ∀ row' : Row,
          (∀ c, c ∈ score_columns →
             row' !! c = row_at (frame_at five_scored 1) i !! c) →
          segment_customer row' = Return label.
Proof.
  apply (C2_segment_first_match_total five_scored 1%positive
           (frame_at five_scored 1)).
  - vm_compute; reflexivity.
  - vm_compute; discriminate.
  - eexists; split; vm_compute; reflexivity.
  - eexists; split; vm_compute; reflexivity.
  - eexists; split; vm_compute; reflexivity.
  - eexists; split; vm_compute; reflexivity.
Defined.

Lemma stand_in_unfitted_raises :
  ∀ (g : @Fitter (@GGParams stand_in)) b f r T m t d,
    params_ g = None →
    ∃ e, @GammaGammaFitter_customer_lifetime_value stand_in g b f r T m t d
         = Raise e.
Proof.
  intros [pen p] b f r T m t d Hg. simpl in Hg. subst p.
  eexists. reflexivity.
Qed.

Lemma half_fitted_no_successful_fit : @no_successful_fit stand_in half_fitted.
Proof.
  apply (@nsf_fit_models stand_in 1%positive (fresh_world refund_rfm)
           non_positive_monetary).
  - apply nsf_init.
  - vm_compute; reflexivity.
Qed.

Lemma C4_witness :
  (∃ e, @predict_clv stand_in 1%positive half_fitted = (Raise e, half_fitted)) ∧
  (∀ r w', @predict_clv stand_in 1%positive half_fitted ≠ (Return r, w')) ∧
  (@models_unset stand_in (self half_fitted) →
   @predict_clv stand_in 1%positive half_fitted
   = (Raise models_not_fit, half_fitted)).
Proof.
  apply (@C4_predict_clv_without_successful_fit stand_in half_fitted
           1%positive).
  - apply stand_in_unfitted_raises.
  - apply half_fitted_no_successful_fit.
Defined.

(** After a fit_models call that failed in the Gamma-Gamma fit no call
    of fit_models has returned, yet both model attributes are set: the
    guard of predict_clv passes and the exception is the library's, not
    ValueError("Models must be fit before predicting CLV"). *)
Lemma C4_counterexample_library_error :
  @no_successful_fit stand_in half_fitted ∧
  ¬ @models_unset stand_in (self half_fitted) ∧
  @predict_clv stand_in 1%positive half_fitted
    = (Raise not_fit_yet, half_fitted) ∧
  not_fit_yet ≠ models_not_fit.
Proof.
  split; [apply half_fitted_no_successful_fit |].
  split; [intros [Hn | Hn]; vm_compute in Hn; discriminate |].
  split; [vm_compute; reflexivity | discriminate].
Qed.

Lemma C7_witness :
  ∃ m ids,
    (∃ t, t ∈ five_customers ∧ transaction_date t = m) ∧
    (∀ t, t ∈ five_customers → transaction_date t ≤ m) ∧
    calculate_rfm five_customers (Some (m + 1 * ns_per_day)) = Return five_rfm ∧
    df_index five_rfm = RangeIndex (length ids) ∧
    df_columns five_rfm !! "customer_id" = Some (VInt <$> ids) ∧
    ids ≠ [] ∧
    (∀ c, c ∈ ids ↔ ∃ t, t ∈ five_customers ∧ customer_id t = c) ∧
    ∀ i c, ids !! i = Some c →
      ∃ last r,
        Series_max (transaction_date <$> get_group five_customers c)
        = Some last ∧
        r = (m + 1 * ns_per_day - last) / ns_per_day ∧
        cell five_rfm "recency" i = Some (VInt r) ∧ 0 ≤ r.
Proof.
  apply (C7_default_date_recency_nonneg five_customers five_rfm).
  - discriminate.
  - vm_compute; reflexivity.
Defined.

Lemma C9_witness :
  (∃ ids,
     df_columns five_rfm !! "customer_id" = Some (VInt <$> ids) ∧
     df_index five_rfm = RangeIndex (length ids) ∧
     NoDup ids ∧
     (∀ c, c ∈ ids ↔ ∃ t, t ∈ five_customers ∧ customer_id t = c) ∧
     ∀ i c, ids !! i = Some c →
       ∃ n, cell five_rfm "frequency" i = Some (VInt n) ∧
            n = Z.of_nat (length (get_group five_customers c)) ∧ 1 ≤ n) ∧
  @fit_models stand_in 1%positive five_segmented_world
  = @fit_models_unfiltered stand_in 1%positive five_segmented_world.
Proof.
  apply (@C9_frequency_positive_mask_total stand_in five_customers None
           five_rfm 1%positive five_segmented_world
           (frame_at five_segmented 1)).
  - vm_compute; reflexivity.
  - vm_compute; reflexivity.
  - vm_compute; reflexivity.
  - vm_compute; reflexivity.
  - vm_compute; reflexivity.
Defined.

(** On a fresh calculator, with predict_clv never called,
    get_clv_segments fails with the KeyError of the missing column when
    the table has no clv column, and returns the table, segments
    assigned, when it has one. *)
Lemma C5_counterexample_no_sequencing_error :
  bgf_model (self (fresh_world five_rfm)) = None ∧
  (@get_clv_segments stand_in 1%positive (fresh_world five_rfm)).1
    = Raise (KeyError "clv") ∧
  (@get_clv_segments stand_in 1%positive (fresh_world clv_frame)).1
    = Return 1%positive ∧
  df_columns
    (frame_at
       (frames (@get_clv_segments stand_in 1%positive (fresh_world clv_frame)).2)
       1) !! "clv_segment"
    = Some [VStr "Low Value"; VStr "Low Value"; VStr "Medium Value";
            VStr "High Value"; VStr "Top Value"].
Proof. repeat split; vm_compute; reflexivity. Qed.

Lemma C5_witness :
  (df_columns five_rfm !! "clv" = None →
     @get_clv_segments stand_in 1%positive (fresh_world five_rfm)
       = (Raise (KeyError "clv"), fresh_world five_rfm)) ∧
  (∀ c' : @CLVCalculator stand_in,
     (@get_clv_segments stand_in 1%positive
        (mkWorld c' (frames (fresh_world five_rfm)))).1
       = (@get_clv_segments stand_in 1%positive (fresh_world five_rfm)).1 ∧
     frames (@get_clv_segments stand_in 1%positive
               (mkWorld c' (frames (fresh_world five_rfm)))).2
       = frames (@get_clv_segments stand_in 1%positive
                   (fresh_world five_rfm)).2) ∧
  self (@get_clv_segments stand_in 1%positive (fresh_world five_rfm)).2
    = self (fresh_world five_rfm).
Proof.
  apply (@C5_get_clv_segments_reads_clv_column stand_in
           (fresh_world five_rfm) 1%positive five_rfm).
  vm_compute; reflexivity.
Defined.


(** ** Quartile binning labels every value *)

Section Quartiles.
Implicit Types (x y : Q) (l a : list Q).

Lemma Qle_bool_total x y : Qle_bool x y = false → (y <= x)%Q.
Proof.
  intros Hf. apply Qlt_le_weak, Qnot_le_lt. intros Hle.
  apply Qle_bool_iff in Hle. congruence.
Qed.

Lemma insert_sorted_elem x y l : y ∈ insert_sorted x l ↔ y = x ∨ y ∈ l.
Proof.
  induction l as [|z l IH]; simpl.
  - rewrite list_elem_of_singleton, elem_of_nil. tauto.
  - destruct (Qle_bool x z); rewrite !elem_of_cons; [tauto |].
    rewrite IH. tauto.
Qed.

Lemma insert_sorted_sorted x l :
  StronglySorted Qle l → StronglySorted Qle (insert_sorted x l).
Proof.
  induction 1 as [|z l Hs IH Hall]; simpl.
  - repeat constructor.
  - destruct (Qle_bool x z) eqn:Hxz.
    + apply Qle_bool_iff in Hxz. constructor; [by constructor |].
      constructor; [done |].
      eapply Forall_impl; [exact Hall |]. intros w Hw. simpl in *.
      by apply Qle_trans with z.
    + apply Qle_bool_total in Hxz. constructor; [done |].
      apply Forall_forall. intros w Hw.
      apply insert_sorted_elem in Hw as [-> | Hw]; [done |].
      by eapply Forall_forall in Hall.
Qed.

Lemma sort_values_elem y l : y ∈ sort_values l ↔ y ∈ l.
Proof.
  unfold sort_values. induction l as [|x l IH]; simpl; [done |].
  rewrite insert_sorted_elem, elem_of_cons, IH. tauto.
Qed.

Lemma sort_values_sorted l : StronglySorted Qle (sort_values l).
Proof.
  unfold sort_values. induction l; simpl; [constructor |].
  by apply insert_sorted_sorted.
Qed.

(** In sorted data the first element is the least and the last the
    greatest. *)
Lemma sorted_bounds a y :
  StronglySorted Qle a → y ∈ a →
  (nth 0 a 0 <= y)%Q ∧ (y <= nth (length a - 1) a 0)%Q.
Proof.
  induction 1 as [|z a Hs IH Hall]; intros Hy; [by apply elem_of_nil in Hy |].
  apply elem_of_cons in Hy as [-> | Hy].
  - split; [apply Qle_refl |]. destruct a as [|z' a]; [apply Qle_refl |].
    change (length (z :: z' :: a) - 1)%nat with (S (length a)).
    change (nth (S (length a)) (z :: z' :: a) 0%Q)
      with (nth (length a) (z' :: a) 0%Q).
    eapply Forall_forall in Hall; [exact Hall |].
    apply list_elem_of_In, nth_In. simpl. lia.
  - split; [by eapply Forall_forall in Hall |].
    destruct a as [|z' a]; [by apply elem_of_nil in Hy |].
    specialize (IH Hy) as [_ IH].
    change (length (z :: z' :: a) - 1)%nat with (S (length a)).
    change (nth (S (length a)) (z :: z' :: a) 0%Q)
      with (nth (length a) (z' :: a) 0%Q).
    change (length (z' :: a) - 1)%nat with (length a - 0)%nat in IH.
    by rewrite Nat.sub_0_r in IH.
Qed.

Lemma quantile_first a : (quantile a 4 0 == nth 0 a 0)%Q.
Proof.
  unfold quantile. rewrite Z.mul_0_l.
  change (Z.to_nat (0 / 4)) with O.
  change (inject_Z (0 mod 4) / inject_Z 4)%Q with (0 # 4)%Q.
  setoid_replace (0 # 4)%Q with 0%Q using relation Qeq by reflexivity.
  ring.
Qed.

Lemma quantile_last a :
  a ≠ [] → (quantile a 4 4 == nth (length a - 1) a 0)%Q.
Proof.
  intros Hne. unfold quantile.
  assert (0 ≤ Z.of_nat (length a) - 1) by (destruct a; [done | simpl; lia]).
  rewrite Z.mul_comm, Z.div_mul, Z.mod_mul by done.
  replace (Z.to_nat (Z.of_nat (length a) - 1)) with (length a - 1)%nat by lia.
  change (inject_Z 0 / inject_Z 4)%Q with (0 # 4)%Q.
  setoid_replace (0 # 4)%Q with 0%Q using relation Qeq by reflexivity.
  ring.
Qed.

End Quartiles.

(** The bin number of a value between the lowest and the highest of five
    edges, the lowest included, is 1, 2, 3 or 4. *)
Lemma quartile_bin_id (b0 b1 b2 b3 b4 v : Q) :
  (b0 <= v)%Q → (v <= b4)%Q →
  (1 ≤ bin_id [Fin b0; Fin b1; Fin b2; Fin b3; Fin b4] true v ≤ 4)%nat.
Proof.
  intros Hlo Hhi. unfold bin_id. simpl.
  destruct (Qeq_bool b0 v) eqn:Heq; [lia |].
  destruct (Qle_bool v b0) eqn:Hle0.
  { apply Qle_bool_iff in Hle0.
    assert (b0 == v)%Q as Hv by by apply Qle_antisym.
    apply Qeq_bool_iff in Hv. congruence. }
  apply Qle_bool_iff in Hhi. simpl.
  destruct (Qle_bool v b1); simpl; [lia |].
  destruct (Qle_bool v b2); simpl; [lia |].
  destruct (Qle_bool v b3); simpl; [lia |].
  rewrite Hhi. simpl. lia.
Qed.

(** When qcut into four bins returns, every present value has one of the
    four labels and every missing value has none. *)
Lemma qcut_labels {A} (x : Series) (labels : list A) xs ls :
  length labels = 4%nat →
  to_numeric (s_values x) = Return xs →
  qcut x 4 labels = Return ls →
  Forall2 (λ xi li, match xi with
                    | None => li = None
                    | Some _ => ∃ l, li = Some l ∧ l ∈ labels
                    end) xs ls.
Proof.
  intros Hlen Hnum. unfold qcut. rewrite Hnum.
  destruct (sort_values (omap id xs)) as [|a0 a] eqn:Ha; [done |].
  set (bins := _ <$> seq 0 5). unfold bins_to_cuts.
  destruct (_ && _); [done |]. destruct (negb _); [done |].
  intros [= <-]. apply Forall2_fmap_r, Forall_Forall2_diag, Forall_forall.
  intros [v|] Hin; [| done]. unfold assign_label.
  assert (v ∈ a0 :: a) as Hv.
  { rewrite <- Ha. apply sort_values_elem, list_elem_of_omap. eauto. }
  pose proof (sort_values_sorted (omap id xs)) as Hsorted.
  rewrite Ha in Hsorted.
  destruct (sorted_bounds _ _ Hsorted Hv) as [Hlo Hhi].
  rewrite <- quantile_first in Hlo.
  rewrite <- quantile_last in Hhi by done.
  subst bins. cbn [fmap list_fmap seq]. unfold compose. cbn beta iota.
  change (Z.of_nat 0) with 0. change (Z.of_nat 1) with 1.
  change (Z.of_nat 2) with 2. change (Z.of_nat 3) with 3.
  change (Z.of_nat 4) with 4.
  pose proof (quartile_bin_id _ (quantile (a0 :: a) 4 1)
                (quantile (a0 :: a) 4 2) (quantile (a0 :: a) 4 3) _ v Hlo Hhi)
    as Hid.
  set (id := bin_id _ true v) in *.
  rewrite bool_decide_false by (simpl; lia).
  destruct (lookup_lt_is_Some_2 labels (id - 1)%nat) as [l Hl]; [lia |].
  exists l. split; [done |]. by eapply list_elem_of_lookup_2.
Qed.

(** On a table whose clv_segment column was written by get_clv_segments,
    the total that get_clv_summary divides by is the sum of clv over the
    whole table. *)
Lemma clv_summary_total_is_table_total `{Lifetimes}
    (rfm : loc) (w w' : World) (df df' : DataFrame) vs xs summary :
  frames w !! rfm = Some df →
  df_columns df !! "clv" = Some vs →
  to_numeric vs = Return xs →
  get_clv_segments rfm w = (Return rfm, w') →
  frames w' !! rfm = Some df' →
  get_clv_summary df' = Return summary →
  (Series_sum (clv_sum ∘ stats <$> summary) == Series_sum (omap id xs))%Q.
Proof.
  intros Hdf Hclv Hnum Hrun Hdf' Hsum.
  rewrite (get_clv_segments_run _ _ _ Hdf), Hclv in Hrun.
  destruct (qcut _ 4 clv_labels) as [segments|] eqn:Hq; [| done].
  injection Hrun as <-. simpl in Hdf'.
  rewrite lookup_insert_eq in Hdf'. injection Hdf' as <-.
  pose proof (qcut_labels (mkSeries (df_index df) vs) clv_labels xs _
                eq_refl Hnum Hq) as Hlab.
  destruct (get_clv_summary_inv _ _ Hsum)
    as (segs & clv & c & f & m & Hsegs & Hc & Hcn & ->).
  unfold getitem in Hsegs, Hc. simpl in Hsegs, Hc.
  rewrite lookup_insert_eq in Hsegs.
  rewrite lookup_insert_ne, Hclv in Hc by done.
  injection Hsegs as <-. injection Hc as <-.
  cbn [s_values] in *. rewrite Hnum in Hcn. injection Hcn as <-.
  rewrite (list_fmap_compose stats clv_sum), add_percentage_stats.
  rewrite <- list_fmap_compose.
  apply (segment_sums_total (str_label_value <$> segments) xs).
  apply Forall2_fmap_l, Forall2_flip.
  eapply Forall2_impl; [exact Hlab |]. intros [q|] s; simpl.
  - intros (l & -> & Hl). right. eauto.
  - by left.
Qed.

(** ** Binning on small data *)

Example cut_recency_edges :
  cut (mkSeries (RangeIndex 7)
         [VInt 0; VInt 7; VInt 8; VInt 30; VInt 31; VInt 90; VInt 91])
    recency_bins [4; 3; 2; 1]
  = Return [None; Some 4; Some 3; Some 3; Some 2; Some 2; Some 1].
Proof. vm_compute. reflexivity. Qed.

Example qcut_eight_values :
  qcut (mkSeries (RangeIndex 8)
          [VInt 1; VInt 2; VInt 3; VInt 4; VInt 5; VInt 6; VInt 7; VInt 8])
    4 f_labels
  = Return [Some 1; Some 1; Some 2; Some 2; Some 3; Some 3; Some 4; Some 4].
Proof. vm_compute. reflexivity. Qed.

(** Two equal quartile edges: the monetary_avg column of the test
    scenario, 150, 150, 400. *)
Example qcut_tied_edges :
  qcut (mkSeries (RangeIndex 3) [VFloat 150; VFloat 150; VFloat 400])
    4 m_labels
  = Raise (ValueError "Bin edges must be unique").
Proof. vm_compute. reflexivity. Qed.

(** * Further properties *)

(** ** Running the scoring methods forward *)

Lemma bind_run {S A B} (m : Py S A) (f : A → Py S B) s a s1 :
  m s = (Return a, s1) → (m ≫= f) s = f a s1.
Proof. unfold mbind, Py_bind. by intros ->. Qed.

Lemma bind_raise {S A B} (m : Py S A) (f : A → Py S B) s e s1 :
  m s = (Raise e, s1) → (m ≫= f) s = (Raise e, s1).
Proof. unfold mbind, Py_bind. by intros ->. Qed.

Lemma py_getitem_run rfm col (h : gmap positive DataFrame) df :
  h !! rfm = Some df → py_getitem rfm col h = (getitem df col, h).
Proof. unfold py_getitem. by intros ->. Qed.

Lemma py_setitem_run rfm col s (h : gmap positive DataFrame) df :
  h !! rfm = Some df → s_index s = df_index df →
  py_setitem rfm col s h =
    (Return (),
     <[rfm := mkDataFrame (df_index df)
                (<[col := s_values s]> (df_columns df))]> h).
Proof.
  intros Hdf Hidx. unfold py_setitem, setitem. rewrite Hdf.
  by rewrite bool_decide_true.
Qed.

(** add_rfm_scores in quartile mode, as one step: either it raises and
    the store is as it was, or the three quartile binnings returned and
    the four score columns are written on the frame. *)
Lemma add_rfm_scores_quartiles_run rfm (h : gmap positive DataFrame) df :
  h !! rfm = Some df →
  (∃ e, add_rfm_scores rfm true h = (Raise e, h)) ∨
  (∃ rv fv mv r f m,
     df_columns df !! "recency" = Some rv ∧
     df_columns df !! "frequency" = Some fv ∧
     df_columns df !! "monetary_avg" = Some mv ∧
     qcut (mkSeries (df_index df) rv) 4 r_labels = Return r ∧
     qcut (mkSeries (df_index df) fv) 4 f_labels = Return f ∧
     qcut (mkSeries (df_index df) mv) 4 m_labels = Return m ∧
     add_rfm_scores rfm true h =
       (Return rfm,
        <[rfm := mkDataFrame (df_index df)
           (<["RFM_Score" := concat_scores r f m]>
            (<["M_score" := label_value <$> m]>
             (<["F_score" := label_value <$> f]>
              (<["R_score" := label_value <$> r]> (df_columns df)))))]> h)).
Proof.
  intros Hdf.
  unfold add_rfm_scores, py_getitem, py_setitem, getitem, lift_outcome,
    with_index, setitem.
  unfold mbind, Py_bind, mret, Py_ret. cbn [s_index s_values]. rewrite Hdf.
  destruct (df_columns df !! "recency") as [rv|]; [| left; eauto].
  destruct (qcut _ 4 r_labels) as [r|] eqn:Hr; [| left; eauto].
  cbn beta iota zeta. rewrite Hdf.
  destruct (df_columns df !! "frequency") as [fv|]; [| left; eauto].
  destruct (qcut _ 4 f_labels) as [f|] eqn:Hf; [| left; eauto].
  cbn beta iota zeta. rewrite Hdf.
  destruct (df_columns df !! "monetary_avg") as [mv|]; [| left; eauto].
  destruct (qcut _ 4 m_labels) as [m|] eqn:Hm; [| left; eauto].
  right. exists rv, fv, mv, r, f, m. do 6 (split; [done |]).
  cbn beta iota zeta. rewrite Hdf, bool_decide_true by done.
  repeat (cbn beta iota zeta; rewrite lookup_insert_eq;
          cbn [df_index df_columns]; rewrite ?bool_decide_true by done).
  cbn beta iota zeta.
  rewrite lookup_insert_ne, lookup_insert_ne, lookup_insert_eq by done.
  cbn beta iota zeta. cbn [s_index]. rewrite bool_decide_true by done.
  cbn beta iota zeta. by rewrite !insert_insert_eq.
Qed.

(** The quartile edges of a column's present values. *)
Lemma qcut_Return_inv {A} (x : Series) (labels : list A) ls :
  qcut x 4 labels = Return ls →
  ∃ bins, length bins = 5%nat ∧
    ls = assign_label bins labels true <$> (to_num <$> s_values x).
Proof.
  unfold qcut. destruct (to_numeric (s_values x)) as [xs|] eqn:Hnum; [| done].
  apply to_numeric_Return in Hnum as ->.
  destruct (sort_values _) as [|a0 a]; [done |].
  unfold bins_to_cuts. destruct (_ && _); [done |].
  destruct (negb _); [done |]. intros [= <-]. eexists. split; [| done]. done.
Qed.

Lemma searchsorted_left_mono (bins : list Edge) (x y : Q) :
  (x <= y)%Q → (searchsorted_left bins x ≤ searchsorted_left bins y)%nat.
Proof.
  intros Hxy. induction bins as [|b bins IH]; simpl; [lia |].
  destruct (edge_lt b x) eqn:Hbx; [| lia].
  assert (edge_lt b y = true) as ->; [| lia].
  destruct b as [b|]; [| done]. simpl in *.
  apply negb_true_iff in Hbx. apply negb_true_iff.
  destruct (Qle_bool y b) eqn:Hyb; [| done].
  apply Qle_bool_iff in Hyb.
  assert (x <= b)%Q as Hxb by by apply Qle_trans with y.
  apply Qle_bool_iff in Hxb. congruence.
Qed.

(** The bin number grows with the value. *)
Lemma bin_id_mono (bins : list Edge) (x y : Q) :
  (x <= y)%Q → (bin_id bins true x ≤ bin_id bins true y)%nat.
Proof.
  intros Hxy. unfold bin_id. destruct bins as [|[b0|] bins]; simpl;
    [lia | | lia].
  destruct (Qeq_bool b0 x) eqn:Hx, (Qeq_bool b0 y) eqn:Hy; try lia.
  - apply Qeq_bool_iff in Hx.
    destruct (Qle_bool y b0) eqn:Hyb; simpl; [| lia].
    apply Qle_bool_iff in Hyb.
    assert (b0 == y)%Q as Hby.
    { apply Qle_antisym; [by rewrite Hx | done]. }
    apply Qeq_bool_iff in Hby. congruence.
  - apply Qeq_bool_iff in Hy.
    destruct (Qle_bool x b0) eqn:Hxb; simpl; [lia |].
    assert (x <= b0)%Q as Hle by by rewrite Hy.
    apply Qle_bool_iff in Hle. congruence.
  - pose proof (searchsorted_left_mono (Fin b0 :: bins) x y Hxy) as Hm.
    simpl in Hm. done.
Qed.

Lemma StronglySorted_lookup_lt {A} (R : A → A → Prop) (l : list A) i j x y :
  StronglySorted R l → l !! i = Some x → l !! j = Some y → (i < j)%nat →
  R x y.
Proof.
  intros Hs. revert i j. induction Hs as [|z l Hs IH Hall]; intros i j Hi Hj Hij.
  - by rewrite lookup_nil in Hi.
  - destruct j as [|j]; [lia |]. destruct i as [|i]; simpl in *.
    + injection Hi as ->. eapply Forall_forall in Hall; [exact Hall |].
      by eapply list_elem_of_lookup_2.
    + eapply IH; [exact Hi | exact Hj | lia].
Qed.

(** Labels that increase, or decrease, along the list. *)
Lemma assign_label_mono (bins : list Edge) (labels : list Z) x y lx ly :
  StronglySorted Z.le labels → (x <= y)%Q →
  assign_label bins labels true (Some x) = Some lx →
  assign_label bins labels true (Some y) = Some ly →
  lx ≤ ly.
Proof.
  intros Hs Hxy. unfold assign_label.
  pose proof (bin_id_mono bins x y Hxy) as Hid.
  repeat case_bool_decide; try done. intros Hx Hy.
  destruct (decide (bin_id bins true x = bin_id bins true y)) as [Heq | Hne].
  { rewrite Heq in Hx. simplify_eq. lia. }
  eapply (StronglySorted_lookup_lt Z.le) in Hs; [| exact Hx | exact Hy | lia].
  done.
Qed.

Lemma assign_label_anti (bins : list Edge) (labels : list Z) x y lx ly :
  StronglySorted Z.ge labels → (x <= y)%Q →
  assign_label bins labels true (Some x) = Some lx →
  assign_label bins labels true (Some y) = Some ly →
  ly ≤ lx.
Proof.
  intros Hs Hxy. unfold assign_label.
  pose proof (bin_id_mono bins x y Hxy) as Hid.
  repeat case_bool_decide; try done. intros Hx Hy.
  destruct (decide (bin_id bins true x = bin_id bins true y)) as [Heq | Hne].
  { rewrite Heq in Hx. simplify_eq. lia. }
  eapply (StronglySorted_lookup_lt Z.ge) in Hs; [| exact Hx | exact Hy | lia].
  lia.
Qed.

(** What one quartile binning writes on each row: a label for a present
    value, computed from edges common to all rows, and nothing for a
    missing one. *)
Lemma qcut_cells {A} (x : Series) (labels : list A) ls :
  length labels = 4%nat → qcut x 4 labels = Return ls →
  ∃ bins, ∀ i v, s_values x !! i = Some v →
    match to_num v with
    | Some q => ∃ l, ls !! i = Some (Some l) ∧ l ∈ labels ∧
                  assign_label bins labels true (Some q) = Some l
    | None => ls !! i = Some None
    end.
Proof.
  intros Hlen Hq.
  destruct (qcut_Return_inv _ _ _ Hq) as (bins & _ & Hls).
  assert (to_numeric (s_values x) = Return (to_num <$> s_values x)) as Hnum.
  { unfold qcut in Hq.
    destruct (to_numeric (s_values x)) as [xs|] eqn:Hn; [| done].
    by rewrite (to_numeric_Return _ _ Hn). }
  pose proof (qcut_labels _ _ _ _ Hlen Hnum Hq) as Hlab.
  exists bins. intros i v Hv.
  assert ((to_num <$> s_values x) !! i = Some (to_num v)) as Hxi
    by by rewrite list_lookup_fmap, Hv.
  destruct (Forall2_lookup_l _ _ _ _ _ Hlab Hxi) as (li & Hli & Hrel).
  assert (li = assign_label bins labels true (to_num v)) as Hass.
  { rewrite Hls, list_lookup_fmap, Hxi in Hli. by injection Hli. }
  destruct (to_num v) as [q|].
  - destruct Hrel as (l & -> & Hl). eauto.
  - by subst.
Qed.

(** add_rfm_scores in quartile mode either returns or leaves the store
    exactly as it was: nothing is assigned before the three binnings
    have all succeeded. *)
Theorem add_rfm_scores_quartiles_atomic
    rfm (h h' : gmap positive DataFrame) e :
  add_rfm_scores rfm true h = (Raise e, h') → h' = h.
Proof.
  destruct (h !! rfm) as [df|] eqn:Hdf.
  - destruct (add_rfm_scores_quartiles_run rfm h df Hdf)
      as [[e' ->] | (? & ? & ? & ? & ? & ? & _ & _ & _ & _ & _ & _ & ->)];
      [by intros [= _ ->] | done].
  - unfold add_rfm_scores, py_getitem.
    unfold mbind, Py_bind. rewrite Hdf. by intros [= _ ->].
Qed.

(** The three (metric, score) pairs of add_rfm_scores. *)
Lemma add_rfm_scores_quartiles_cells rfm (h h' : gmap positive DataFrame) r df :
  h !! rfm = Some df → add_rfm_scores rfm true h = (Return r, h') →
  ∃ df' rq fq mq,
    h' !! rfm = Some df' ∧ df_index df' = df_index df ∧
    df_columns df' !! "R_score" = Some (label_value <$> rq) ∧
    df_columns df' !! "F_score" = Some (label_value <$> fq) ∧
    df_columns df' !! "M_score" = Some (label_value <$> mq) ∧
    df_columns df' !! "RFM_Score" = Some (concat_scores rq fq mq) ∧
    (∃ rv, df_columns df !! "recency" = Some rv ∧
           qcut (mkSeries (df_index df) rv) 4 r_labels = Return rq) ∧
    (∃ fv, df_columns df !! "frequency" = Some fv ∧
           qcut (mkSeries (df_index df) fv) 4 f_labels = Return fq) ∧
    (∃ mv, df_columns df !! "monetary_avg" = Some mv ∧
           qcut (mkSeries (df_index df) mv) 4 m_labels = Return mq).
Proof.
  intros Hdf Hrun.
  destruct (add_rfm_scores_quartiles_run rfm h df Hdf)
    as [[e He] | (rv & fv & mv & rq & fq & mq & Hr & Hf & Hm & Hqr & Hqf
                  & Hqm & Heq)]; [congruence |].
  rewrite Heq in Hrun. injection Hrun as <- <-.
  eexists _, rq, fq, mq. rewrite lookup_insert_eq.
  split; [done |]. cbn [df_index df_columns].
  split; [done |].
  rewrite lookup_insert_ne, lookup_insert_ne, lookup_insert_ne,
    lookup_insert_eq by done. split; [done |].
  rewrite lookup_insert_ne, lookup_insert_ne, lookup_insert_eq by done.
  split; [done |].
  rewrite lookup_insert_ne, lookup_insert_eq by done. split; [done |].
  rewrite lookup_insert_eq. split; [done |]. eauto 10.
Qed.

Lemma score_cell_present (ls : list (option Z)) (labels : list Z) i l :
  ls !! i = Some (Some l) → l ∈ labels → Forall (λ z, 1 ≤ z ≤ 4) labels →
  (label_value <$> ls) !! i = Some (VInt l) ∧ 1 ≤ l ≤ 4.
Proof.
  intros Hl Hin Hall. rewrite list_lookup_fmap, Hl. split; [done |].
  by eapply Forall_forall in Hall.
Qed.

Lemma labels_in_range :
  Forall (λ z, 1 ≤ z ≤ 4) r_labels ∧ Forall (λ z, 1 ≤ z ≤ 4) f_labels ∧
  Forall (λ z, 1 ≤ z ≤ 4) m_labels.
Proof. repeat split; repeat constructor; lia. Qed.

(** When add_rfm_scores returns in quartile mode, every row with a
    present recency, frequency or monetary_avg has the corresponding
    score in 1..4, and a row with a missing metric has a missing score. *)
Theorem quartile_scores_in_range rfm (h h' : gmap positive DataFrame) r df :
  h !! rfm = Some df → add_rfm_scores rfm true h = (Return r, h') →
  ∃ df', h' !! rfm = Some df' ∧
    ∀ metric score, (metric, score) ∈ metric_scores →
    ∀ i v, cell df metric i = Some v →
      match to_num v with
      | Some _ => ∃ s, cell df' score i = Some (VInt s) ∧ 1 ≤ s ≤ 4
      | None => cell df' score i = Some VNaN
      end.
Proof.
  intros Hdf Hrun.
  destruct (add_rfm_scores_quartiles_cells _ _ _ _ _ Hdf Hrun)
    as (df' & rq & fq & mq & Hdf' & _ & HR & HF & HM & _
        & (rv & Hrv & Hqr) & (fv & Hfv & Hqf) & (mv & Hmv & Hqm)).
  destruct labels_in_range as (Hlr & Hlf & Hlm).
  exists df'. split; [done |]. intros metric score Hpair i v Hv.
  unfold metric_scores in Hpair. unfold cell in *.
  repeat (apply elem_of_cons in Hpair as [[= -> ->] | Hpair]);
    [.. | by apply elem_of_nil in Hpair].
  - rewrite Hrv in Hv. rewrite HR. simpl in *.
    destruct (qcut_cells _ r_labels _ eq_refl Hqr) as [bins Hc].
    specialize (Hc i v Hv).
    destruct (to_num v); [| by rewrite list_lookup_fmap, Hc].
    destruct Hc as (l & Hl & Hin & _). exists l.
    by eapply score_cell_present.
  - rewrite Hfv in Hv. rewrite HF. simpl in *.
    destruct (qcut_cells _ f_labels _ eq_refl Hqf) as [bins Hc].
    specialize (Hc i v Hv).
    destruct (to_num v); [| by rewrite list_lookup_fmap, Hc].
    destruct Hc as (l & Hl & Hin & _). exists l.
    by eapply score_cell_present.
  - rewrite Hmv in Hv. rewrite HM. simpl in *.
    destruct (qcut_cells _ m_labels _ eq_refl Hqm) as [bins Hc].
    specialize (Hc i v Hv).
    destruct (to_num v); [| by rewrite list_lookup_fmap, Hc].
    destruct Hc as (l & Hl & Hin & _). exists l.
    by eapply score_cell_present.
Qed.

Lemma qcut_cells_ordered (x : Series) (labels : list Z) ls i j vi vj qi qj :
  length labels = 4%nat → qcut x 4 labels = Return ls →
  s_values x !! i = Some vi → s_values x !! j = Some vj →
  to_num vi = Some qi → to_num vj = Some qj → (qi <= qj)%Q →
  ∃ li lj, (label_value <$> ls) !! i = Some (VInt li) ∧
           (label_value <$> ls) !! j = Some (VInt lj) ∧
           (StronglySorted Z.le labels → li ≤ lj) ∧
           (StronglySorted Z.ge labels → lj ≤ li).
Proof.
  intros Hlen Hq Hi Hj Hqi Hqj Hle.
  destruct (qcut_cells _ _ _ Hlen Hq) as [bins Hc].
  pose proof (Hc i vi Hi) as Hci. pose proof (Hc j vj Hj) as Hcj.
  rewrite Hqi in Hci. rewrite Hqj in Hcj.
  destruct Hci as (li & Hli & _ & Hai). destruct Hcj as (lj & Hlj & _ & Haj).
  exists li, lj. rewrite !list_lookup_fmap, Hli, Hlj.
  repeat split; try done.
  - intros Hs. by eapply assign_label_mono.
  - intros Hs. by eapply assign_label_anti.
Qed.

(** Quartile scores follow the order of the metric: of two customers,
    the one with the smaller recency never has the smaller R_score, and
    the one with the smaller frequency (or monetary_avg) never has the
    larger F_score (or M_score). *)
Theorem quartile_scores_ordered rfm (h h' : gmap positive DataFrame) r df :
  h !! rfm = Some df → add_rfm_scores rfm true h = (Return r, h') →
  ∃ df', h' !! rfm = Some df' ∧
    ∀ i j vi vj qi qj,
      to_num vi = Some qi → to_num vj = Some qj → (qi <= qj)%Q →
      (cell df "recency" i = Some vi → cell df "recency" j = Some vj →
       ∃ si sj, cell df' "R_score" i = Some (VInt si) ∧
                cell df' "R_score" j = Some (VInt sj) ∧ sj ≤ si) ∧
      (cell df "frequency" i = Some vi → cell df "frequency" j = Some vj →
       ∃ si sj, cell df' "F_score" i = Some (VInt si) ∧
                cell df' "F_score" j = Some (VInt sj) ∧ si ≤ sj) ∧
      (cell df "monetary_avg" i = Some vi →
       cell df "monetary_avg" j = Some vj →
       ∃ si sj, cell df' "M_score" i = Some (VInt si) ∧
                cell df' "M_score" j = Some (VInt sj) ∧ si ≤ sj).
Proof.
  intros Hdf Hrun.
  destruct (add_rfm_scores_quartiles_cells _ _ _ _ _ Hdf Hrun)
    as (df' & rq & fq & mq & Hdf' & _ & HR & HF & HM & _
        & (rv & Hrv & Hqr) & (fv & Hfv & Hqf) & (mv & Hmv & Hqm)).
  exists df'. split; [done |]. intros i j vi vj qi qj Hqi Hqj Hle.
  unfold cell. rewrite Hrv, Hfv, Hmv, HR, HF, HM. simpl.
  split; [| split]; intros Hi Hj.
  - destruct (qcut_cells_ordered _ r_labels _ i j _ _ _ _ eq_refl Hqr Hi Hj Hqi Hqj Hle)
      as (li & lj & ? & ? & _ & Hanti).
    exists li, lj. repeat split; try done.
    apply Hanti. unfold r_labels. repeat constructor; lia.
  - destruct (qcut_cells_ordered _ f_labels _ i j _ _ _ _ eq_refl Hqf Hi Hj Hqi Hqj Hle)
      as (li & lj & ? & ? & Hmono & _).
    exists li, lj. repeat split; try done.
    apply Hmono. unfold f_labels. repeat constructor; lia.
  - destruct (qcut_cells_ordered _ m_labels _ i j _ _ _ _ eq_refl Hqm Hi Hj Hqi Hqj Hle)
      as (li & lj & ? & ? & Hmono & _).
    exists li, lj. repeat split; try done.
    apply Hmono. unfold m_labels. repeat constructor; lia.
Qed.

(** ** A metric that takes one value only *)

Lemma insert_sorted_length (x : Q) l :
  length (insert_sorted x l) = S (length l).
Proof.
  induction l as [|y l IH]; simpl; [done |].
  destruct (Qle_bool x y); simpl; by rewrite ?IH.
Qed.

Lemma nth_const (a : list Q) (c : Q) j :
  Forall (λ x, x == c)%Q a → (j < length a)%nat → (nth j a 0 == c)%Q.
Proof.
  intros Hall Hj. eapply Forall_forall in Hall; [exact Hall |].
  by apply list_elem_of_In, nth_In.
Qed.

Lemma quantile_const (a : list Q) (c : Q) k :
  a ≠ [] → Forall (λ x, x == c)%Q a → 0 ≤ k ≤ 4 → (quantile a 4 k == c)%Q.
Proof.
  intros Hne Hall Hk. unfold quantile.
  assert (0 < length a)%nat by (destruct a; [done | simpl; lia]).
  set (n1 := Z.of_nat (length a) - 1).
  assert (0 ≤ k * n1 / 4 ≤ n1).
  { assert (0 ≤ n1) by (unfold n1; lia).
    split; [apply Z.div_pos; nia |].
    apply Z.div_le_upper_bound; nia. }
  rewrite (nth_const a c (Z.to_nat (k * n1 / 4))) by (done || lia).
  rewrite (nth_const a c (Nat.min _ _)) by (done || lia).
  ring.
Qed.

Lemma to_numeric_numbers (vs : list Value) :
  Forall (λ v, is_Some (to_num v)) vs →
  to_numeric vs = Return (to_num <$> vs).
Proof.
  induction 1 as [|v vs [q Hq] _ IH]; [done |].
  rewrite fmap_cons. cbn [to_numeric]. rewrite IH.
  by destruct v.
Qed.

(** qcut on a non-empty column whose values are all equal raises: the
    five quartile edges coincide. *)
Lemma qcut_constant {A} (x : Series) (labels : list A) (c : Q) :
  s_values x ≠ [] →
  Forall (λ v, ∃ q, to_num v = Some q ∧ (q == c)%Q) (s_values x) →
  qcut x 4 labels = Raise (ValueError "Bin edges must be unique").
Proof.
  intros Hne Hall. unfold qcut.
  rewrite to_numeric_numbers
    by (eapply Forall_impl; [exact Hall |]; by intros v (q & -> & _)).
  set (xs := omap id (to_num <$> s_values x)).
  assert (Forall (λ q, q == c)%Q xs) as Hxs.
  { apply Forall_forall. intros q Hq.
    apply list_elem_of_omap in Hq as (o & Ho & Hq). simpl in Hq. subst o.
    apply list_elem_of_fmap in Ho as (v & Hv & Hin).
    eapply Forall_forall in Hall; [| exact Hin].
    destruct Hall as (q' & Hq' & Hc). congruence. }
  assert (xs ≠ []) as Hxne.
  { subst xs. destruct (s_values x) as [|v vs]; [done |].
    apply Forall_cons in Hall as [(q & Hq & _) _].
    rewrite fmap_cons, Hq. done. }
  assert (Forall (λ q, q == c)%Q (sort_values xs)) as Hs.
  { apply Forall_forall. intros q Hq.
    apply (proj1 (sort_values_elem q xs)) in Hq.
    exact (proj1 (Forall_forall _ _) Hxs q Hq). }
  destruct (sort_values xs) as [|a0 a] eqn:Ha.
  { exfalso. destruct xs as [|y ys]; [done |].
    unfold sort_values in Ha. simpl in Ha.
    pose proof (insert_sorted_length y (foldr insert_sorted [] ys)) as Hl.
    by rewrite Ha in Hl. }
  unfold bins_to_cuts. cbn [fmap list_fmap seq].
  assert (has_duplicates
            [Fin (quantile (a0 :: a) (Z.of_nat 4) (Z.of_nat 0));
             Fin (quantile (a0 :: a) (Z.of_nat 4) (Z.of_nat 1));
             Fin (quantile (a0 :: a) (Z.of_nat 4) (Z.of_nat 2));
             Fin (quantile (a0 :: a) (Z.of_nat 4) (Z.of_nat 3));
             Fin (quantile (a0 :: a) (Z.of_nat 4) (Z.of_nat 4))] = true) as ->.
  { cbn [has_duplicates existsb edge_eqb].
    assert (Qeq_bool (quantile (a0 :: a) (Z.of_nat 4) (Z.of_nat 0))
              (quantile (a0 :: a) (Z.of_nat 4) (Z.of_nat 1)) = true) as ->;
      [| done].
    apply Qeq_bool_iff.
    change (Z.of_nat 4) with 4. change (Z.of_nat 0) with 0.
    change (Z.of_nat 1) with 1.
    rewrite !(quantile_const (a0 :: a) c) by (done || lia). reflexivity. }
  done.
Qed.

(** Quartile scoring fails, and changes nothing, as soon as one of the
    three metrics takes a single value over all customers (every customer
    bought once, say): the quartile edges coincide. When the constant
    metric is recency the exception is ValueError("Bin edges must be
    unique"). *)
Theorem quartile_mode_rejects_constant_metric
    rfm (h : gmap positive DataFrame) df metric score vs (c : Q) :
  h !! rfm = Some df → (metric, score) ∈ metric_scores →
  df_columns df !! metric = Some vs → vs ≠ [] →
  Forall (λ v, ∃ q, to_num v = Some q ∧ (q == c)%Q) vs →
  ∃ e, add_rfm_scores rfm true h = (Raise e, h) ∧
       (metric = "recency" → e = ValueError "Bin edges must be unique").
Proof.
  intros Hdf Hpair Hvs Hne Hall.
  assert (∀ labels : list Z,
            qcut (mkSeries (df_index df) vs) 4 labels
            = Raise (ValueError "Bin edges must be unique")) as Hq.
  { intros labels. by apply (qcut_constant _ labels c). }
  destruct (add_rfm_scores_quartiles_run rfm h df Hdf)
    as [[e He] | (rv & fv & mv & rq & fq & mq & Hr & Hf & Hm & Hqr & Hqf
                  & Hqm & _)].
  - exists e. split; [done |]. intros ->.
    assert (add_rfm_scores rfm true h
            = (Raise (ValueError "Bin edges must be unique"), h)) as He'.
    { assert (py_getitem rfm "recency" h
              = (Return (mkSeries (df_index df) vs), h)) as Hg.
      { rewrite (py_getitem_run _ _ _ _ Hdf). unfold getitem.
        by rewrite Hvs. }
      unfold add_rfm_scores. apply bind_raise.
      rewrite (bind_run _ _ _ _ _ Hg). apply bind_raise.
      unfold lift_outcome. by rewrite Hq. }
    congruence.
  - exfalso. unfold metric_scores in Hpair.
    repeat (apply elem_of_cons in Hpair as [[= -> ->] | Hpair]);
      [.. | by apply elem_of_nil in Hpair]; simplify_eq;
      match goal with
      | H : qcut _ 4 ?l = Return _ |- _ => rewrite (Hq l) in H; done
      end.
Qed.

(** ** Fixed-break scoring, forward *)

Lemma cut_fixed (x : Series) (b1 b2 b3 : Q) (labels : list Z) xs :
  length labels = 4%nat →
  has_duplicates [Fin 0; Fin b1; Fin b2; Fin b3; Inf] = false →
  to_numeric (s_values x) = Return xs →
  cut x [Fin 0; Fin b1; Fin b2; Fin b3; Inf] labels
  = Return (assign_label [Fin 0; Fin b1; Fin b2; Fin b3; Inf] labels false
              <$> xs).
Proof.
  intros Hlen Hdup Hnum. unfold cut, bins_to_cuts. rewrite Hnum, Hdup.
  cbn [andb]. rewrite Hlen. done.
Qed.

(** add_rfm_scores with fixed breaks on a frame whose three metric
    columns are numeric: it returns, with the scores of the hard-coded
    bins. *)
Lemma add_rfm_scores_fixed_run rfm (h : gmap positive DataFrame) df
    rv fv mv rx fx mx :
  h !! rfm = Some df →
  df_columns df !! "recency" = Some rv →
  df_columns df !! "frequency" = Some fv →
  df_columns df !! "monetary_avg" = Some mv →
  to_numeric rv = Return rx → to_numeric fv = Return fx →
  to_numeric mv = Return mx →
  let r := assign_label recency_bins [4; 3; 2; 1] false <$> rx in
  let f := assign_label frequency_bins [1; 2; 3; 4] false <$> fx in
  let m := assign_label monetary_bins [1; 2; 3; 4] false <$> mx in
  add_rfm_scores rfm false h =
    (Return rfm,
     <[rfm := mkDataFrame (df_index df)
        (<["RFM_Score" := concat_scores r f m]>
         (<["M_score" := label_value <$> m]>
          (<["F_score" := label_value <$> f]>
           (<["R_score" := label_value <$> r]> (df_columns df)))))]> h).
Proof.
  intros Hdf Hr Hf Hm Hrx Hfx Hmx r f m.
  assert (cut (mkSeries (df_index df) rv) recency_bins [4; 3; 2; 1]
          = Return r) as Hcr by by apply cut_fixed.
  assert (cut (mkSeries (df_index df) fv) frequency_bins [1; 2; 3; 4]
          = Return f) as Hcf by by apply cut_fixed.
  assert (cut (mkSeries (df_index df) mv) monetary_bins [1; 2; 3; 4]
          = Return m) as Hcm by by apply cut_fixed.
  unfold add_rfm_scores, py_getitem, py_setitem, getitem, lift_outcome,
    with_index, setitem.
  unfold mbind, Py_bind, mret, Py_ret. cbn [s_index s_values].
  rewrite Hdf, Hr, Hcr. cbn beta iota zeta.
  rewrite Hdf, bool_decide_true by done. cbn beta iota zeta.
  rewrite lookup_insert_eq. cbn [df_index df_columns].
  rewrite lookup_insert_ne, Hf, Hcf by done. cbn beta iota zeta.
  rewrite lookup_insert_eq. cbn [df_index df_columns].
  rewrite bool_decide_true by done. cbn beta iota zeta.
  rewrite lookup_insert_eq. cbn [df_index df_columns].
  rewrite lookup_insert_ne, lookup_insert_ne, Hm, Hcm by done.
  cbn beta iota zeta.
  rewrite lookup_insert_eq. cbn [df_index df_columns].
  rewrite bool_decide_true by done. cbn beta iota zeta.
  rewrite lookup_insert_eq. cbn [df_index df_columns].
  rewrite lookup_insert_ne, lookup_insert_ne, lookup_insert_eq by done.
  cbn beta iota zeta. rewrite lookup_insert_eq. cbn [df_index df_columns s_index].
  rewrite bool_decide_true by done. cbn beta iota zeta.
  by rewrite !insert_insert_eq.
Qed.

Lemma Forall2_collect {A B} (f : A → Outcome Value) (c : B → Value)
    (P : B → Prop) (l : list A) (vs : list Value) :
  Forall2 (λ x v, f x = Return v) l vs →
  (∀ x v, x ∈ l → f x = Return v → ∃ z, v = c z ∧ P z) →
  ∃ zs, vs = c <$> zs ∧ Forall P zs.
Proof.
  induction 1 as [|x v l vs Hx _ IH]; intros Hf.
  - by exists [].
  - destruct (Hf x v) as (z & -> & HP); [left | done |].
    destruct IH as (zs & -> & Hall); [intros y w Hy; apply Hf; by right |].
    exists (z :: zs). split; [done | by constructor].
Qed.

Lemma fmap_collect {A B} (f : A → Value) (c : B → Value) (P : B → Prop)
    (l : list A) :
  (∀ x, x ∈ l → ∃ z, f x = c z ∧ P z) →
  ∃ zs, f <$> l = c <$> zs ∧ Forall P zs.
Proof.
  induction l as [|x l IH]; intros Hf.
  - by exists [].
  - destruct (Hf x) as (z & Hz & HP); [left |].
    destruct IH as (zs & Hzs & Hall); [intros y Hy; apply Hf; by right |].
    exists (z :: zs). rewrite !fmap_cons, Hz, Hzs. split; [done |].
    by constructor.
Qed.

Lemma to_numeric_floats (qs : list Q) :
  to_numeric (VFloat <$> qs) = Return (Some <$> qs).
Proof.
  induction qs as [|q qs IH]; [done |].
  rewrite !fmap_cons. cbn [to_numeric]. by rewrite IH.
Qed.

Lemma Series_sum_pos (l : list Q) :
  l ≠ [] → Forall (λ q, 0 < q)%Q l → (0 < Series_sum l)%Q.
Proof.
  intros Hne Hall. induction Hall as [|q l Hq Hall IH]; [done |]. simpl.
  destruct l as [|q' l].
  - simpl. by rewrite Qplus_0_r.
  - rewrite <- (Qplus_0_r 0). apply Qplus_lt_le_compat; [done |].
    apply Qlt_le_weak, IH. done.
Qed.

Lemma mean_pos (l : list Q) :
  l ≠ [] → Forall (λ q, 0 < q)%Q l →
  ∃ q, Series_mean l = VFloat q ∧ (0 < q)%Q.
Proof.
  intros Hne Hall. destruct l as [|x l]; [done |]. unfold Series_mean.
  eexists. split; [done |]. unfold Qdiv.
  apply Qmult_lt_0_compat; [by apply Series_sum_pos |].
  apply Qinv_lt_0_compat. change 0%Q with (inject_Z 0).
  rewrite <- Zlt_Qlt. simpl. lia.
Qed.

Lemma mean_is_float (l : list Q) :
  l ≠ [] → ∃ q, Series_mean l = VFloat q.
Proof. destruct l; [done |]. intros _. unfold Series_mean. eauto. Qed.

Section ColumnsOfCalculateRFM.
Variable transactions : list Transaction.

Let groups := get_group transactions <$> group_keys transactions.

Lemma groups_elem g :
  g ∈ groups → g ≠ [] ∧ ∀ t, t ∈ g → t ∈ transactions.
Proof.
  intros (k & -> & Hk)%list_elem_of_fmap. split.
  - by apply get_group_nonempty.
  - by intros t [? _]%get_group_elem.
Qed.

Lemma recency_column_default m recency :
  Series_max (transaction_date <$> transactions) = Some m →
  mapM (agg_recency (Some (m + 1 * ns_per_day))) groups = Return recency →
  ∃ rs, recency = VInt <$> rs ∧ Forall (λ r, 1 ≤ r) rs ∧
        length rs = length (group_keys transactions).
Proof.
  intros Hm Hrec. apply mapM_Return_inv in Hrec.
  pose proof (Forall2_length _ _ _ Hrec) as Hlen.
  unfold groups in Hlen. rewrite length_fmap in Hlen.
  destruct (Forall2_collect (agg_recency (Some (m + 1 * ns_per_day))) VInt
              (λ r, 1 ≤ r) groups recency Hrec) as (rs & -> & Hall).
  { intros g v [Hne Hsub]%groups_elem Hv.
    destruct (recency_default_positive transactions g m v)
      as (last & _ & -> & Hpos); try done. eauto. }
  exists rs. split; [done |]. split; [done |].
  by rewrite length_fmap in Hlen.
Qed.

Lemma frequency_column :
  ∃ ns, agg_frequency <$> groups = VInt <$> ns ∧ Forall (λ n, 1 ≤ n) ns.
Proof.
  apply fmap_collect. intros g [Hne _]%groups_elem.
  exists (Z.of_nat (length g)). split; [done |].
  destruct g; [done | simpl; lia].
Qed.

Lemma monetary_avg_column :
  ∃ qs, agg_monetary_avg <$> groups = VFloat <$> qs ∧
        ((∀ t, t ∈ transactions → (0 < amount t)%Q) →
         Forall (λ q, 0 < q)%Q qs).
Proof.
  destruct (fmap_collect agg_monetary_avg VFloat (λ _, True) groups)
    as (qs & Hqs & _).
  { intros g [Hne _]%groups_elem. unfold agg_monetary_avg.
    destruct (mean_is_float (amount <$> g)) as [q Hq]; [by destruct g |].
    eauto. }
  exists qs. split; [done |]. intros Hpos.
  destruct (fmap_collect agg_monetary_avg VFloat (λ q, 0 < q)%Q groups)
    as (qs' & Hqs' & Hall).
  { intros g [Hne Hsub]%groups_elem. unfold agg_monetary_avg.
    apply mean_pos; [by destruct g |].
    apply Forall_fmap, Forall_forall. intros t Ht. apply Hpos, Hsub, Ht. }
  rewrite Hqs in Hqs'.
  assert (qs = qs') as ->; [| done].
  clear -Hqs'. revert qs' Hqs'.
  induction qs as [|q qs IH]; intros [|q' qs'] Heq; simplify_eq/=;
    [done |]. f_equal. by apply IH.
Qed.

End ColumnsOfCalculateRFM.

Lemma fixed_label_in_range (bins : list Edge) (b1 b2 b3 x : Q) (l1 l2 l3 l4 : Z) :
  bins = [Fin 0; Fin b1; Fin b2; Fin b3; Inf] → (0 < x)%Q →
  Forall (λ z, 1 ≤ z ≤ 4) [l1; l2; l3; l4] →
  ∃ s, assign_label bins [l1; l2; l3; l4] false (Some x) = Some s ∧ 1 ≤ s ≤ 4.
Proof.
  intros -> Hx Hall. rewrite fixed_break_positive by done.
  eexists. split; [done |].
  repeat (match goal with |- context [if ?b then _ else _] => destruct b end);
    (eapply Forall_forall in Hall; [exact Hall |]); set_solver.
Qed.

(** Fixed-break scoring of the table computed from a non-empty
    transactions table with the default analysis date always returns,
    and gives every customer an R_score and an F_score in 1..4 (recency
    is then at least one day, so the unscored value 0 does not occur);
    every customer has an M_score in 1..4 as well when all amounts are
    positive. *)
Theorem fixed_breaks_score_default_date
    (transactions : list Transaction) (rfm_df : DataFrame)
    (h : gmap positive DataFrame) (rfm : loc) :
  transactions ≠ [] →
  calculate_rfm transactions None = Return rfm_df →
  h !! rfm = Some rfm_df →
  ∃ h' df',
    add_rfm_scores rfm false h = (Return rfm, h') ∧ h' !! rfm = Some df' ∧
    ∀ i, (i < length (df_index rfm_df))%nat →
      (∃ s, cell df' "R_score" i = Some (VInt s) ∧ 1 ≤ s ≤ 4) ∧
      (∃ s, cell df' "F_score" i = Some (VInt s) ∧ 1 ≤ s ≤ 4) ∧
      ((∀ t, t ∈ transactions → (0 < amount t)%Q) →
       ∃ s, cell df' "M_score" i = Some (VInt s) ∧ 1 ≤ s ≤ 4).
Proof.
  intros Hne Hcalc Hdf.
  destruct (calculate_rfm_columns _ _ _ Hcalc)
    as (a & recency & Ts & Ha & Hrecm & _ & Hidx & _ & Hrec & Hfreq & _
        & Havg & _).
  simpl in Ha.
  destruct (default_analysis_date_Return _ _ Hne Ha) as (m & Hm & ->).
  destruct (recency_column_default transactions m recency Hm Hrecm)
    as (rs & -> & Hrpos & Hrlen).
  destruct (frequency_column transactions) as (ns & Hns & Hnpos).
  destruct (monetary_avg_column transactions) as (qs & Hqs & Hqpos).
  rewrite Hns in Hfreq. rewrite Hqs in Havg.
  assert (length rs = length (df_index rfm_df)
          ∧ length ns = length (df_index rfm_df)
          ∧ length qs = length (df_index rfm_df)) as (Hlr & Hln & Hlq).
  { rewrite Hidx. unfold RangeIndex. rewrite length_fmap, length_seq.
    apply (f_equal length) in Hns, Hqs.
    rewrite !length_fmap in Hns. rewrite !length_fmap in Hqs. lia. }
  pose proof (add_rfm_scores_fixed_run rfm h rfm_df _ _ _ _ _ _ Hdf Hrec
                Hfreq Havg (to_numeric_ints rs) (to_numeric_ints ns)
                (to_numeric_floats qs)) as Hrun.
  cbv zeta in Hrun. do 2 eexists. split; [exact Hrun |].
  rewrite lookup_insert_eq. split; [done |]. intros i Hi. unfold cell.
  cbn [df_columns].
  rewrite lookup_insert_ne, lookup_insert_ne, lookup_insert_ne,
    lookup_insert_eq by done.
  rewrite (lookup_insert_ne _ "RFM_Score" "F_score"),
    (lookup_insert_ne _ "M_score" "F_score"), lookup_insert_eq by done.
  rewrite (lookup_insert_ne _ "RFM_Score" "M_score"), lookup_insert_eq by done.
  cbn [mbind option_bind]. rewrite !list_lookup_fmap.
  destruct (lookup_lt_is_Some_2 rs i) as [r Hr]; [lia |].
  destruct (lookup_lt_is_Some_2 ns i) as [n Hn]; [lia |].
  destruct (lookup_lt_is_Some_2 qs i) as [q Hq]; [lia |].
  rewrite Hr, Hn, Hq. cbn [fmap option_fmap option_map].
  eapply Forall_lookup in Hrpos; [| exact Hr].
  eapply Forall_lookup in Hnpos; [| exact Hn]. simpl in Hrpos, Hnpos.
  assert (∀ z, 1 ≤ z → (0 < inject_Z z)%Q) as Hinj.
  { intros z Hz. change 0%Q with (inject_Z 0). rewrite <- Zlt_Qlt. lia. }
  split; [| split].
  - destruct (fixed_label_in_range recency_bins 7 30 90 (inject_Z r) 4 3 2 1)
      as (s & -> & Hs); [done | by apply Hinj | repeat constructor; lia |].
    eauto.
  - destruct (fixed_label_in_range frequency_bins 2 5 10 (inject_Z n) 1 2 3 4)
      as (s & -> & Hs); [done | by apply Hinj | repeat constructor; lia |].
    eauto.
  - intros Hpos. specialize (Hqpos Hpos).
    eapply Forall_lookup in Hqpos; [| exact Hq]. simpl in Hqpos.
    destruct (fixed_label_in_range monetary_bins 100 250 500 q 1 2 3 4)
      as (s & -> & Hs); [done | done | repeat constructor; lia |].
    eauto.
Qed.

(** ** The shape of the RFM table *)

Lemma reindex_values_length (s : Series) (labels : list Z) :
  length (reindex_values s labels) = length labels.
Proof. unfold reindex_values. case_match; by rewrite length_fmap. Qed.

Lemma T_column_length (keys : list Z) (Ts : list Value) :
  length Ts = length keys → length (T_column keys Ts) = length keys.
Proof.
  intros Hlen. unfold T_column. case_bool_decide; [done |].
  rewrite reindex_values_length. unfold RangeIndex.
  by rewrite length_fmap, length_seq.
Qed.

Lemma calculate_rfm_only_columns transactions analysis_date rfm col :
  calculate_rfm transactions analysis_date = Return rfm →
  is_Some (df_columns rfm !! col) → col ∈ rfm_columns.
Proof.
  unfold calculate_rfm.
  destruct (analysis_date_or_default _ _) as [a|]; [| done].
  cbn [mbind Outcome_bind].
  destruct (mapM (agg_recency a) _) as [recency|]; [| done].
  cbn [mbind Outcome_bind].
  destruct (mapM (agg_T a) _) as [Ts|]; [| done].
  cbn [mbind Outcome_bind].
  unfold setitem. cbn [s_index s_values df_index df_columns].
  rewrite (bool_decide_true (NoDup _)) by apply group_keys_NoDup.
  case_bool_decide; intros [= <-] [vs Hvs]; cbn [df_columns] in Hvs;
    unfold rfm_columns;
    repeat match type of Hvs with
           | <[?k := _]> _ !! col = _ =>
               destruct (decide (col = k)) as [-> | ?];
               [set_solver | rewrite lookup_insert_ne in Hvs by done]
           end;
    by rewrite lookup_empty in Hvs.
Qed.

(** Every table calculate_rfm returns on a non-empty transactions table
    is well formed: at least one row, one row per customer of the input,
    rows in ascending customer_id, positional index 0..n-1, and each of
    the six columns, and no other, with one cell per row. *)
Theorem calculate_rfm_shape (transactions : list Transaction)
    (analysis_date : option Z) (rfm : DataFrame) :
  transactions ≠ [] →
  calculate_rfm transactions analysis_date = Return rfm →
  ∃ ids,
    ids ≠ [] ∧
    df_index rfm = RangeIndex (length ids) ∧
    df_columns rfm !! "customer_id" = Some (VInt <$> ids) ∧
    StronglySorted Z.lt ids ∧
    (∀ c, c ∈ ids ↔ ∃ t, t ∈ transactions ∧ customer_id t = c) ∧
    (∀ col, col ∈ rfm_columns → full_column rfm col) ∧
    (∀ col, is_Some (df_columns rfm !! col) → col ∈ rfm_columns).
Proof.
  intros Hne Hrun.
  destruct (calculate_rfm_columns _ _ _ Hrun)
    as (a & recency & Ts & _ & Hrec & HTs & Hidx & Hid & Hr & Hf & Hs & Hm
        & HT).
  apply mapM_Return_inv, Forall2_length in Hrec, HTs.
  rewrite length_fmap in Hrec, HTs.
  exists (group_keys transactions).
  split; [by apply group_keys_nonempty |]. split; [done |].
  split; [done |]. split; [apply group_keys_sorted |].
  split; [intros c; apply group_keys_elem |]. split.
  - intros col Hcol. unfold rfm_columns in Hcol.
    repeat (apply elem_of_cons in Hcol as [-> | Hcol]);
      [.. | by apply elem_of_nil in Hcol];
      eexists; (split; [eassumption |]);
      rewrite Hidx; unfold RangeIndex;
      rewrite ?T_column_length, ?length_fmap, ?length_seq by done; lia.
  - intros col. apply (calculate_rfm_only_columns _ _ _ _ Hrun).
Qed.

Lemma list_to_map_zip_fmap (g : Z → Value) (keys : list Z) (k : Z) :
  (list_to_map (zip keys (g <$> keys)) : gmap Z Value) !! k
  = if decide (k ∈ keys) then Some (g k) else None.
Proof.
  induction keys as [|k0 keys IH].
  - destruct (decide (k ∈ [])) as [Hk | _]; [by apply elem_of_nil in Hk |].
    apply lookup_empty.
  - rewrite fmap_cons.
    change (zip (k0 :: keys) (g k0 :: (g <$> keys)))
      with ((k0, g k0) :: zip keys (g <$> keys)).
    rewrite list_to_map_cons.
    destruct (decide (k = k0)) as [-> | Hne].
    + rewrite lookup_insert_eq.
      destruct (decide (k0 ∈ k0 :: keys)) as [_ | Hk]; [done |].
      exfalso; apply Hk; left.
    + rewrite lookup_insert_ne, IH by done.
      destruct (decide (k ∈ keys)) as [Hin | Hnin],
        (decide (k ∈ k0 :: keys)) as [Hin' | Hnin']; try done; exfalso.
      * apply Hnin'. by right.
      * apply elem_of_cons in Hin' as [-> | ?]; done.
Qed.

Lemma RangeIndex_lookup (n i : nat) :
  (i < n)%nat → RangeIndex n !! i = Some (Z.of_nat i).
Proof.
  intros Hi. unfold RangeIndex. by rewrite list_lookup_fmap, lookup_seq_lt.
Qed.

Lemma to_num_upcast (v : Value) : to_num (upcast_float v) = to_num v.
Proof. by destruct v. Qed.

Lemma Forall2_fmap_eq {A B C} (f : B → Outcome C) (h : A → B) (g : A → C)
    (l : list A) (ys : list C) :
  Forall2 (λ x y, f x = Return y) (h <$> l) ys →
  (∀ k y, k ∈ l → f (h k) = Return y → y = g k) →
  ys = g <$> l.
Proof.
  revert ys. induction l as [|k l IH]; intros ys Hall Hg.
  - by apply Forall2_nil_inv_l in Hall as ->.
  - rewrite fmap_cons in Hall.
    apply Forall2_cons_inv_l in Hall as (y & ys' & Hy & Hall & ->).
    rewrite fmap_cons. f_equal.
    + apply Hg; [left | done].
    + apply IH; [done |]. intros k' y' Hk'. apply Hg. by right.
Qed.

(** In a table calculate_rfm returns on a non-empty transactions table,
    column T is filled by position: the cell on row i holds the days
    from the first purchase of the customer whose id is the number i to
    the analysis date, whichever customer the row belongs to, and NaN
    when no customer has that id. *)
Theorem T_follows_positional_index (transactions : list Transaction)
    (analysis_date : option Z) (rfm : DataFrame) :
  transactions ≠ [] →
  calculate_rfm transactions analysis_date = Return rfm →
  ∃ a,
    analysis_date_or_default transactions analysis_date = Return (Some a) ∧
    ∀ i, (i < length (df_index rfm))%nat →
      ((∃ t, t ∈ transactions ∧ customer_id t = Z.of_nat i) →
       ∃ first v,
         Series_min (transaction_date <$> get_group transactions (Z.of_nat i))
         = Some first ∧
         cell rfm "T" i = Some v ∧
         to_num v = Some (inject_Z ((a - first) / ns_per_day))) ∧
      ((∀ t, t ∈ transactions → customer_id t ≠ Z.of_nat i) →
       cell rfm "T" i = Some VNaN).
Proof.
  intros Hne Hrun.
  destruct (calculate_rfm_columns _ _ _ Hrun)
    as (a' & recency & Ts & Ha & _ & HTs & Hidx & _ & _ & _ & _ & _ & HT).
  destruct (analysis_date_is_Some _ _ _ Hne Ha) as [a ->].
  exists a. split; [done |]. intros i Hi.
  rewrite Hidx in Hi. unfold RangeIndex in Hi.
  rewrite length_fmap, length_seq in Hi.
  set (keys := group_keys transactions) in *.
  set (first_of := λ k,
         default 0 (Series_min (transaction_date <$> get_group transactions k))).
  set (g := λ k, VInt ((a - first_of k) / ns_per_day)).
  assert (∀ k, k ∈ keys →
            Series_min (transaction_date <$> get_group transactions k)
            = Some (first_of k)) as Hfirst.
  { intros k Hk. unfold first_of.
    destruct (Series_min_spec (transaction_date <$> get_group transactions k))
      as (m & -> & _); [| done].
    pose proof (get_group_nonempty _ _ Hk).
    by destruct (get_group transactions k). }
  assert (Ts = g <$> keys) as Hvals.
  { apply mapM_Return_inv in HTs.
    apply (Forall2_fmap_eq (agg_T (Some a)) (get_group transactions)); [done |].
    intros k y Hk Hy.
    apply agg_T_Return in Hy as (m & Hm & _ & ->);
      [| by apply get_group_nonempty].
    rewrite (Hfirst k Hk) in Hm. injection Hm as <-. done. }
  unfold cell. rewrite HT. cbn [mbind option_bind]. unfold T_column.
  fold keys.
  case_bool_decide as Hal.
  - assert (keys !! i = Some (Z.of_nat i)) as Hk
      by (rewrite Hal; by apply RangeIndex_lookup).
    assert (Z.of_nat i ∈ keys) as Hin by by eapply list_elem_of_lookup_2.
    rewrite Hvals, list_lookup_fmap, Hk. simpl. split.
    + intros _. exists (first_of (Z.of_nat i)). eexists.
      split; [by apply Hfirst |]. split; [done |]. done.
    + intros Hnone. exfalso.
      apply group_keys_elem in Hin as (t & Ht & Hid). by eapply Hnone.
  - unfold reindex_values, series_map. cbn [s_index s_values].
    rewrite Hvals.
    assert (∀ f : Z → Value,
              (f <$> RangeIndex (length keys)) !! i = Some (f (Z.of_nat i)))
      as Hlook.
    { intros f. by rewrite list_lookup_fmap, RangeIndex_lookup. }
    split.
    + intros Hex. apply group_keys_elem in Hex. fold keys in Hex.
      exists (first_of (Z.of_nat i)).
      case_match; rewrite Hlook, list_to_map_zip_fmap;
        (case_decide; [| done]); simpl; eexists;
        (split; [by apply Hfirst |]); (split; [done |]);
        by rewrite ?to_num_upcast.
    + intros Hnone.
      assert (Z.of_nat i ∉ keys) as Hnin.
      { intros (t & Ht & Hid)%group_keys_elem. by eapply Hnone. }
      case_match; rewrite Hlook, list_to_map_zip_fmap;
        by (case_decide; [done |]).
Qed.

(** calculate_rfm does not check analysis_date against the data: in a
    table it returns on a non-empty transactions table, the recency of a
    customer is the floor of (analysis_date - last purchase) in days,
    which is negative exactly when the analysis date is before that
    customer's last purchase, and 0 within the first day after it. *)
Theorem recency_sign (transactions : list Transaction) (a : Z)
    (rfm : DataFrame) :
  transactions ≠ [] →
  calculate_rfm transactions (Some a) = Return rfm →
  ∃ ids,
    df_columns rfm !! "customer_id" = Some (VInt <$> ids) ∧
    ids ≠ [] ∧
    (∀ c, c ∈ ids ↔ ∃ t, t ∈ transactions ∧ customer_id t = c) ∧
    ∀ i k, ids !! i = Some k →
      ∃ last,
        Series_max (transaction_date <$> get_group transactions k) = Some last ∧
        cell rfm "recency" i = Some (VInt ((a - last) / ns_per_day)) ∧
        ((a - last) / ns_per_day < 0 ↔ a < last) ∧
        ((a - last) / ns_per_day = 0 ↔ last ≤ a < last + ns_per_day).
Proof.
  intros Hne Hrun.
  destruct (calculate_rfm_columns _ _ _ Hrun)
    as (a' & recency & Ts & Ha & Hrecm & _ & _ & Hid & Hrec & _).
  simpl in Ha. injection Ha as <-.
  exists (group_keys transactions). split; [done |].
  split; [by apply group_keys_nonempty |].
  split; [intros c; apply group_keys_elem |].
  intros i k Hk.
  assert (get_group transactions k ≠ []) as Hg.
  { apply get_group_nonempty. by eapply list_elem_of_lookup_2. }
  apply mapM_Return_inv in Hrecm.
  destruct (Forall2_groups_lookup _ _ _ _ _ Hrecm Hk) as (v & Hv & Hagg).
  apply agg_recency_Return in Hagg as (last & Hlast & _ & ->); [| done].
  exists last. split; [done |]. split.
  - unfold cell. rewrite Hrec. exact Hv.
  - assert (0 < ns_per_day) as Hd by done.
    pose proof (Z.div_mod (a - last) ns_per_day ltac:(lia)) as Hdm.
    pose proof (Z.mod_pos_bound (a - last) ns_per_day Hd) as Hb.
    set (q := (a - last) / ns_per_day) in *.
    set (m := (a - last) mod ns_per_day) in *.
    split; split; intros; nia.
Qed.

(** ** The order of the transaction rows does not matter *)

Lemma sorted_lt_unique (l1 l2 : list Z) :
  StronglySorted Z.lt l1 → StronglySorted Z.lt l2 →
  (∀ x, x ∈ l1 ↔ x ∈ l2) → l1 = l2.
Proof.
  intros Hs1. revert l2.
  induction Hs1 as [|x l1 Hs1 IH H1]; intros l2 Hs2 Heq.
  - destruct l2 as [|y l2]; [done |].
    exfalso. eapply elem_of_nil, Heq. left.
  - destruct Hs2 as [|y l2 Hs2 H2].
    { exfalso. eapply elem_of_nil, Heq. left. }
    assert (x = y) as ->.
    { assert (x ∈ y :: l2) as Hx by (apply Heq; left).
      assert (y ∈ x :: l1) as Hy by (apply Heq; left).
      apply elem_of_cons in Hx as [-> | Hx]; [done |].
      apply elem_of_cons in Hy as [-> | Hy]; [done |].
      eapply Forall_forall in H1; [| exact Hy].
      eapply Forall_forall in H2; [| exact Hx]. lia. }
    f_equal. apply IH; [done |]. intros z. split; intros Hz.
    + assert (z ∈ y :: l2) as Hz' by (apply Heq; by right).
      apply elem_of_cons in Hz' as [-> | ?]; [| done].
      eapply Forall_forall in H1; [| exact Hz]. lia.
    + assert (z ∈ y :: l1) as Hz' by (apply Heq; by right).
      apply elem_of_cons in Hz' as [-> | ?]; [| done].
      eapply Forall_forall in H2; [| exact Hz]. lia.
Qed.

Lemma group_keys_perm (l l' : list Transaction) :
  l ≡ₚ l' → group_keys l = group_keys l'.
Proof.
  intros Hp. apply sorted_lt_unique; try apply group_keys_sorted.
  intros k. rewrite !group_keys_elem.
  split; intros (t & Ht & Hk); exists t; (split; [| done]).
  - by rewrite <- Hp.
  - by rewrite Hp.
Qed.

Lemma get_group_perm (l l' : list Transaction) k :
  l ≡ₚ l' → get_group l k ≡ₚ get_group l' k.
Proof. intros Hp. unfold get_group. by rewrite Hp. Qed.

Lemma Series_max_perm (l l' : list Z) :
  l ≡ₚ l' → Series_max l = Series_max l'.
Proof.
  intros Hp. destruct l as [|x l].
  { by apply Permutation_nil_l in Hp as ->. }
  destruct l' as [|y l']; [by apply Permutation_nil_r in Hp |].
  destruct (Series_max_spec (x :: l)) as (m & -> & Hm & Hle); [done |].
  destruct (Series_max_spec (y :: l')) as (m' & -> & Hm' & Hle'); [done |].
  f_equal. rewrite Hp in Hm. rewrite <- Hp in Hm'.
  specialize (Hle m' Hm'). specialize (Hle' m Hm). lia.
Qed.

Lemma Series_min_perm (l l' : list Z) :
  l ≡ₚ l' → Series_min l = Series_min l'.
Proof.
  intros Hp. destruct l as [|x l].
  { by apply Permutation_nil_l in Hp as ->. }
  destruct l' as [|y l']; [by apply Permutation_nil_r in Hp |].
  destruct (Series_min_spec (x :: l)) as (m & -> & Hm & Hle); [done |].
  destruct (Series_min_spec (y :: l')) as (m' & -> & Hm' & Hle'); [done |].
  f_equal. rewrite Hp in Hm. rewrite <- Hp in Hm'.
  specialize (Hle m' Hm'). specialize (Hle' m Hm). lia.
Qed.

(** Addition of rationals is commutative on the representation itself. *)
Lemma Qplus_swap (x y z : Q) : (x + (y + z))%Q = (y + (x + z))%Q.
Proof.
  destruct x as [xn xd], y as [yn yd], z as [zn zd]. unfold Qplus. simpl.
  f_equal; [| lia]. rewrite !Pos2Z.inj_mul. ring.
Qed.

Lemma Series_sum_perm (l l' : list Q) : l ≡ₚ l' → Series_sum l = Series_sum l'.
Proof.
  intros Hp. unfold Series_sum.
  apply (foldr_permutation (=) Qplus 0%Q); [| done].
  intros j1 a1 j2 a2 b _ _ _. apply Qplus_swap.
Qed.

Lemma Series_mean_perm (l l' : list Q) : l ≡ₚ l' → Series_mean l = Series_mean l'.
Proof.
  intros Hp. unfold Series_mean.
  pose proof (Permutation_length Hp) as Hlen.
  destruct l, l'; try done.
  by rewrite (Series_sum_perm _ _ Hp), Hlen.
Qed.

Lemma mapM_groups_perm {B} (agg : list Transaction → Outcome B)
    (transactions transactions' : list Transaction) (keys : list Z) :
  transactions ≡ₚ transactions' →
  (∀ g g', g ≡ₚ g' → agg g = agg g') →
  mapM agg (get_group transactions <$> keys)
  = mapM agg (get_group transactions' <$> keys).
Proof.
  intros Hp Hagg. induction keys as [|k keys IH]; [done |].
  rewrite !fmap_cons. simpl.
  rewrite (Hagg _ (get_group transactions' k)) by by apply get_group_perm.
  by rewrite IH.
Qed.

(** calculate_rfm gives the same table whatever the order of the
    transaction rows (amounts being exact numbers, a sum does not depend
    on the order of its terms). *)
Theorem calculate_rfm_order_independent
    (transactions transactions' : list Transaction) (analysis_date : option Z) :
  transactions ≡ₚ transactions' →
  calculate_rfm transactions analysis_date
  = calculate_rfm transactions' analysis_date.
Proof.
  intros Hp. unfold calculate_rfm.
  assert (analysis_date_or_default transactions analysis_date
          = analysis_date_or_default transactions' analysis_date) as ->.
  { destruct analysis_date; [done |]. simpl. unfold default_analysis_date.
    by rewrite (Series_max_perm _ (transaction_date <$> transactions'))
      by by rewrite Hp. }
  rewrite (group_keys_perm _ _ Hp).
  destruct (analysis_date_or_default transactions' analysis_date) as [a|];
    [| done].
  cbn [mbind Outcome_bind].
  set (keys := group_keys transactions').
  assert (∀ agg : list Transaction → Value,
            (∀ g g', g ≡ₚ g' → agg g = agg g') →
            agg <$> (get_group transactions <$> keys)
            = agg <$> (get_group transactions' <$> keys)) as Hcol.
  { intros agg Hagg. rewrite <- !list_fmap_compose.
    apply list_fmap_ext. intros i k _. simpl.
    by apply Hagg, get_group_perm. }
  rewrite (mapM_groups_perm (agg_recency a) _ _ keys Hp),
    (mapM_groups_perm (agg_T a) _ _ keys Hp),
    (Hcol agg_monetary_avg), (Hcol agg_monetary_sum), (Hcol agg_frequency);
    [done |..].
  - intros g g' Hg. unfold agg_frequency. by rewrite (Permutation_length Hg).
  - intros g g' Hg. unfold agg_monetary_sum.
    by rewrite (Series_sum_perm _ (amount <$> g')) by by rewrite Hg.
  - intros g g' Hg. unfold agg_monetary_avg.
    by rewrite (Series_mean_perm _ (amount <$> g')) by by rewrite Hg.
  - intros g g' Hg. unfold agg_T.
    by rewrite (Series_min_perm _ (transaction_date <$> g')) by by rewrite Hg.
  - intros g g' Hg. unfold agg_recency.
    by rewrite (Series_max_perm _ (transaction_date <$> g')) by by rewrite Hg.
Qed.

(** ** Segments of scored rows *)

Lemma in_1_4 (z : Z) : 1 ≤ z ≤ 4 → z = 1 ∨ z = 2 ∨ z = 3 ∨ z = 4.
Proof. lia. Qed.

(** On a row scored by add_rfm_scores with the three scores present, the
    segment is decided by the integers alone: Best Customers is R = 4
    with F and M at least 3 (so R = 3 with F = M = 4 is not Best), then
    Recent for R = 4, Loyal for F = 4, Big Spenders for M = 4, Lost for
    R = 1, Average otherwise. *)
Theorem segment_of_scored_row (row : Row) (r f m : Z) :
  1 ≤ r ≤ 4 → 1 ≤ f ≤ 4 → 1 ≤ m ≤ 4 →
  row !! "R_score" = Some (VInt r) →
  row !! "F_score" = Some (VInt f) →
  row !! "M_score" = Some (VInt m) →
  row !! "RFM_Score" = Some (rfm_score_str (Some r) (Some f) (Some m)) →
  segment_customer row = Return (segment_by_scores r f m).
Proof.
  intros Hr Hf Hm HR HF HM HS.
  rewrite segment_customer_total by (rewrite ?HR, ?HF, ?HM, ?HS; eauto).
  unfold row_scores. rewrite HR, HF, HM, HS. cbn [default from_option id].
  apply in_1_4 in Hr, Hf, Hm.
  destruct Hr as [-> | [-> | [-> | ->]]], Hf as [-> | [-> | [-> | ->]]],
    Hm as [-> | [-> | [-> | ->]]]; vm_compute; reflexivity.
Qed.

Lemma mapM_Raise {A B} (f : A → Outcome B) (x : A) (l : list A) e :
  f x = Raise e → mapM f (x :: l) = Raise e.
Proof. intros Hx. simpl. by rewrite Hx. Qed.

(** get_customer_segment on a table with at least one row and no
    RFM_Score column raises KeyError('RFM_Score') and changes nothing. *)
Theorem get_customer_segment_needs_scores
    rfm (h : gmap positive DataFrame) df :
  h !! rfm = Some df → df_index df ≠ [] →
  df_columns df !! "RFM_Score" = None →
  get_customer_segment rfm h = (Raise (KeyError "RFM_Score"), h).
Proof.
  intros Hdf Hrows Hnone. unfold get_customer_segment.
  erewrite bind_run; [| unfold deref; by rewrite Hdf].
  apply bind_raise. unfold rows.
  destruct (df_index df) as [|l ls]; [done |]. cbn [length seq fmap list_fmap].
  apply bind_raise. unfold lift_outcome. f_equal.
  apply mapM_Raise. unfold segment_customer, row_getitem.
  rewrite (row_at_lookup df 0 "RFM_Score"). unfold cell. by rewrite Hnone.
Qed.

(** ** The calculator's state across calls *)

Section CalculatorState.
Context `{Lifetimes}.

(** A fit_models call that returns has fitted both models with the
    configured penalizer, so that the guard of predict_clv passes; it
    leaves the configuration and every frame as they were. *)
Theorem fit_models_success rfm (w w' : World) u :
  fit_models rfm w = (Return u, w') →
  frames w' = frames w ∧ config (self w') = config (self w) ∧
  ¬ models_unset (self w') ∧
  ∃ bg gg,
    bgf_model (self w')
      = Some (mkFitter (cfg_penalizer_coef (config (self w))) (Some bg)) ∧
    ggf_model (self w')
      = Some (mkFitter (cfg_penalizer_coef (config (self w))) (Some gg)).
Proof.
  intros Hrun.
  destruct (fit_models_Return _ _ _ _ Hrun) as (Hfr & bg & gg & Hbg & Hgg).
  repeat split; [done | | | eauto].
  - destruct w as [c fs]. revert Hrun.
    unfold fit_models, get_self, set_bgf_model, set_ggf_model, on_frames,
      py_getitem, lift_outcome.
    unfold mbind, Py_bind, mret, Py_ret. simpl.
    repeat (case_match; simplify_eq/=; try done).
    intros [= _ Hw]. by rewrite <- Hw.
  - intros [Hn | Hn]; congruence.
Qed.

(** A fit_models call that raises leaves the frames as they were, and
    the BG/NBD attribute always set: to an unfitted object when the
    failure came no later than the BG/NBD fit (an earlier fit is then
    lost), to the newly fitted one otherwise. The Gamma-Gamma attribute
    is either untouched or an unfitted object. *)
Theorem fit_models_failure_state rfm (w w' : World) e :
  fit_models rfm w = (Raise e, w') →
  let pen := cfg_penalizer_coef (config (self w)) in
  frames w' = frames w ∧ config (self w') = config (self w) ∧
  ((bgf_model (self w') = Some (mkFitter pen None) ∧
    ggf_model (self w') = ggf_model (self w)) ∨
   (∃ bg, bgf_model (self w') = Some (mkFitter pen (Some bg)) ∧
      (ggf_model (self w') = ggf_model (self w) ∨
       ggf_model (self w') = Some (mkFitter pen None)))).
Proof.
  destruct w as [c fs].
  unfold fit_models, get_self, set_bgf_model, set_ggf_model, on_frames,
    py_getitem, lift_outcome.
  unfold mbind, Py_bind, mret, Py_ret. simpl.
  repeat (case_match; simplify_eq/=; try done); intros; simplify_eq/=;
    eauto 10.
Qed.

(** predict_clv and get_clv_segments never change the calculator, and
    fit_models never changes a frame, whether they return or raise. *)
Theorem methods_keep_to_their_state rfm (w : World) :
  self (predict_clv rfm w).2 = self w ∧
  self (get_clv_segments rfm w).2 = self w ∧
  frames (fit_models rfm w).2 = frames w.
Proof.
  destruct w as [c fs]. repeat split.
  - unfold predict_clv, get_self, on_frames, py_getitem, py_setitem,
      lift_outcome.
    unfold mbind, Py_bind, mret, Py_ret. simpl.
    repeat (case_match; simplify_eq/=; try done).
  - unfold get_clv_segments, on_frames, py_getitem, py_setitem, lift_outcome.
    unfold mbind, Py_bind, mret, Py_ret. simpl.
    repeat (case_match; simplify_eq/=; try done).
  - unfold fit_models, get_self, set_bgf_model, set_ggf_model, on_frames,
      py_getitem, lift_outcome.
    unfold mbind, Py_bind, mret, Py_ret. simpl.
    repeat (case_match; simplify_eq/=; try done).
Qed.

(** When predict_clv raises, whatever the cause, no clv value has been
    written: the frame keeps its index and every column other than
    predicted_transactions, the clv column included. *)
Theorem predict_clv_failure_writes_no_clv rfm (w w' : World) e df :
  predict_clv rfm w = (Raise e, w') → frames w !! rfm = Some df →
  ∃ df', frames w' !! rfm = Some df' ∧ df_index df' = df_index df ∧
    ∀ col, col ≠ "predicted_transactions" →
      df_columns df' !! col = df_columns df !! col.
Proof.
  destruct w as [c fs]. simpl.
  unfold predict_clv, get_self, raise, on_frames, py_getitem, py_setitem,
    lift_outcome.
  unfold mbind, Py_bind, mret, Py_ret. simpl. intros Hrun Hdf. revert Hrun.
  repeat (case_match; simplify_eq/=; try done); intros; simplify_eq/=;
    eauto;
    repeat match goal with
    | Hs : setitem _ _ _ = Return _ |- _ => apply setitem_inv in Hs as [? ->]
    | Hl : <[_ := _]> _ !! _ = Some _ |- _ =>
        rewrite lookup_insert_eq in Hl; simplify_eq
    end;
    rewrite ?lookup_insert_eq; eexists; (split; [done |]); simpl;
    (split; [done |]); intros col Hcol; by rewrite lookup_insert_ne.
Qed.

End CalculatorState.

(** ** Value tiers *)

Lemma assign_label_index {A} (bins : list Edge) (labels : list A) x y lx ly :
  (x <= y)%Q →
  assign_label bins labels true (Some x) = Some lx →
  assign_label bins labels true (Some y) = Some ly →
  ∃ a b, labels !! a = Some lx ∧ labels !! b = Some ly ∧ (a ≤ b)%nat.
Proof.
  intros Hxy. unfold assign_label.
  pose proof (bin_id_mono bins x y Hxy) as Hid.
  repeat case_bool_decide; try done. intros Hx Hy.
  do 2 eexists. split; [exact Hx |]. split; [exact Hy |]. lia.
Qed.

(** When get_clv_segments returns, every customer with a clv value is in
    one of the four tiers and a customer with a missing clv has a missing
    tier; of two customers, the one with the smaller clv is never in the
    higher tier (tiers ranked Low, Medium, High, Top). *)
Theorem clv_tiers `{Lifetimes} rfm (w w' : World) r df :
  frames w !! rfm = Some df →
  get_clv_segments rfm w = (Return r, w') →
  ∃ df', frames w' !! rfm = Some df' ∧
    (∀ i v, cell df "clv" i = Some v →
       match to_num v with
       | Some _ => ∃ l, l ∈ clv_labels ∧
                     cell df' "clv_segment" i = Some (VStr l)
       | None => cell df' "clv_segment" i = Some VNaN
       end) ∧
    (∀ i j vi vj qi qj,
       cell df "clv" i = Some vi → cell df "clv" j = Some vj →
       to_num vi = Some qi → to_num vj = Some qj → (qi <= qj)%Q →
       ∃ li lj a b,
         cell df' "clv_segment" i = Some (VStr li) ∧
         cell df' "clv_segment" j = Some (VStr lj) ∧
         clv_labels !! a = Some li ∧ clv_labels !! b = Some lj ∧
         (a ≤ b)%nat).
Proof.
  intros Hdf Hrun. rewrite (get_clv_segments_run _ _ _ Hdf) in Hrun.
  destruct (df_columns df !! "clv") as [vs|] eqn:Hclv; [| done].
  destruct (qcut _ 4 clv_labels) as [segments|] eqn:Hq; [| done].
  injection Hrun as _ <-. eexists. cbn [frames].
  rewrite lookup_insert_eq. split; [done |].
  destruct (qcut_cells _ clv_labels _ eq_refl Hq) as [bins Hc].
  cbn [s_values] in Hc. unfold cell. rewrite Hclv. cbn [df_columns].
  rewrite lookup_insert_eq. cbn [mbind option_bind]. split.
  - intros i v Hv. specialize (Hc i v Hv). rewrite list_lookup_fmap.
    destruct (to_num v).
    + destruct Hc as (l & -> & Hl & _). eauto.
    + by rewrite Hc.
  - intros i j vi vj qi qj Hi Hj Hqi Hqj Hle.
    pose proof (Hc i vi Hi) as Hci. pose proof (Hc j vj Hj) as Hcj.
    rewrite Hqi in Hci. rewrite Hqj in Hcj.
    destruct Hci as (li & Hli & _ & Hai). destruct Hcj as (lj & Hlj & _ & Haj).
    destruct (assign_label_index _ _ _ _ _ _ Hle Hai Haj)
      as (a & b & Ha & Hb & Hab).
    exists li, lj, a, b. rewrite !list_lookup_fmap, Hli, Hlj. done.
Qed.

(** get_clv_segments on a table whose clv values are all equal (every
    customer predicted the same value, 0 for instance) raises
    ValueError("Bin edges must be unique") and changes nothing. *)
Theorem get_clv_segments_rejects_constant_clv `{Lifetimes}
    rfm (w : World) df vs (c : Q) :
  frames w !! rfm = Some df → df_columns df !! "clv" = Some vs → vs ≠ [] →
  Forall (λ v, ∃ q, to_num v = Some q ∧ (q == c)%Q) vs →
  get_clv_segments rfm w
  = (Raise (ValueError "Bin edges must be unique"), w).
Proof.
  intros Hdf Hclv Hne Hall.
  rewrite (get_clv_segments_run _ _ _ Hdf), Hclv.
  by rewrite (qcut_constant (mkSeries (df_index df) vs) clv_labels c).
Qed.

(** ** Preprocessing of the transactions file *)

Lemma select_sublist {A} (mask : list bool) (l : list A) :
  select mask l `sublist_of` l.
Proof.
  revert mask. induction l as [|x l IH]; intros [|[] mask]; simpl;
    try constructor; try apply IH. apply sublist_nil_l.
Qed.

Lemma select_fmap_filter {A} (f : A → bool) (l : list A) :
  select (f <$> l) l = filter (λ x, f x = true) l.
Proof.
  induction l as [|x l IH]; [done |].
  rewrite fmap_cons, filter_cons. simpl. rewrite IH.
  destruct (f x); by case_decide.
Qed.

Lemma StronglySorted_sublist {A} (R : relation A) (l l' : list A) :
  l `sublist_of` l' → StronglySorted R l' → StronglySorted R l.
Proof.
  induction 1 as [|x l l' Hsub IH|x l l' Hsub IH]; intros Hs; [done | |].
  - apply StronglySorted_cons in Hs as [Hall Hs].
    apply StronglySorted_cons. split; [| by apply IH].
    eapply Forall_forall. intros y Hy.
    eapply Forall_forall in Hall; [done |]. by eapply elem_of_sublist.
  - apply StronglySorted_cons in Hs as [_ Hs]. by apply IH.
Qed.

Lemma same_row_key (a b : TransactionRow) :
  same_row a b = true ↔ row_key a = row_key b.
Proof.
  unfold same_row, row_key.
  rewrite !andb_true_iff, !Z.eqb_eq, Qeq_bool_iff, bool_decide_eq_true.
  rewrite <- Qred_eq_iff. split; [intros [[[-> ->] ->] ->] | intros [= -> -> -> ->]];
    done.
Qed.

Lemma existsb_same_row (x : TransactionRow) (seen : list TransactionRow) :
  existsb (same_row x) seen = true ↔ row_key x ∈ row_key <$> seen.
Proof.
  rewrite existsb_exists, list_elem_of_fmap.
  split; intros (y & H1 & H2).
  - exists y. split; [by apply same_row_key | by apply list_elem_of_In].
  - exists y. split; [by apply list_elem_of_In | by apply same_row_key].
Qed.

Lemma drop_duplicates_after_spec (seen l : list TransactionRow) :
  let out := select (negb <$> duplicated_after seen l) l in
  NoDup (row_key <$> out) ∧
  (∀ r, r ∈ out → row_key r ∉ row_key <$> seen) ∧
  (∀ r, r ∈ l → row_key r ∈ row_key <$> seen ∨ row_key r ∈ row_key <$> out).
Proof.
  revert seen. induction l as [|x l IH]; intros seen; simpl.
  { split; [constructor |]. split; intros r Hr; by apply elem_of_nil in Hr. }
  destruct (IH (x :: seen)) as (Hnd & Hfresh & Hall).
  destruct (existsb (same_row x) seen) eqn:Hex; simpl.
  - apply existsb_same_row in Hex.
    split; [done |]. split.
    + intros r Hr Hin. apply (Hfresh r Hr). rewrite ?fmap_cons; simpl. by right.
    + intros r [-> | Hr]%elem_of_cons; [by left |].
      destruct (Hall r Hr) as [Hs | Hs]; [| by right].
      rewrite ?fmap_cons in Hs; simpl in Hs. apply elem_of_cons in Hs as [-> | Hs]; by left.
  - assert (row_key x ∉ row_key <$> seen) as Hx.
    { intros Hin. apply existsb_same_row in Hin. congruence. }
    split; [| split].
    + rewrite ?fmap_cons; simpl. constructor; [| done].
      intros (r & Hk & Hr)%list_elem_of_fmap.
      apply (Hfresh r Hr). rewrite ?fmap_cons; simpl; rewrite Hk. by left.
    + intros r [-> | Hr]%elem_of_cons; [done |].
      intros Hin. apply (Hfresh r Hr). rewrite ?fmap_cons; simpl. by right.
    + intros r [-> | Hr]%elem_of_cons.
      { right. rewrite ?fmap_cons; simpl. by left. }
      destruct (Hall r Hr) as [Hs | Hs].
      * rewrite ?fmap_cons in Hs; simpl in Hs. apply elem_of_cons in Hs as [-> | Hs].
        -- right. rewrite ?fmap_cons; simpl. by left.
        -- by left.
      * right. rewrite ?fmap_cons; simpl. by right.
Qed.

Lemma drop_duplicates_spec (l : list TransactionRow) :
  drop_duplicates l `sublist_of` l ∧
  NoDup (row_key <$> drop_duplicates l) ∧
  ∀ r, r ∈ l → row_key r ∈ row_key <$> drop_duplicates l.
Proof.
  split; [apply select_sublist |].
  destruct (drop_duplicates_after_spec [] l) as (Hnd & _ & Hall).
  split; [done |]. intros r Hr.
  destruct (Hall r Hr) as [Hs | Hs]; [by apply elem_of_nil in Hs | done].
Qed.

(** Merge sort on dates is one such sort. *)
Lemma sort_by_date_sorts : sorts_by_date sort_by_date.
Proof.
  intros l. split; [apply merge_sort_Permutation |].
  apply StronglySorted_merge_sort.
  - intros a b c. unfold date_le. lia.
  - intros a b. unfold date_le. lia.
Qed.

Lemma preprocess_data_filter
    (sort : list TransactionRow → list TransactionRow)
    (customers : list Customer.t) (transactions : list TransactionRow) :
  (preprocess_data sort customers transactions).2
  = filter (λ r : TransactionRow,
              bool_decide (customer_id r ∈ Customer.customer_id <$> customers)
              = true)
           (sort (drop_duplicates transactions)).
Proof.
  unfold preprocess_data, isin. cbn [snd].
  rewrite <- list_fmap_compose. apply select_fmap_filter.
Qed.

Lemma preprocess_data_perm
    (sort : list TransactionRow → list TransactionRow)
    (customers : list Customer.t) (transactions : list TransactionRow) :
  sorts_by_date sort →
  (preprocess_data sort customers transactions).2
  ≡ₚ filter (λ r : TransactionRow,
              bool_decide (customer_id r ∈ Customer.customer_id <$> customers)
              = true)
           (drop_duplicates transactions).
Proof.
  intros Hsort. rewrite preprocess_data_filter.
  by rewrite (proj1 (Hsort _)).
Qed.

Lemma preprocess_data_elem
    (sort : list TransactionRow → list TransactionRow)
    (customers : list Customer.t) (transactions : list TransactionRow)
    (x : TransactionRow) :
  sorts_by_date sort →
  x ∈ (preprocess_data sort customers transactions).2 ↔
  x ∈ drop_duplicates transactions ∧ known_customer customers x.
Proof.
  intros Hsort.
  rewrite (preprocess_data_perm _ _ _ Hsort), list_elem_of_filter,
    bool_decide_eq_true.
  unfold known_customer. tauto.
Qed.

Section PreprocessData.
Variable sort_values_by_date : list TransactionRow → list TransactionRow.
Hypothesis sort_values_sorts : sorts_by_date sort_values_by_date.
Variables (customers : list Customer.t) (transactions : list TransactionRow).

(** The rows preprocess_data returns are in ascending order of
    transaction_date. *)
Theorem preprocess_data_sorted :
  StronglySorted date_le
    (preprocess_data sort_values_by_date customers transactions).2.
Proof.
  rewrite preprocess_data_filter.
  eapply StronglySorted_sublist; [apply sublist_filter |].
  apply sort_values_sorts.
Qed.

(** preprocess_data returns the customers as given, and of the
    transactions exactly one copy of every row whose customer_id is in
    the customers table: each returned row is a row of the input with a
    known customer, each such input row has an equal row in the output,
    and no two output rows are equal. *)
Theorem preprocess_data_rows :
  (preprocess_data sort_values_by_date customers transactions).1 = customers ∧
  (∀ r, r ∈ (preprocess_data sort_values_by_date customers transactions).2 →
        r ∈ transactions ∧ known_customer customers r) ∧
  (∀ r, r ∈ transactions → known_customer customers r →
        ∃ r', r' ∈ (preprocess_data sort_values_by_date customers transactions).2
              ∧ same_row r r' = true) ∧
  NoDup (row_key <$>
         (preprocess_data sort_values_by_date customers transactions).2).
Proof.
  destruct (drop_duplicates_spec transactions) as (Hsub & Hnd & Hall).
  split; [done |]. split; [| split].
  - intros r [Hr Hk]%(preprocess_data_elem _ _ _ _ sort_values_sorts). split; [| done].
    by eapply elem_of_sublist.
  - intros r Hr Hk.
    destruct (proj1 (list_elem_of_fmap _ _ _) (Hall r Hr)) as (r' & Hkey & Hr').
    exists r'. split; [| by apply same_row_key].
    apply (preprocess_data_elem _ _ _ _ sort_values_sorts). split; [done |].
    unfold known_customer in *. injection Hkey as Hid _ _ _. by rewrite <- Hid.
  - rewrite (preprocess_data_perm _ _ _ sort_values_sorts).
    apply (sublist_NoDup _ (row_key <$> drop_duplicates transactions));
      [exact Hnd |].
    apply fmap_sublist, sublist_filter.
Qed.

(** When calculate_rfm returns on the preprocessed transactions, the
    customers of its table are exactly those of the customers table that
    have a transaction. *)
Theorem preprocess_data_then_calculate_rfm (analysis_date : option Z)
    (rfm : DataFrame) :
  calculate_rfm
    (fields <$> (preprocess_data sort_values_by_date customers transactions).2)
    analysis_date = Return rfm →
  ∃ ids,
    df_columns rfm !! "customer_id" = Some (VInt <$> ids) ∧
    StronglySorted Z.lt ids ∧
    ∀ k, k ∈ ids ↔
         k ∈ Customer.customer_id <$> customers ∧
         ∃ r : TransactionRow, r ∈ transactions ∧ customer_id r = k.
Proof.
  set (out := (preprocess_data sort_values_by_date customers transactions).2).
  intros Hrun.
  destruct (calculate_rfm_columns _ _ _ Hrun)
    as (a & recency & Ts & _ & _ & _ & _ & Hids & _).
  exists (group_keys (fields <$> out)). split; [done |].
  split; [apply group_keys_sorted |].
  intros k. rewrite group_keys_elem.
  destruct (drop_duplicates_spec transactions) as (Hsub & _ & Hall).
  split.
  - intros (t & Ht & <-).
    apply list_elem_of_fmap in Ht as (r & -> & Hr).
    apply (preprocess_data_elem _ _ _ _ sort_values_sorts) in Hr
      as [Hr Hk].
    split; [done |].
    exists r. split; [by eapply elem_of_sublist | done].
  - intros (Hk & r & Hr & <-).
    destruct (proj1 (list_elem_of_fmap _ _ _) (Hall r Hr))
      as (r' & Hkey & Hr').
    injection Hkey as Hid _ _ _.
    exists (fields r'). split; [| done].
    apply list_elem_of_fmap. exists r'. split; [done |].
    apply (preprocess_data_elem _ _ _ _ sort_values_sorts). split; [done |].
    unfold known_customer. by rewrite <- Hid.
Qed.

End PreprocessData.

(** ** The retention matrix *)

Lemma keys_of_elem (l : list Z) (x : Z) : x ∈ foldr insert_key [] l ↔ x ∈ l.
Proof.
  induction l as [|k l IH]; simpl; [done |].
  rewrite insert_key_elem, IH, elem_of_cons. tauto.
Qed.

Lemma keys_of_sorted (l : list Z) : StronglySorted Z.lt (foldr insert_key [] l).
Proof.
  induction l as [|k l IH]; simpl; [constructor | by apply insert_key_sorted].
Qed.

Lemma keys_of_const (l : list Z) (c : Z) :
  l ≠ [] → (∀ x, x ∈ l → x = c) → foldr insert_key [] l = [c].
Proof.
  intros Hne Hall. apply sorted_lt_unique.
  - apply keys_of_sorted.
  - repeat constructor.
  - intros x. rewrite keys_of_elem, list_elem_of_singleton. split; [auto |].
    intros ->. destruct l as [|y l]; [done |].
    rewrite <- (Hall y) by left. left.
Qed.

Lemma insert_pair_elem (k x : Z * Z) (ks : list (Z * Z)) :
  x ∈ insert_pair k ks ↔ x = k ∨ x ∈ ks.
Proof.
  induction ks as [|k' ks IH]; simpl.
  - rewrite list_elem_of_singleton, elem_of_nil. tauto.
  - destruct (pair_lt k k'); [by rewrite elem_of_cons |].
    destruct (pair_eqb k k') eqn:Heq.
    + unfold pair_eqb in Heq. apply andb_true_iff in Heq as [H1 H2].
      apply Z.eqb_eq in H1, H2.
      assert (k = k') as -> by (destruct k, k'; simpl in *; congruence).
      rewrite elem_of_cons. tauto.
    + rewrite !elem_of_cons, IH. tauto.
Qed.

Lemma cohort_keys_elem (cohort_data : list CohortRow) (k : Z * Z) :
  k ∈ cohort_keys cohort_data ↔
  ∃ r, r ∈ cohort_data ∧ (cohort r, purchase_month r) = k.
Proof.
  unfold cohort_keys. induction cohort_data as [|r l IH]; simpl.
  - split; [intros Hk; inversion Hk | intros (r & Hr & _); inversion Hr].
  - rewrite insert_pair_elem, IH. split.
    + intros [-> | (r' & Hr' & <-)].
      * exists r. split; [left | done].
      * exists r'. split; [by right | done].
    + intros (r' & [-> | Hr']%elem_of_cons & <-); [by left |].
      right. by exists r'.
Qed.

Lemma sum_positive (l : list Z) :
  l ≠ [] → Forall (λ n, 0 < n) l → 0 < foldr Z.add 0 l.
Proof.
  intros Hne Hall. destruct l as [|x l]; [done |].
  apply Forall_cons in Hall as [Hx Hl]. simpl.
  assert (0 ≤ foldr Z.add 0 l); [| lia].
  clear Hne Hx. induction Hl as [|y l Hy _ IH]; simpl; lia.
Qed.

Lemma nunique_positive (l : list Z) : l ≠ [] → 0 < nunique l.
Proof.
  intros Hne. unfold nunique.
  destruct (foldr insert_key [] l) as [|k ks] eqn:Hk; [| simpl; lia].
  destruct l as [|x l]; [done |].
  assert (x ∈ foldr insert_key [] (x :: l)) as Hin
    by (apply keys_of_elem; left).
  rewrite Hk in Hin. inversion Hin.
Qed.

Lemma divide_cell_same (s : option Z) (a : Z) :
  s = Some a → 0 < a →
  ∃ q, divide_cell s s = VFloat q ∧ (q == 1)%Q.
Proof.
  intros -> Ha. unfold divide_cell, float_div.
  assert (¬ (inject_Z a == 0)%Q) as Hnz.
  { change 0%Q with (inject_Z 0). rewrite inject_Z_injective. lia. }
  destruct (Qeq_bool (inject_Z a) 0) eqn:Hz.
  - by apply Qeq_bool_iff in Hz.
  - eexists. split; [done |]. by field.
Qed.

(** Because _prepare_cohort_data sets cohort and purchase_month to the
    same month, the retention matrix of a non-empty transactions table
    has one row per month with a transaction, the single column 0, and
    the value 1 in every cell. *)
Theorem retention_matrix_is_constant
    (to_period_M : Z → Z) (transactions : list TransactionRow) :
  transactions ≠ [] →
  ∃ values,
    _calculate_retention_matrix (_prepare_cohort_data to_period_M transactions)
    = Return
        (mkMatrix
           (foldr insert_key []
              ((λ t : TransactionRow, to_period_M (transaction_date t))
               <$> transactions))
           [0] values) ∧
    Forall (λ row, ∃ q, row = [VFloat q] ∧ (q == 1)%Q) values.
Proof.
  intros Hne. unfold _calculate_retention_matrix.
  set (month := λ t : TransactionRow, to_period_M (transaction_date t)).
  set (data := _prepare_cohort_data to_period_M transactions).
  set (grouping := count_customers data <$> cohort_keys data).
  assert (∀ k, k ∈ cohort_keys data ↔
               ∃ t, t ∈ transactions ∧ k = (month t, month t)) as Hkeys.
  { intros k. rewrite cohort_keys_elem. unfold data, _prepare_cohort_data.
    split.
    - intros (r & (t & -> & Ht)%list_elem_of_fmap & <-). by exists t.
    - intros (t & Ht & ->). exists (mkCohortRow t (month t) (month t)).
      split; [| done]. apply list_elem_of_fmap. by exists t. }
  assert (∀ g, g ∈ grouping →
               period_number g = 0 ∧ 0 < cc_customer_id g ∧
               ∃ t, t ∈ transactions ∧ cc_cohort g = month t) as Hgroup.
  { intros g (k & -> & Hk)%list_elem_of_fmap.
    destruct (proj1 (Hkeys k) Hk) as (t & Ht & ->).
    unfold period_number, count_customers. cbn.
    split; [lia |]. split; [| by exists t].
    apply nunique_positive. intros Hnil.
    apply fmap_nil_inv in Hnil.
    assert (mkCohortRow t (month t) (month t)
            ∈ filter (λ r, cohort r = month t ∧ purchase_month r = month t)
                     data) as Hin.
    { apply list_elem_of_filter. split; [done |].
      unfold data, _prepare_cohort_data. apply list_elem_of_fmap.
      by exists t. }
    rewrite Hnil in Hin. inversion Hin. }
  assert (∀ t, t ∈ transactions →
               ∃ g, g ∈ grouping ∧ cc_cohort g = month t) as Hmonths.
  { intros t Ht. exists (count_customers data (month t, month t)).
    split; [| done]. apply list_elem_of_fmap. eexists. split; [done |].
    apply Hkeys. by exists t. }
  assert (grouping ≠ []) as Hgne.
  { destruct transactions as [|t l]; [done |].
    destruct (Hmonths t) as (g & Hg & _); [left |].
    intros Hnil. rewrite Hnil in Hg. inversion Hg. }
  rewrite (keys_of_const (period_number <$> grouping) 0).
  2: { by destruct grouping. }
  2: { intros x (g & -> & Hg)%list_elem_of_fmap. by apply Hgroup. }
  assert (foldr insert_key [] (cc_cohort <$> grouping)
          = foldr insert_key [] (month <$> transactions)) as ->.
  { apply sorted_lt_unique; try apply keys_of_sorted.
    intros x. rewrite !keys_of_elem, !list_elem_of_fmap. split.
    - intros (g & -> & Hg). destruct (Hgroup g Hg) as (_ & _ & t & Ht & ->).
      by exists t.
    - intros (t & -> & Ht). destruct (Hmonths t Ht) as (g & Hg & <-).
      by exists g. }
  cbn [list_find]. destruct (decide (0 = 0)) as [_ |]; [| done].
  cbn [fmap option_fmap option_map prod_map fst snd].
  eexists. split; [reflexivity |].
  rewrite !Forall_fmap. apply Forall_forall. intros c Hc. simpl.
  apply keys_of_elem, list_elem_of_fmap in Hc as (t & -> & Ht).
  destruct (Hmonths t Ht) as (g & Hg & Hcg).
  destruct (Hgroup g Hg) as (Hp & _ & _).
  unfold pivot_sum.
  destruct (filter _ grouping) as [|g0 gs] eqn:Hf.
  { assert (g ∈ filter (λ r, cc_cohort r = month t ∧ period_number r = 0)
                    grouping) as Hin by by apply list_elem_of_filter.
    rewrite Hf in Hin. inversion Hin. }
  destruct (divide_cell_same
              (Some (foldr Z.add 0 (cc_customer_id <$> g0 :: gs))) _ eq_refl)
    as (q & Hq & Hq1).
  { apply sum_positive; [done |]. rewrite <- Hf.
    rewrite Forall_fmap. apply Forall_forall.
    intros g' [_ Hg']%list_elem_of_filter.
    by destruct (Hgroup g' Hg') as (_ & ? & _). }
  exists q. split; [| done]. by rewrite <- Hq.
Qed.

(** ** The analysis steps of main *)

Lemma qcut_Raise_inv {A} (x : Series) (labels : list A) xs e :
  to_numeric (s_values x) = Return xs → length labels = 4%nat →
  qcut x 4 labels = Raise e → e = ValueError "Bin edges must be unique".
Proof.
  intros Hnum Hlen. unfold qcut. rewrite Hnum.
  destruct (sort_values _) as [|a0 a]; [by intros [= <-] |].
  unfold bins_to_cuts. destruct (_ && _); [by intros [= <-] |].
  rewrite length_fmap, length_seq, Hlen. simpl. done.
Qed.

Section MainAnalysis.
Context `{Lifetimes}.

Lemma on_frames_run {A} (m : Py Heap A) (w : World) o h :
  m (frames w) = (o, h) → on_frames m w = (o, mkWorld (self w) h).
Proof. unfold on_frames. by intros ->. Qed.

(** A run of the analysis steps that does not raise leaves one new frame
    in the store: the table of calculate_rfm with its index and its six
    columns untouched, and the score, segment, prediction, value and
    value-tier columns added; the calculator it created holds both
    models. *)
Theorem main_analysis_result (cfg : Config) (transactions : list Transaction)
    (w w' : World) (rfm_data : loc) :
  main_analysis cfg transactions w = (Return rfm_data, w') →
  frames w !! rfm_data = None ∧
  ¬ models_unset (self w') ∧
  ∃ df df',
    calculate_rfm transactions None = Return df ∧
    frames w' = <[rfm_data := df']> (frames w) ∧
    df_index df' = df_index df ∧
    (∀ c, c ∉ analysis_columns → df_columns df' !! c = df_columns df !! c) ∧
    (∀ c, c ∈ analysis_columns → is_Some (df_columns df' !! c)).
Proof.
  unfold main_analysis. intros Hrun.
  apply bind_Return_inv in Hrun as (df & w1 & Hrfm & Hrun).
  apply lift_outcome_inv in Hrfm as (-> & Hrfm).
  apply bind_Return_inv in Hrun as (l & w2 & Hnew & Hrun).
  unfold new_frame in Hnew. injection Hnew as <- <-.
  set (l := fresh (dom (frames w))) in *.
  assert (frames w !! l = None) as Hfresh
    by apply not_elem_of_dom, is_fresh.
  apply bind_Return_inv in Hrun as (l1 & w3 & Hscore & Hrun).
  apply on_frames_inv in Hscore as (h3 & Hscore & ->).
  apply add_rfm_scores_assigns in Hscore as (-> & Hscore).
  apply bind_Return_inv in Hrun as (l2 & w4 & Hseg & Hrun).
  apply on_frames_inv in Hseg as (h4 & Hseg & ->).
  apply get_customer_segment_assigns in Hseg as (-> & Hseg).
  apply bind_Return_inv in Hrun as ([] & w5 & Hcalc & Hrun).
  unfold new_CLVCalculator in Hcalc. injection Hcalc as <-.
  apply bind_Return_inv in Hrun as ([] & w6 & Hfit & Hrun).
  pose proof (fit_models_sets_models _ _ _ _ Hfit) as Hset.
  apply fit_models_Return in Hfit as (Hfr6 & _).
  apply bind_Return_inv in Hrun as (l3 & w7 & Hpred & Hrun).
  apply predict_clv_assigns in Hpred as (-> & Hself7 & _ & _ & Hpred).
  apply get_clv_segments_assigns in Hrun as (-> & Hself & Htier).
  rewrite Hfr6 in Hpred. cbn [frames self] in *.
  pose proof (assigns_trans _ _ _ _ _ _
                (assigns_trans _ _ _ _ _ _
                   (assigns_trans _ _ _ _ _ _ Hscore Hseg) Hpred) Htier)
    as (d & d' & Hd & Hw' & Hidx & Hkeep & Hadd).
  rewrite lookup_insert_eq in Hd. injection Hd as <-.
  rewrite insert_insert_eq in Hw'.
  split; [done |]. split; [by rewrite Hself, Hself7 |].
  exists df, d'. repeat split; try done.
Qed.

(** When every customer made the same number of purchases (one each,
    say) and calculate_rfm returns, the analysis stops in add_rfm_scores
    with ValueError("Bin edges must be unique"): the table of
    calculate_rfm is left in the store without scores and no calculator
    is created. *)
Theorem main_analysis_same_frequency (cfg : Config)
    (transactions : list Transaction) (w : World) (n : nat) (df : DataFrame) :
  transactions ≠ [] →
  (∀ k, k ∈ group_keys transactions →
        length (get_group transactions k) = n) →
  calculate_rfm transactions None = Return df →
  main_analysis cfg transactions w
  = (Raise (ValueError "Bin edges must be unique"),
     mkWorld (self w) (<[fresh (dom (frames w)) := df]> (frames w))).
Proof.
  intros Hne Hfreq Hrfm.
  destruct (calculate_rfm_columns _ _ _ Hrfm)
    as (a & recency & Ts & Ha & Hrecm & _ & Hidx & _ & Hrec & Hfr & _).
  simpl in Ha.
  destruct (default_analysis_date_Return _ _ Hne Ha) as (m & Hm & ->).
  destruct (recency_column_default transactions m recency Hm Hrecm)
    as (rs & -> & _).
  unfold main_analysis.
  erewrite bind_run; [| unfold lift_outcome; by rewrite Hrfm].
  erewrite bind_run; [| reflexivity].
  set (l := fresh (dom (frames w))).
  set (h := <[l := df]> (frames w)).
  assert (h !! l = Some df) as Hl by apply lookup_insert_eq.
  apply bind_raise.
  apply (on_frames_run _ (mkWorld (self w) h)). cbn [frames self].
  (* the recency column is numeric, the frequency column is constant *)
  assert (py_getitem l "recency" h
          = (Return (mkSeries (df_index df) (VInt <$> rs)), h)) as Hgr.
  { rewrite (py_getitem_run _ _ _ _ Hl). unfold getitem. by rewrite Hrec. }
  assert (py_getitem l "frequency" h
          = (Return (mkSeries (df_index df)
                       (agg_frequency <$>
                        (get_group transactions <$> group_keys transactions))),
             h)) as Hgf.
  { rewrite (py_getitem_run _ _ _ _ Hl). unfold getitem. by rewrite Hfr. }
  assert (∀ labels : list Z,
            qcut (mkSeries (df_index df)
                    (agg_frequency <$>
                     (get_group transactions <$> group_keys transactions)))
                 4 labels
            = Raise (ValueError "Bin edges must be unique")) as Hqf.
  { intros labels. apply (qcut_constant _ labels (inject_Z (Z.of_nat n))).
    - cbn [s_values]. intros Hnil. do 2 apply fmap_nil_inv in Hnil.
      destruct transactions as [|t ts]; [done |].
      assert (customer_id t ∈ group_keys (t :: ts)) as Hin
        by (apply group_keys_elem; exists t; split; [left | done]).
      rewrite Hnil in Hin. inversion Hin.
    - cbn [s_values]. rewrite !Forall_fmap. apply Forall_forall.
      intros k Hk. simpl. unfold agg_frequency.
      rewrite (Hfreq k Hk). eexists. split; [reflexivity | done]. }
  unfold add_rfm_scores. apply bind_raise.
  rewrite (bind_run _ _ _ _ _ Hgr).
  destruct (qcut (mkSeries (df_index df) (VInt <$> rs)) 4 r_labels)
    as [rq | e] eqn:Hqr.
  - erewrite bind_run; [| reflexivity].
    rewrite (bind_run _ _ _ _ _ Hgf). apply bind_raise.
    unfold lift_outcome. by rewrite Hqf.
  - rewrite (qcut_Raise_inv (mkSeries (df_index df) (VInt <$> rs)) r_labels
               _ e (to_numeric_ints rs) eq_refl Hqr).
    by apply bind_raise.
Qed.

End MainAnalysis.

(** ** Instances of the further properties on concrete data *)

Lemma add_rfm_scores_quartiles_atomic_witness :
  (add_rfm_scores 1%positive true (store1 two_rfm)).2 = store1 two_rfm.
Proof.
  apply (add_rfm_scores_quartiles_atomic 1%positive (store1 two_rfm) _
           (ValueError "Bin edges must be unique")).
  vm_compute; reflexivity.
Defined.

Lemma quartile_scores_in_range_witness :
  ∃ df', five_scored !! 1%positive = Some df' ∧
    ∀ metric score, (metric, score) ∈ metric_scores →
    ∀ i v, cell five_rfm metric i = Some v →
      match to_num v with
      | Some _ => ∃ s, cell df' score i = Some (VInt s) ∧ 1 ≤ s ≤ 4
      | None => cell df' score i = Some VNaN
      end.
Proof.
  apply (quartile_scores_in_range 1%positive (store1 five_rfm) five_scored
           1%positive five_rfm).
  - vm_compute; reflexivity.
  - vm_compute; reflexivity.
Defined.

Lemma quartile_scores_ordered_witness :
  ∃ df', five_scored !! 1%positive = Some df' ∧
    ∀ i j vi vj qi qj,
      to_num vi = Some qi → to_num vj = Some qj → (qi <= qj)%Q →
      (cell five_rfm "recency" i = Some vi →
       cell five_rfm "recency" j = Some vj →
       ∃ si sj, cell df' "R_score" i = Some (VInt si) ∧
                cell df' "R_score" j = Some (VInt sj) ∧ sj ≤ si) ∧
      (cell five_rfm "frequency" i = Some vi →
       cell five_rfm "frequency" j = Some vj →
       ∃ si sj, cell df' "F_score" i = Some (VInt si) ∧
                cell df' "F_score" j = Some (VInt sj) ∧ si ≤ sj) ∧
      (cell five_rfm "monetary_avg" i = Some vi →
       cell five_rfm "monetary_avg" j = Some vj →
       ∃ si sj, cell df' "M_score" i = Some (VInt si) ∧
                cell df' "M_score" j = Some (VInt sj) ∧ si ≤ sj).
Proof.
  apply (quartile_scores_ordered 1%positive (store1 five_rfm) five_scored
           1%positive five_rfm).
  - vm_compute; reflexivity.
  - vm_compute; reflexivity.
Defined.

Lemma quartile_mode_rejects_constant_metric_witness :
  ∃ e, add_rfm_scores 1%positive true (store1 two_rfm)
       = (Raise e, store1 two_rfm) ∧
       ("frequency" = "recency" → e = ValueError "Bin edges must be unique").
Proof.
  apply (quartile_mode_rejects_constant_metric 1%positive (store1 two_rfm)
           two_rfm "frequency" "F_score" [VInt 1; VInt 1] 1%Q).
  - vm_compute; reflexivity.
  - right; left.
  - vm_compute; reflexivity.
  - discriminate.
  - repeat constructor; exists 1%Q; split; reflexivity.
Defined.

Lemma fixed_breaks_score_default_date_witness :
  ∃ h' df',
    add_rfm_scores 1%positive false (store1 five_rfm) = (Return 1%positive, h') ∧
    h' !! 1%positive = Some df' ∧
    ∀ i, (i < length (df_index five_rfm))%nat →
      (∃ s, cell df' "R_score" i = Some (VInt s) ∧ 1 ≤ s ≤ 4) ∧
      (∃ s, cell df' "F_score" i = Some (VInt s) ∧ 1 ≤ s ≤ 4) ∧
      ((∀ t, t ∈ five_customers → (0 < amount t)%Q) →
       ∃ s, cell df' "M_score" i = Some (VInt s) ∧ 1 ≤ s ≤ 4).
Proof.
  apply (fixed_breaks_score_default_date five_customers five_rfm
           (store1 five_rfm) 1%positive).
  - discriminate.
  - vm_compute; reflexivity.
  - vm_compute; reflexivity.
Defined.

Lemma calculate_rfm_order_independent_witness :
  calculate_rfm two_customers None
  = calculate_rfm
      [mkTransaction 2 (day 0) 100; mkTransaction 1 (day 40) 100] None.
Proof.
  apply (calculate_rfm_order_independent two_customers
           [mkTransaction 2 (day 0) 100; mkTransaction 1 (day 40) 100] None).
  apply perm_swap.
Defined.

Lemma segment_of_scored_row_witness :
  segment_customer scored_row = Return (segment_by_scores 4 3 3).
Proof.
  apply (segment_of_scored_row scored_row 4 3 3); try lia;
    vm_compute; reflexivity.
Defined.

Lemma get_customer_segment_needs_scores_witness :
  get_customer_segment 1%positive (store1 five_rfm)
  = (Raise (KeyError "RFM_Score"), store1 five_rfm).
Proof.
  apply (get_customer_segment_needs_scores 1%positive (store1 five_rfm)
           five_rfm).
  - vm_compute; reflexivity.
  - vm_compute; discriminate.
  - vm_compute; reflexivity.
Defined.

Lemma fit_models_success_witness :
  let w := fresh_world five_rfm in
  let w' := (@fit_models stand_in 1%positive w).2 in
  frames w' = frames w ∧ config (self w') = config (self w) ∧
  ¬ models_unset (self w') ∧
  ∃ bg gg,
    bgf_model (self w')
      = Some (mkFitter (cfg_penalizer_coef (config (self w))) (Some bg)) ∧
    ggf_model (self w')
      = Some (mkFitter (cfg_penalizer_coef (config (self w))) (Some gg)).
Proof.
  apply (@fit_models_success stand_in 1%positive (fresh_world five_rfm)
           (@fit_models stand_in 1%positive (fresh_world five_rfm)).2 tt).
  vm_compute; reflexivity.
Defined.

Lemma fit_models_failure_state_witness :
  let w := fresh_world refund_rfm in
  let w' := (@fit_models stand_in 1%positive w).2 in
  let pen := cfg_penalizer_coef (config (self w)) in
  frames w' = frames w ∧ config (self w') = config (self w) ∧
  ((bgf_model (self w') = Some (mkFitter pen None) ∧
    ggf_model (self w') = ggf_model (self w)) ∨
   (∃ bg, bgf_model (self w') = Some (mkFitter pen (Some bg)) ∧
      (ggf_model (self w') = ggf_model (self w) ∨
       ggf_model (self w') = Some (mkFitter pen None)))).
Proof.
  apply (@fit_models_failure_state stand_in 1%positive (fresh_world refund_rfm)
           (@fit_models stand_in 1%positive (fresh_world refund_rfm)).2
           non_positive_monetary).
  vm_compute; reflexivity.
Defined.

Lemma predict_clv_failure_writes_no_clv_witness :
  ∃ df',
    frames (@predict_clv stand_in 1%positive (fresh_world five_rfm)).2
      !! 1%positive = Some df' ∧
    df_index df' = df_index five_rfm ∧
    ∀ col, col ≠ "predicted_transactions" →
      df_columns df' !! col = df_columns five_rfm !! col.
Proof.
  apply (@predict_clv_failure_writes_no_clv stand_in 1%positive
           (fresh_world five_rfm)
           (@predict_clv stand_in 1%positive (fresh_world five_rfm)).2
           models_not_fit five_rfm).
  - vm_compute; reflexivity.
  - vm_compute; reflexivity.
Defined.

Lemma clv_tiers_witness :
  let df := frame_at (frames five_predicted) 1 in
  ∃ df', frames five_valued !! 1%positive = Some df' ∧
    (∀ i v, cell df "clv" i = Some v →
       match to_num v with
       | Some _ => ∃ l, l ∈ clv_labels ∧
                     cell df' "clv_segment" i = Some (VStr l)
       | None => cell df' "clv_segment" i = Some VNaN
       end) ∧
    (∀ i j vi vj qi qj,
       cell df "clv" i = Some vi → cell df "clv" j = Some vj →
       to_num vi = Some qi → to_num vj = Some qj → (qi <= qj)%Q →
       ∃ li lj a b,
         cell df' "clv_segment" i = Some (VStr li) ∧
         cell df' "clv_segment" j = Some (VStr lj) ∧
         clv_labels !! a = Some li ∧ clv_labels !! b = Some lj ∧
         (a ≤ b)%nat).
Proof.
  apply (@clv_tiers stand_in 1%positive five_predicted five_valued 1%positive
           (frame_at (frames five_predicted) 1)).
  - vm_compute; reflexivity.
  - vm_compute; reflexivity.
Defined.

Lemma get_clv_segments_rejects_constant_clv_witness :
  @get_clv_segments stand_in 1%positive (fresh_world flat_clv_frame)
  = (Raise (ValueError "Bin edges must be unique"), fresh_world flat_clv_frame).
Proof.
  apply (@get_clv_segments_rejects_constant_clv stand_in 1%positive
           (fresh_world flat_clv_frame) flat_clv_frame
           (replicate 5 (VFloat 10)) 10%Q).
  - vm_compute; reflexivity.
  - vm_compute; reflexivity.
  - discriminate.
  - repeat constructor; exists 10%Q; split; reflexivity.
Defined.

Lemma clv_summary_total_is_table_total_witness :
  (Series_sum
     (clv_sum ∘ stats <$>
      summary_of (get_clv_summary (frame_at (frames five_valued) 1)))
   == Series_sum
        (omap id
           (to_num <$>
            default [] (df_columns (frame_at (frames five_predicted) 1)
                        !! "clv"))))%Q.
Proof.
  apply (@clv_summary_total_is_table_total stand_in 1%positive
           five_predicted five_valued
           (frame_at (frames five_predicted) 1)
           (frame_at (frames five_valued) 1)
           (default [] (df_columns (frame_at (frames five_predicted) 1)
                        !! "clv"))
           (to_num <$>
            default [] (df_columns (frame_at (frames five_predicted) 1)
                        !! "clv"))
           (summary_of (get_clv_summary (frame_at (frames five_valued) 1))));
    vm_compute; reflexivity.
Defined.

Lemma preprocess_data_sorted_witness :
  StronglySorted date_le
    (preprocess_data sort_by_date sample_customers sample_rows).2.
Proof.
  apply (preprocess_data_sorted sort_by_date sort_by_date_sorts
           sample_customers sample_rows).
Defined.

Lemma preprocess_data_rows_witness :
  (preprocess_data sort_by_date sample_customers sample_rows).1
  = sample_customers ∧
  (∀ r, r ∈ (preprocess_data sort_by_date sample_customers sample_rows).2 →
        r ∈ sample_rows ∧ known_customer sample_customers r) ∧
  (∀ r, r ∈ sample_rows → known_customer sample_customers r →
        ∃ r', r' ∈ (preprocess_data sort_by_date sample_customers sample_rows).2
              ∧ same_row r r' = true) ∧
  NoDup (row_key <$>
         (preprocess_data sort_by_date sample_customers sample_rows).2).
Proof.
  apply (preprocess_data_rows sort_by_date sort_by_date_sorts
           sample_customers sample_rows).
Defined.

Lemma preprocess_data_then_calculate_rfm_witness :
  ∃ ids,
    df_columns
      (frame_of
         (calculate_rfm
            (fields <$>
             (preprocess_data sort_by_date sample_customers sample_rows).2)
            None)) !! "customer_id" = Some (VInt <$> ids) ∧
    StronglySorted Z.lt ids ∧
    ∀ k, k ∈ ids ↔
         k ∈ Customer.customer_id <$> sample_customers ∧
         ∃ r : TransactionRow, r ∈ sample_rows ∧ customer_id r = k.
Proof.
  apply (preprocess_data_then_calculate_rfm sort_by_date sort_by_date_sorts
           sample_customers sample_rows None).
  vm_compute; reflexivity.
Defined.

Lemma retention_matrix_is_constant_witness :
  ∃ values,
    _calculate_retention_matrix (_prepare_cohort_data thirty_days sample_rows)
    = Return
        (mkMatrix
           (foldr insert_key []
              ((λ t : TransactionRow, thirty_days (transaction_date t))
               <$> sample_rows))
           [0] values) ∧
    Forall (λ row, ∃ q, row = [VFloat q] ∧ (q == 1)%Q) values.
Proof.
  apply (retention_matrix_is_constant thirty_days sample_rows).
  discriminate.
Defined.

Lemma main_analysis_result_witness :
  let w' := (@main_analysis stand_in sample_config five_customers
               empty_world).2 in
  frames empty_world !! 1%positive = None ∧
  ¬ models_unset (self w') ∧
  ∃ df df',
    calculate_rfm five_customers None = Return df ∧
    frames w' = <[1%positive := df']> (frames empty_world) ∧
    df_index df' = df_index df ∧
    (∀ c, c ∉ analysis_columns → df_columns df' !! c = df_columns df !! c) ∧
    (∀ c, c ∈ analysis_columns → is_Some (df_columns df' !! c)).
Proof.
  apply (@main_analysis_result stand_in sample_config five_customers
           empty_world
           (@main_analysis stand_in sample_config five_customers
              empty_world).2
           1%positive).
  vm_compute; reflexivity.
Defined.

Lemma main_analysis_same_frequency_witness :
  @main_analysis stand_in sample_config two_customers empty_world
  = (Raise (ValueError "Bin edges must be unique"),
     mkWorld (self empty_world)
       (<[fresh (dom (frames empty_world)) := two_rfm]> (frames empty_world))).
Proof.
  apply (@main_analysis_same_frequency stand_in sample_config two_customers
           empty_world 1%nat two_rfm).
  - discriminate.
  - intros k Hk. change (k ∈ [1; 2]) in Hk.
    apply elem_of_cons in Hk as [-> | Hk]; [reflexivity |].
    apply elem_of_cons in Hk as [-> | Hk]; [reflexivity |].
    by apply elem_of_nil in Hk.
  - vm_compute; reflexivity.
Defined.

Lemma calculate_rfm_shape_witness :
  ∃ ids,
    ids ≠ [] ∧
    df_index five_rfm = RangeIndex (length ids) ∧
    df_columns five_rfm !! "customer_id" = Some (VInt <$> ids) ∧
    StronglySorted Z.lt ids ∧
    (∀ c, c ∈ ids ↔ ∃ t, t ∈ five_customers ∧ customer_id t = c) ∧
    (∀ col, col ∈ rfm_columns → full_column five_rfm col) ∧
    (∀ col, is_Some (df_columns five_rfm !! col) → col ∈ rfm_columns).
Proof.
  apply (calculate_rfm_shape five_customers None five_rfm).
  - discriminate.
  - vm_compute; reflexivity.
Defined.

Lemma T_follows_positional_index_witness :
  ∃ a,
    analysis_date_or_default two_customers None = Return (Some a) ∧
    ∀ i, (i < length (df_index two_rfm))%nat →
      ((∃ t, t ∈ two_customers ∧ customer_id t = Z.of_nat i) →
       ∃ first v,
         Series_min (transaction_date <$> get_group two_customers (Z.of_nat i))
         = Some first ∧
         cell two_rfm "T" i = Some v ∧
         to_num v = Some (inject_Z ((a - first) / ns_per_day))) ∧
      ((∀ t, t ∈ two_customers → customer_id t ≠ Z.of_nat i) →
       cell two_rfm "T" i = Some VNaN).
Proof.
  apply (T_follows_positional_index two_customers None two_rfm).
  - discriminate.
  - vm_compute; reflexivity.
Defined.

Lemma recency_sign_witness :
  let rfm := frame_of (calculate_rfm sample_transactions (Some (day 10))) in
  ∃ ids,
    df_columns rfm !! "customer_id" = Some (VInt <$> ids) ∧
    ids ≠ [] ∧
    (∀ c, c ∈ ids ↔ ∃ t, t ∈ sample_transactions ∧ customer_id t = c) ∧
    ∀ i k, ids !! i = Some k →
      ∃ last,
        Series_max (transaction_date <$> get_group sample_transactions k)
        = Some last ∧
        cell rfm "recency" i = Some (VInt ((day 10 - last) / ns_per_day)) ∧
        ((day 10 - last) / ns_per_day < 0 ↔ day 10 < last) ∧
        ((day 10 - last) / ns_per_day = 0 ↔ last ≤ day 10 < last + ns_per_day).
Proof.
  apply (recency_sign sample_transactions (day 10)
           (frame_of (calculate_rfm sample_transactions (Some (day 10))))).
  - discriminate.
  - vm_compute; reflexivity.
Defined.
